(** * Ze keyboard firmware: the scan / resolve / emit cycle

    A shallow embedding of [firmware/constants.h], [firmware/keyboard.h] and
    [firmware/keyboard.cpp] (namespace [Ze]), and the properties of its
    per-cycle state machine.

    Conventions of the embedding.
    - [int] values (key codes, modifier masks) are [Z]; the code only compares
      them, ors them together and negates small constants, so no arithmetic
      can leave the range of a machine [int].
    - [uint8_t] counters and indices are [nat], every increment is reduced
      modulo 256 ([u8]); the conversion [int -> uint8_t] of [try_place_key]
      is [to_uint8].
    - The fixed C arrays are lists; every indexed read is a list lookup and
      every indexed write is [store], both of which fail ([None]) outside
      the array.  A function of the firmware is therefore a function into
      [option]: [None] stands for an access outside a buffer.
    - The hardware (pin writes, the settle delay, [digitalRead]) is the
      function [read row col], true when the switch at that position is
      closed while its row is driven low.
    - The key codes of the Teensy core ([KEY_A], [MODIFIERKEY_CTRL], ...) are
      not part of this repository; they are the constructors of [teensy]
      and their values are a parameter [hid] of the development. *)

From Stdlib Require Import ZArith List Bool Lia.
From stdpp Require Import base tactics numbers option list.

(** ** Constants ([constants.h], [keyboard.h]) *)

Definition NUM_ROWS : nat := 5.
Definition NUM_COLS : nat := 14.
Definition MAX_NUM_KEYS : nat := 6.

Definition KEY_DUMMY : Z := 0.
Definition KEY_LSHIFT : Z := -1.
Definition KEY_CTRL : Z := -2.
Definition KEY_ALT : Z := -3.
Definition KEY_ALTGR : Z := -4.
Definition KEY_SUPER : Z := -5.
Definition KEY_RSHIFT : Z := -6.
Definition KEY_FN : Z := -7.
Definition KEY_FN2 : Z := -8.
Definition NUM_MODIFIERS : nat := 6.


(** The macros of the Teensy core that the layout tables and
    [MODIFIER_MAP] mention. *)
Inductive teensy : Set :=
  | KEY_A | KEY_B | KEY_C | KEY_D | KEY_E | KEY_F | KEY_G | KEY_H | KEY_I
  | KEY_J | KEY_K | KEY_L | KEY_M | KEY_N | KEY_O | KEY_P | KEY_Q | KEY_R
  | KEY_S | KEY_T | KEY_U | KEY_V | KEY_W | KEY_X | KEY_Y | KEY_Z
  | KEY_1 | KEY_2 | KEY_3 | KEY_4 | KEY_5 | KEY_6 | KEY_7 | KEY_8 | KEY_9
  | KEY_0
  | KEY_ENTER | KEY_ESC | KEY_BACKSPACE | KEY_TAB | KEY_SPACE | KEY_MINUS
  | KEY_EQUAL | KEY_LEFT_BRACE | KEY_RIGHT_BRACE | KEY_BACKSLASH
  | KEY_SEMICOLON | KEY_QUOTE | KEY_TILDE | KEY_COMMA | KEY_PERIOD
  | KEY_SLASH | KEY_CAPS_LOCK
  | KEY_F1 | KEY_F2 | KEY_F3 | KEY_F4 | KEY_F5 | KEY_F6 | KEY_F7 | KEY_F8
  | KEY_F9 | KEY_F10 | KEY_F11 | KEY_F12
  | KEY_RIGHT | KEY_LEFT | KEY_DOWN | KEY_UP
  | KEYPAD_1 | KEYPAD_2 | KEYPAD_3 | KEYPAD_4 | KEYPAD_5 | KEYPAD_6
  | KEYPAD_7 | KEYPAD_8 | KEYPAD_9 | KEYPAD_0
  | KEY_NON_US_BS
  | MODIFIERKEY_CTRL | MODIFIERKEY_LEFT_SHIFT | MODIFIERKEY_LEFT_ALT
  | MODIFIERKEY_GUI | MODIFIERKEY_RIGHT_SHIFT | MODIFIERKEY_RIGHT_ALT.

(** ** The key model ([struct Key]) *)

Record Key : Set := mkKey { code : Z; second : Z; third : Z }.

(** [uint8_t] arithmetic. *)
Definition u8 (n : nat) : nat := n mod 256.
Definition to_uint8 (z : Z) : Z := (z mod 256)%Z.
Arguments u8 : simpl never.
Arguments to_uint8 : simpl never.

(** An indexed write [a[i] = v]; outside the array it is an error. *)
Definition store {A : Type} (a : list A) (i : nat) (v : A) : option (list A) :=
  if decide (i < length a) then Some (<[i:=v]> a) else None.

(** The state of a [Board].  The members [current_media] and
    [pressed_media] are used by [keyboard.cpp] and missing from the class
    declaration of [keyboard.h]; they hold what the code assigns to them,
    an [int] and a [Key].  [current_state], [recently_state_changed] and
    [keymap] are declared and never used. *)
Record Board : Type := mkBoard {
  fn_pressed : bool;
  fn2_pressed : bool;
  num_keys_pressed : nat;
  num_keys_released : nat;
  tot_num_keys_pressed : nat;
  curr_pressed_keys : list Key;
  all_pressed_keys : list Key;
  just_released_keys : list Key;
  keys_to_send : list Key;
  codes_to_send : list Z;
  current_modifier : Z;
  pressed_media : Key;
  current_media : Z
}.

Definition set_fn_pressed (v : bool) (b : Board) : Board :=
  mkBoard v (fn2_pressed b) (num_keys_pressed b) (num_keys_released b)
    (tot_num_keys_pressed b) (curr_pressed_keys b) (all_pressed_keys b)
    (just_released_keys b) (keys_to_send b) (codes_to_send b)
    (current_modifier b) (pressed_media b) (current_media b).
Definition set_fn2_pressed (v : bool) (b : Board) : Board :=
  mkBoard (fn_pressed b) v (num_keys_pressed b) (num_keys_released b)
    (tot_num_keys_pressed b) (curr_pressed_keys b) (all_pressed_keys b)
    (just_released_keys b) (keys_to_send b) (codes_to_send b)
    (current_modifier b) (pressed_media b) (current_media b).
Definition set_num_keys_pressed (v : nat) (b : Board) : Board :=
  mkBoard (fn_pressed b) (fn2_pressed b) v (num_keys_released b)
    (tot_num_keys_pressed b) (curr_pressed_keys b) (all_pressed_keys b)
    (just_released_keys b) (keys_to_send b) (codes_to_send b)
    (current_modifier b) (pressed_media b) (current_media b).
Definition set_num_keys_released (v : nat) (b : Board) : Board :=
  mkBoard (fn_pressed b) (fn2_pressed b) (num_keys_pressed b) v
    (tot_num_keys_pressed b) (curr_pressed_keys b) (all_pressed_keys b)
    (just_released_keys b) (keys_to_send b) (codes_to_send b)
    (current_modifier b) (pressed_media b) (current_media b).
Definition set_tot_num_keys_pressed (v : nat) (b : Board) : Board :=
  mkBoard (fn_pressed b) (fn2_pressed b) (num_keys_pressed b)
    (num_keys_released b) v (curr_pressed_keys b) (all_pressed_keys b)
    (just_released_keys b) (keys_to_send b) (codes_to_send b)
    (current_modifier b) (pressed_media b) (current_media b).
Definition set_curr_pressed_keys (v : list Key) (b : Board) : Board :=
  mkBoard (fn_pressed b) (fn2_pressed b) (num_keys_pressed b)
    (num_keys_released b) (tot_num_keys_pressed b) v (all_pressed_keys b)
    (just_released_keys b) (keys_to_send b) (codes_to_send b)
    (current_modifier b) (pressed_media b) (current_media b).
Definition set_all_pressed_keys (v : list Key) (b : Board) : Board :=
  mkBoard (fn_pressed b) (fn2_pressed b) (num_keys_pressed b)
    (num_keys_released b) (tot_num_keys_pressed b) (curr_pressed_keys b) v
    (just_released_keys b) (keys_to_send b) (codes_to_send b)
    (current_modifier b) (pressed_media b) (current_media b).
Definition set_just_released_keys (v : list Key) (b : Board) : Board :=
  mkBoard (fn_pressed b) (fn2_pressed b) (num_keys_pressed b)
    (num_keys_released b) (tot_num_keys_pressed b) (curr_pressed_keys b)
    (all_pressed_keys b) v (keys_to_send b) (codes_to_send b)
    (current_modifier b) (pressed_media b) (current_media b).
Definition set_keys_to_send (v : list Key) (b : Board) : Board :=
  mkBoard (fn_pressed b) (fn2_pressed b) (num_keys_pressed b)
    (num_keys_released b) (tot_num_keys_pressed b) (curr_pressed_keys b)
    (all_pressed_keys b) (just_released_keys b) v (codes_to_send b)
    (current_modifier b) (pressed_media b) (current_media b).
Definition set_codes_to_send (v : list Z) (b : Board) : Board :=
  mkBoard (fn_pressed b) (fn2_pressed b) (num_keys_pressed b)
    (num_keys_released b) (tot_num_keys_pressed b) (curr_pressed_keys b)
    (all_pressed_keys b) (just_released_keys b) (keys_to_send b) v
    (current_modifier b) (pressed_media b) (current_media b).
Definition set_current_modifier (v : Z) (b : Board) : Board :=
  mkBoard (fn_pressed b) (fn2_pressed b) (num_keys_pressed b)
    (num_keys_released b) (tot_num_keys_pressed b) (curr_pressed_keys b)
    (all_pressed_keys b) (just_released_keys b) (keys_to_send b)
    (codes_to_send b) v (pressed_media b) (current_media b).
Definition set_pressed_media (v : Key) (b : Board) : Board :=
  mkBoard (fn_pressed b) (fn2_pressed b) (num_keys_pressed b)
    (num_keys_released b) (tot_num_keys_pressed b) (curr_pressed_keys b)
    (all_pressed_keys b) (just_released_keys b) (keys_to_send b)
    (codes_to_send b) (current_modifier b) v (current_media b).
Definition set_current_media (v : Z) (b : Board) : Board :=
  mkBoard (fn_pressed b) (fn2_pressed b) (num_keys_pressed b)
    (num_keys_released b) (tot_num_keys_pressed b) (curr_pressed_keys b)
    (all_pressed_keys b) (just_released_keys b) (keys_to_send b)
    (codes_to_send b) (current_modifier b) (pressed_media b) v.

(** What [send_keys] hands to the USB keyboard object: the six key slots,
    the modifier mask and the media code. *)
Record Report : Type := mkReport {
  report_keys : list Z;
  report_modifier : Z;
  report_media : Z
}.

(** A [for] loop over the values [idx] of its variable, threading the state
    and stopping at the first failing iteration. *)
Fixpoint for_each {A St : Type} (body : A -> St -> option St)
    (idx : list A) (s : St) : option St :=
  match idx with
  | [] => Some s
  | i :: idx' => s' ← body i s; for_each body idx' s'
  end.

(** [for (uint8_t i = 0; i < n; ++i) body] *)
Definition for_upto {St : Type} (n : nat) (body : nat -> St -> option St)
    (s : St) : option St :=
  for_each body (seq 0 n) s.

(** ** [Key]: constructors and predicates ([keyboard.cpp], lines 4-60) *)

Definition Key_1 (c : Z) : Key := mkKey c KEY_DUMMY KEY_DUMMY.
Definition Key_2 (c s : Z) : Key := mkKey c s KEY_DUMMY.
Definition Key_3 (c s t : Z) : Key := mkKey c s t.

Definition is_modifier (k : Key) : bool := (code k <? 0)%Z.
Definition is_media (k : Key) : bool := (Z.land 0xFF00 (code k) =? 0xE400)%Z.
Definition is_dummy (k : Key) : bool := (code k =? KEY_DUMMY)%Z.
(** [operator==] and [operator!=]. *)
Definition key_eq (a b : Key) : bool :=
  (code a =? code b)%Z && (second a =? second b)%Z.
Definition is_fn (k : Key) : bool := (code k =? KEY_FN)%Z.
Definition is_fn2 (k : Key) : bool := (code k =? KEY_FN2)%Z.
Definition has_second (k : Key) : bool := negb (second k =? KEY_DUMMY)%Z.
Definition has_third (k : Key) : bool := negb (third k =? KEY_DUMMY)%Z.

(** The code that [try_place_key] computes for a key it places, before the
    assignment to its [uint8_t] local. *)
Definition layer_code (fn fn2 : bool) (k : Key) : Z :=
  if has_second k && fn then second k
  else if has_third k && fn2 then third k
  else code k.

(** The same resolution as the specification words it (section 4.3), the
    tertiary code first; the statement on the layer precedence is compared with
    [layer_code] through it. *)
Definition spec_layer_code (layer1 layer2 : bool) (k : Key) : Z :=
  if layer2 && has_third k then third k
  else if layer1 && has_second k then second k
  else code k.

(** The media code of [update_keys_to_send]. *)
Definition media_code (fn : bool) (m : Key) : Z :=
  if negb (is_dummy m) then
    if has_second m && fn then second m else code m
  else 0%Z.

(** ** Keys up to what [Key()] leaves unwritten *)

(** The default constructor writes [code] only, so the other two members
    of a dummy key made by it are whatever the memory held.  Two keys are
    alike when they are the same key or are both dummy keys; two states
    are alike when their keys are alike, position by position, and
    everything else is equal. *)
Definition alike (a c : Key) : Prop :=
  a = c \/ (is_dummy a = true /\ is_dummy c = true).

Record alike_boards (b b' : Board) : Prop := mkAlike {
  al_fn : fn_pressed b = fn_pressed b';
  al_fn2 : fn2_pressed b = fn2_pressed b';
  al_num_pressed : num_keys_pressed b = num_keys_pressed b';
  al_num_released : num_keys_released b = num_keys_released b';
  al_tot : tot_num_keys_pressed b = tot_num_keys_pressed b';
  al_curr : Forall2 alike (curr_pressed_keys b) (curr_pressed_keys b');
  al_all : Forall2 alike (all_pressed_keys b) (all_pressed_keys b');
  al_released : Forall2 alike (just_released_keys b) (just_released_keys b');
  al_keys : Forall2 alike (keys_to_send b) (keys_to_send b');
  al_codes : codes_to_send b = codes_to_send b';
  al_modifier : current_modifier b = current_modifier b';
  al_pressed_media : alike (pressed_media b) (pressed_media b');
  al_media : current_media b = current_media b'
}.

(** ** Sample inputs *)

(** A valuation of the Teensy macros, after Teensyduino's [keylayouts.h]:
    the USB usage code of a key is or-ed with [0xF000], the bit of a
    modifier with [0xE000]. *)
Definition teensy_key (usage : Z) : Z := Z.lor usage 0xF000.
Definition teensy_modifier (bit : Z) : Z := Z.lor bit 0xE000.

Definition teensy_hid (t : teensy) : Z :=
  match t with
  | KEY_A => teensy_key 4 | KEY_B => teensy_key 5 | KEY_C => teensy_key 6
  | KEY_D => teensy_key 7 | KEY_E => teensy_key 8 | KEY_F => teensy_key 9
  | KEY_G => teensy_key 10 | KEY_H => teensy_key 11 | KEY_I => teensy_key 12
  | KEY_J => teensy_key 13 | KEY_K => teensy_key 14 | KEY_L => teensy_key 15
  | KEY_M => teensy_key 16 | KEY_N => teensy_key 17 | KEY_O => teensy_key 18
  | KEY_P => teensy_key 19 | KEY_Q => teensy_key 20 | KEY_R => teensy_key 21
  | KEY_S => teensy_key 22 | KEY_T => teensy_key 23 | KEY_U => teensy_key 24
  | KEY_V => teensy_key 25 | KEY_W => teensy_key 26 | KEY_X => teensy_key 27
  | KEY_Y => teensy_key 28 | KEY_Z => teensy_key 29
  | KEY_1 => teensy_key 30 | KEY_2 => teensy_key 31 | KEY_3 => teensy_key 32
  | KEY_4 => teensy_key 33 | KEY_5 => teensy_key 34 | KEY_6 => teensy_key 35
  | KEY_7 => teensy_key 36 | KEY_8 => teensy_key 37 | KEY_9 => teensy_key 38
  | KEY_0 => teensy_key 39
  | KEY_ENTER => teensy_key 40 | KEY_ESC => teensy_key 41
  | KEY_BACKSPACE => teensy_key 42 | KEY_TAB => teensy_key 43
  | KEY_SPACE => teensy_key 44 | KEY_MINUS => teensy_key 45
  | KEY_EQUAL => teensy_key 46 | KEY_LEFT_BRACE => teensy_key 47
  | KEY_RIGHT_BRACE => teensy_key 48 | KEY_BACKSLASH => teensy_key 49
  | KEY_SEMICOLON => teensy_key 51 | KEY_QUOTE => teensy_key 52
  | KEY_TILDE => teensy_key 53 | KEY_COMMA => teensy_key 54
  | KEY_PERIOD => teensy_key 55 | KEY_SLASH => teensy_key 56
  | KEY_CAPS_LOCK => teensy_key 57
  | KEY_F1 => teensy_key 58 | KEY_F2 => teensy_key 59
  | KEY_F3 => teensy_key 60 | KEY_F4 => teensy_key 61
  | KEY_F5 => teensy_key 62 | KEY_F6 => teensy_key 63
  | KEY_F7 => teensy_key 64 | KEY_F8 => teensy_key 65
  | KEY_F9 => teensy_key 66 | KEY_F10 => teensy_key 67
  | KEY_F11 => teensy_key 68 | KEY_F12 => teensy_key 69
  | KEY_RIGHT => teensy_key 79 | KEY_LEFT => teensy_key 80
  | KEY_DOWN => teensy_key 81 | KEY_UP => teensy_key 82
  | KEYPAD_1 => teensy_key 89 | KEYPAD_2 => teensy_key 90
  | KEYPAD_3 => teensy_key 91 | KEYPAD_4 => teensy_key 92
  | KEYPAD_5 => teensy_key 93 | KEYPAD_6 => teensy_key 94
  | KEYPAD_7 => teensy_key 95 | KEYPAD_8 => teensy_key 96
  | KEYPAD_9 => teensy_key 97 | KEYPAD_0 => teensy_key 98
  | KEY_NON_US_BS => teensy_key 100
  | MODIFIERKEY_CTRL => teensy_modifier 0x01
  | MODIFIERKEY_LEFT_SHIFT => teensy_modifier 0x02
  | MODIFIERKEY_LEFT_ALT => teensy_modifier 0x04
  | MODIFIERKEY_GUI => teensy_modifier 0x08
  | MODIFIERKEY_RIGHT_SHIFT => teensy_modifier 0x20
  | MODIFIERKEY_RIGHT_ALT => teensy_modifier 0x40
  end%Z.

(** The state of the matrix in which exactly the listed positions are
    closed. *)
Definition switches (closed : list (nat * nat)) (row col : nat) : bool :=
  existsb (fun p => (fst p =? row) && (snd p =? col)) closed.

(** A [Board] before [init]: the arrays have their sizes, their contents
    and the other members are whatever the memory held. *)
Definition stale : Key := mkKey 7 7 7.
Definition blank : Board :=
  mkBoard true true 9 9 9 (replicate 6 stale) (replicate 70 stale)
    (replicate 6 stale) (replicate 6 stale) (replicate 6 5%Z) 3%Z stale 8%Z.

(** A [Board] whose slots are empty, with the given scan results. *)
Definition empty_slots (fn fn2 : bool) (cur : list Key) : Board :=
  mkBoard fn fn2 (length cur) 0 (length cur)
    (cur ++ replicate (6 - length cur) (mkKey 0 0 0))
    (cur ++ replicate (70 - length cur) (mkKey 0 0 0))
    (replicate 6 (mkKey 0 0 0)) (replicate 6 (mkKey 0 0 0))
    (replicate 6 0%Z) 0%Z (mkKey 0 0 0) 0%Z.

(** A [Board] that holds the given keys and codes in its slots. *)
Definition slots_board (kts : list Key) (cts : list Z) : Board :=
  mkBoard false false 0 0 0 (replicate 6 (mkKey 0 0 0))
    (replicate 70 (mkKey 0 0 0)) (replicate 6 (mkKey 0 0 0)) kts cts
    0%Z (mkKey 0 0 0) 0%Z.

(** Keys of the table [KEYS] under [teensy_hid]. *)
Definition key_L : Key := Key_2 (teensy_hid KEY_L) (teensy_hid KEY_UP).
Definition key_A : Key :=
  Key_3 (teensy_hid KEY_A) KEY_DUMMY (teensy_hid KEYPAD_4).
Definition row0 (c : teensy) (s : teensy) : Key :=
  Key_2 (teensy_hid c) (teensy_hid s).
Definition dummy0 : Key := mkKey 0 0 0.

(** Slot 0 holds L. *)
Definition holding_L : Board :=
  slots_board [key_L; dummy0; dummy0; dummy0; dummy0; dummy0]
    [15; 0; 0; 0; 0; 0]%Z.

(** All six slots are taken, by the keys = - 0 9 8 7 of row 0. *)
Definition six_held : Board :=
  slots_board
    [row0 KEY_EQUAL KEY_F12; row0 KEY_MINUS KEY_F11; row0 KEY_0 KEY_F10;
     row0 KEY_9 KEY_F9; row0 KEY_8 KEY_F8; row0 KEY_7 KEY_F7]
    [46; 45; 39; 38; 37; 36]%Z.

(** L alone, L with FN, L with FN2 and Q. *)
Definition holding_reads : list (nat -> nat -> bool) :=
  [switches [(2, 4)]; switches [(2, 4); (4, 1)];
   switches [(2, 4); (4, 2); (1, 12)]].

(** A table with two media keys and a key with three functions, for the
    properties that the table of the firmware does not exercise. *)
Definition media_layout (row col : nat) : Key :=
  match row, col with
  | 0, 3 => Key_1 0xE4B0
  | 2, 1 => Key_2 0xE4CD 0xE4B5
  | 1, 0 => Key_3 4 58 89
  | 4, 1 => Key_1 KEY_FN
  | 4, 2 => Key_1 KEY_FN2
  | _, _ => mkKey 0 0 0
  end.

(** A [Board] whose [all_pressed_keys] has a key (A) after a dummy
    entry. *)
Definition stale_entries : Board :=
  mkBoard false false 0 0 1 (replicate 6 dummy0)
    ([key_L; dummy0; key_A] ++ replicate 67 dummy0)
    (replicate 6 dummy0) (replicate 6 dummy0) (replicate 6 0%Z) 0%Z
    dummy0 0%Z.


Section Firmware.

(** The default constructor [Key()] sets [code] only; [second] and [third]
    keep whatever the memory held.  These two variables are that content. *)
Variables unset_second unset_third : Z.

Definition Key_0 : Key := mkKey KEY_DUMMY unset_second unset_third.

(** The values of the Teensy macros. *)
Variable hid : teensy -> Z.

Definition MODIFIER_MAP : list Z :=
  [ hid MODIFIERKEY_LEFT_SHIFT; hid MODIFIERKEY_CTRL;
    hid MODIFIERKEY_LEFT_ALT; hid MODIFIERKEY_RIGHT_ALT;
    hid MODIFIERKEY_GUI; hid MODIFIERKEY_RIGHT_SHIFT ].

Definition translate_modifier (modifier : Z) : option Z :=
  if (modifier >=? 0)%Z then Some (-1)%Z
  else MODIFIER_MAP !! Z.to_nat (-1 * modifier - 1).

(** *** The layout tables ([keyboard.h]) *)

Definition K1 (c : teensy) : Key := Key_1 (hid c).
Definition K2 (c s : teensy) : Key := Key_2 (hid c) (hid s).
Definition K3d (c t : teensy) : Key := Key_3 (hid c) KEY_DUMMY (hid t).

Definition KEYS_rows : list (list Key) :=
  [ (* row 0 *)
    [ K1 KEY_BACKSPACE; K2 KEY_EQUAL KEY_F12; K2 KEY_MINUS KEY_F11;
      K2 KEY_0 KEY_F10; K2 KEY_9 KEY_F9; K2 KEY_8 KEY_F8; K2 KEY_7 KEY_F7;
      K2 KEY_6 KEY_F6; K2 KEY_5 KEY_F5; K2 KEY_4 KEY_F4; K2 KEY_3 KEY_F3;
      K2 KEY_2 KEY_F2; K2 KEY_1 KEY_F1; K2 KEY_ESC KEY_TILDE ];
    (* row 1 *)
    [ Key_0; K1 KEY_RIGHT_BRACE; K1 KEY_LEFT_BRACE; K1 KEY_P; K1 KEY_O;
      K1 KEY_I; K1 KEY_U; K1 KEY_Y; K1 KEY_T; K1 KEY_R;
      K3d KEY_E KEYPAD_9; K3d KEY_W KEYPAD_8; K3d KEY_Q KEYPAD_7;
      K1 KEY_TAB ];
    (* row 2 *)
    [ K1 KEY_ENTER; K1 KEY_BACKSLASH; K1 KEY_QUOTE; K1 KEY_SEMICOLON;
      K2 KEY_L KEY_UP; K1 KEY_K; K1 KEY_J; K1 KEY_H; K1 KEY_G; K1 KEY_F;
      K3d KEY_D KEYPAD_6; K3d KEY_S KEYPAD_5; K3d KEY_A KEYPAD_4;
      K1 KEY_CAPS_LOCK ];
    (* row 3 *)
    [ Key_1 KEY_RSHIFT; Key_0; K2 KEY_SLASH KEY_RIGHT;
      K2 KEY_PERIOD KEY_DOWN; K2 KEY_COMMA KEY_LEFT; K1 KEY_M; K1 KEY_N;
      K1 KEY_B; K1 KEY_V; K3d KEY_C KEYPAD_3; K3d KEY_X KEYPAD_2;
      K3d KEY_Z KEYPAD_1; K3d KEY_NON_US_BS KEYPAD_0; Key_1 KEY_LSHIFT ];
    (* row 4 *)
    [ Key_1 KEY_CTRL; Key_1 KEY_FN; Key_1 KEY_FN2; Key_1 KEY_ALTGR;
      Key_0; Key_0; Key_0; K1 KEY_SPACE; Key_0; Key_0; Key_0;
      Key_1 KEY_ALT; Key_1 KEY_SUPER; Key_1 KEY_CTRL ] ].

Definition KEYS_SPECIAL_rows : list (list Key) :=
  [ (* row 0 *)
    [ K1 KEY_BACKSPACE; K2 KEY_F12 KEY_EQUAL; K2 KEY_F11 KEY_MINUS;
      K2 KEY_F10 KEY_0; K2 KEY_F9 KEY_9; K2 KEY_F8 KEY_8; K2 KEY_F7 KEY_7;
      K2 KEY_F6 KEY_6; K2 KEY_F5 KEY_5; K2 KEY_F4 KEY_4; K2 KEY_F3 KEY_3;
      K2 KEY_F2 KEY_2; K2 KEY_F1 KEY_1; K2 KEY_ESC KEY_TILDE ];
    (* row 1 *)
    [ Key_0; K1 KEY_RIGHT_BRACE; K1 KEY_LEFT_BRACE; K1 KEY_P; K1 KEY_O;
      K1 KEY_I; K1 KEY_U; K1 KEY_Y; K1 KEY_T; K1 KEY_R;
      K3d KEY_E KEYPAD_9; K3d KEY_W KEYPAD_8; K3d KEY_Q KEYPAD_7;
      K1 KEY_TAB ];
    (* row 2 *)
    [ K1 KEY_ENTER; K1 KEY_BACKSLASH; K1 KEY_QUOTE; K1 KEY_SEMICOLON;
      K2 KEY_L KEY_UP; K1 KEY_K; K1 KEY_J; K1 KEY_H; K1 KEY_G; K1 KEY_F;
      K3d KEY_D KEYPAD_6; K3d KEY_S KEYPAD_5; K3d KEY_A KEYPAD_4;
      K1 KEY_CAPS_LOCK ];
    (* row 3 *)
    [ Key_1 KEY_RSHIFT; Key_0; K2 KEY_SLASH KEY_RIGHT;
      K2 KEY_PERIOD KEY_DOWN; K2 KEY_COMMA KEY_LEFT; K1 KEY_M; K1 KEY_N;
      K1 KEY_B; K1 KEY_V; K3d KEY_C KEYPAD_3; K3d KEY_X KEYPAD_2;
      K3d KEY_Z KEYPAD_1; K3d KEY_NON_US_BS KEYPAD_0; Key_1 KEY_LSHIFT ];
    (* row 4 *)
    [ Key_1 KEY_CTRL; Key_1 KEY_FN; Key_1 KEY_FN2; Key_1 KEY_ALTGR;
      Key_0; Key_0; Key_0; K1 KEY_SPACE; Key_0; Key_0; Key_0;
      Key_1 KEY_ALT; Key_1 KEY_SUPER; Key_1 KEY_CTRL ] ].

(** [table[row][col]] of a constant table; the loops of the firmware keep
    [row] below [NUM_ROWS] and [col] below [NUM_COLS]. *)
Definition at_table (rows : list (list Key)) (row col : nat) : Key :=
  nth col (nth row rows []) Key_0.

Definition KEYS : nat -> nat -> Key := at_table KEYS_rows.
Definition KEYS_SPECIAL : nat -> nat -> Key := at_table KEYS_SPECIAL_rows.

(** *** [Board::init] (lines 68-101).  The pin set-up is hardware only.
    The argument is the object before [init], of which nothing is known
    but the sizes of its arrays. *)

Definition init_buffers (i : nat) (b : Board) : option Board :=
  cur ← store (curr_pressed_keys b) i Key_0;
  kts ← store (keys_to_send b) i Key_0;
  cts ← store (codes_to_send b) i 0%Z;
  Some (set_codes_to_send cts (set_keys_to_send kts
          (set_curr_pressed_keys cur b))).

Definition init_all_pressed (i : nat) (b : Board) : option Board :=
  all ← store (all_pressed_keys b) i Key_0;
  Some (set_all_pressed_keys all b).

Definition init (b : Board) : option Board :=
  let b := set_fn_pressed false b in
  let b := set_fn2_pressed false b in
  let b := set_num_keys_pressed 0 b in
  let b := set_tot_num_keys_pressed 0 b in
  let b := set_current_media 0%Z b in
  b ← for_upto MAX_NUM_KEYS init_buffers b;
  for_upto (NUM_ROWS * NUM_COLS) init_all_pressed b.

(** *** [Board::reset_pressed_keys] (lines 103-113) *)

Definition reset_buffers (i : nat) (b : Board) : option Board :=
  cur ← store (curr_pressed_keys b) i Key_0;
  rel ← store (just_released_keys b) i Key_0;
  Some (set_just_released_keys rel (set_curr_pressed_keys cur b)).

(** The second loop stops ([break]) at the first dummy entry. *)
Fixpoint reset_all_pressed (idx : list nat) (all : list Key)
    : option (list Key) :=
  match idx with
  | [] => Some all
  | i :: idx' =>
      k ← all !! i;
      if is_dummy k then Some all
      else all' ← store all i Key_0; reset_all_pressed idx' all'
  end.

Definition reset_pressed_keys (b : Board) : option Board :=
  b ← for_upto MAX_NUM_KEYS reset_buffers b;
  all ← reset_all_pressed (seq 0 (NUM_ROWS * NUM_COLS)) (all_pressed_keys b);
  Some (set_all_pressed_keys all b).

(** *** [Board::scan_keys] (lines 147-193) *)

Section Scan.

(** The table that is scanned and the state of the switches.  The source
    reads [KEYS]; [keyboard.h] has a second table and a pointer [keymap]
    meant to select one, so the loops are written over any table. *)
Variable layout : nat -> nat -> Key.
Variable read : nat -> nat -> bool.

(** What the inner loop does with a key found pressed: it is recorded in
    [all_pressed_keys] and classified. *)
Definition scan_pressed (pressed : Key) (b : Board) : option Board :=
  all ← store (all_pressed_keys b) (tot_num_keys_pressed b) pressed;
  let b := set_all_pressed_keys all b in
  let b := set_tot_num_keys_pressed (u8 (tot_num_keys_pressed b + 1)) b in
  if is_fn pressed then Some (set_fn_pressed true b)
  else if is_fn2 pressed then Some (set_fn2_pressed true b)
  else if is_modifier pressed then
    m ← translate_modifier (code pressed);
    Some (set_current_modifier (Z.lor (current_modifier b) m) b)
  else if is_media pressed then Some (set_pressed_media pressed b)
  else
    cur ← (if decide (num_keys_pressed b < MAX_NUM_KEYS)
           then store (curr_pressed_keys b) (num_keys_pressed b) pressed
           else Some (curr_pressed_keys b));
    Some (set_num_keys_pressed (u8 (num_keys_pressed b + 1))
            (set_curr_pressed_keys cur b)).

(** The body of the inner loop, for one position of the matrix. *)
Definition scan_position (row col : nat) (b : Board) : option Board :=
  if negb (is_dummy (layout row col)) then
    if read row col then scan_pressed (layout row col) b else Some b
  else Some b.

Definition scan_row (row : nat) (b : Board) : option Board :=
  for_upto NUM_COLS (scan_position row) b.

Definition scan_layout (b : Board) : option Board :=
  for_upto NUM_ROWS scan_row b.

End Scan.

(** [scan_keys] reads the table [KEYS]. *)
Definition scan_keys (read : nat -> nat -> bool) (b : Board) : option Board :=
  scan_layout KEYS read b.

(** *** [Board::remove_released_keys] (lines 195-221) *)

(** The inner loop: is [k] among [curr_pressed_keys]?  It stops at the
    first match. *)
Fixpoint search_pressed (cur : list Key) (k : Key) (idx : list nat)
    : option bool :=
  match idx with
  | [] => Some false
  | j :: idx' =>
      c ← cur !! j;
      if key_eq k c then Some true else search_pressed cur k idx'
  end.

Definition release_slot (i : nat) (b : Board) : option Board :=
  k ← keys_to_send b !! i;
  if negb (is_dummy k) then
    found ← search_pressed (curr_pressed_keys b) k (seq 0 MAX_NUM_KEYS);
    if negb found then
      sent ← keys_to_send b !! i;
      rel ← store (just_released_keys b) (num_keys_released b) sent;
      kts ← store (keys_to_send b) i Key_0;
      cts ← store (codes_to_send b) i KEY_DUMMY;
      Some (set_num_keys_released (u8 (num_keys_released b + 1))
              (set_codes_to_send cts (set_keys_to_send kts
                 (set_just_released_keys rel b))))
    else Some b
  else Some b.

Definition remove_released_keys (b : Board) : option Board :=
  for_upto MAX_NUM_KEYS release_slot b.

(** *** [Board::try_place_key] (lines 243-279) *)

(** The search loop.  Its state is [(lowest_free_index, found_lowest_index)];
    the result [Some None] is the [return false] from inside the loop. *)
Fixpoint find_slot (kts : list Key) (k : Key) (idx : list nat)
    (st : nat * bool) : option (option (nat * bool)) :=
  match idx with
  | [] => Some (Some st)
  | i :: idx' =>
      s ← kts !! i;
      if is_dummy s && negb (snd st) then find_slot kts k idx' (i, true)
      else if key_eq s k then Some None
      else find_slot kts k idx' st
  end.

Definition try_place_key (k : Key) (b : Board) : option (Board * bool) :=
  r ← find_slot (keys_to_send b) k (seq 0 MAX_NUM_KEYS) (0, false);
  match r with
  | None => Some (b, false)
  | Some (lowest_free_index, found_lowest_index) =>
      if negb found_lowest_index then Some (b, false)
      else
        let code := to_uint8 (layer_code (fn_pressed b) (fn2_pressed b) k) in
        kts ← store (keys_to_send b) lowest_free_index k;
        cts ← store (codes_to_send b) lowest_free_index code;
        Some (set_codes_to_send cts (set_keys_to_send kts b), true)
  end.

(** *** [Board::update_keys_to_send] (lines 223-241) *)

Definition place_pressed (i : nat) (b : Board) : option Board :=
  k ← curr_pressed_keys b !! i;
  if negb (is_dummy k) then fst <$> try_place_key k b else Some b.

Definition update_keys_to_send (b : Board) : option Board :=
  b ← remove_released_keys b;
  b ← for_upto MAX_NUM_KEYS place_pressed b;
  Some (set_current_media (media_code (fn_pressed b) (pressed_media b)) b).

(** *** [Board::send_keys] (lines 281-296) *)

Definition send_keys (b : Board) : option Report :=
  k1 ← codes_to_send b !! 0;
  k2 ← codes_to_send b !! 1;
  k3 ← codes_to_send b !! 2;
  k4 ← codes_to_send b !! 3;
  k5 ← codes_to_send b !! 4;
  k6 ← codes_to_send b !! 5;
  Some (mkReport [k1; k2; k3; k4; k5; k6] (current_modifier b)
          (current_media b)).

(** *** [Board::update] (lines 131-145): one cycle *)

(** The part of [update] before the scan. *)
Definition begin_cycle (b : Board) : option Board :=
  b ← reset_pressed_keys b;
  let b := set_num_keys_pressed 0 b in
  let b := set_num_keys_released 0 b in
  let b := set_tot_num_keys_pressed 0 b in
  let b := set_current_modifier 0%Z b in
  let b := set_pressed_media Key_0 b in
  let b := set_fn_pressed false b in
  let b := set_fn2_pressed false b in
  Some b.

Definition update (read : nat -> nat -> bool) (b : Board)
    : option (Board * Report) :=
  b ← begin_cycle b;
  b ← scan_keys read b;
  b ← update_keys_to_send b;
  r ← send_keys b;
  Some (b, r).

(** ** Well-formed states and the specification of the loops *)

(** The arrays of a [Board] have their declared sizes. *)
Record wf (b : Board) : Prop := mkWf {
  wf_curr : length (curr_pressed_keys b) = MAX_NUM_KEYS;
  wf_all : length (all_pressed_keys b) = NUM_ROWS * NUM_COLS;
  wf_released : length (just_released_keys b) = MAX_NUM_KEYS;
  wf_keys : length (keys_to_send b) = MAX_NUM_KEYS;
  wf_codes : length (codes_to_send b) = MAX_NUM_KEYS
}.

(** [k] is found in the buffer [cur] by [operator==]. *)
Definition pressed_in (cur : list Key) (k : Key) : bool :=
  existsb (key_eq k) cur.

(** The key of a slot counts as released: the slot is occupied and its key
    is not among the pressed ones. *)
Definition released (cur : list Key) (k : Key) : bool :=
  negb (is_dummy k) && negb (pressed_in cur k).

(** What [operator==] compares: two keys are equal when these agree. *)
Definition kid (k : Key) : Z * Z := (code k, second k).

(** What phase 1 leaves in a slot and in its code. *)
Definition release_key (cur : list Key) (k : Key) : Key :=
  if released cur k then Key_0 else k.
Definition release_code (cur : list Key) (k : Key) (c : Z) : Z :=
  if released cur k then KEY_DUMMY else c.

(** The keys that phase 1 reports, in slot order. *)
Definition released_keys (cur kts : list Key) : list Key :=
  filter (fun k => released cur k = true) kts.

(** No key occupies two slots. *)
Definition no_duplicate (b : Board) : Prop :=
  forall i j a c,
    keys_to_send b !! i = Some a -> keys_to_send b !! j = Some c ->
    is_dummy a = false -> key_eq a c = true -> i = j.

(** A slot is empty exactly when its code is the neutral one. *)
Definition codes_agree (b : Board) : Prop :=
  forall i k c,
    keys_to_send b !! i = Some k -> codes_to_send b !! i = Some c ->
    (is_dummy k = true <-> c = KEY_DUMMY).

(** The release buffer as [update] leaves it before the scan. *)
Definition fresh_release (b : Board) : Prop :=
  num_keys_released b = 0 /\
  Forall (fun k => is_dummy k = true) (just_released_keys b).

(** The state after the first [i] iterations of [remove_released_keys],
    started with an empty release buffer. *)
Definition release_upto (i : nat) (b : Board) : Board :=
  let cur := curr_pressed_keys b in
  let kts := keys_to_send b in
  let cts := codes_to_send b in
  let rel := released_keys cur (take i kts) in
  set_num_keys_released (length rel)
    (set_codes_to_send
       (zip_with (release_code cur) (take i kts) (take i cts) ++ drop i cts)
       (set_keys_to_send ((release_key cur <$> take i kts) ++ drop i kts)
          (set_just_released_keys
             (rel ++ drop (length rel) (just_released_keys b)) b))).

(** Every occupied slot holds a key that is among the pressed ones. *)
Definition slots_pressed (b : Board) : Prop :=
  forall i s,
    keys_to_send b !! i = Some s -> is_dummy s = false ->
    pressed_in (curr_pressed_keys b) s = true.

(** The search loop of [try_place_key], run over the slots themselves
    instead of their indices; [i] is the index of the head of [l]. *)
Fixpoint find_slot_list (k : Key) (l : list Key) (i : nat) (st : nat * bool)
    : option (nat * bool) :=
  match l with
  | [] => Some st
  | s :: l' =>
      if is_dummy s && negb (snd st) then find_slot_list k l' (S i) (i, true)
      else if key_eq s k then None
      else find_slot_list k l' (S i) st
  end.

(** The state after [try_place_key] has put [k] into slot [l]. *)
Definition place_at (l : nat) (k : Key) (b : Board) : Board :=
  set_codes_to_send
    (<[l := to_uint8 (layer_code (fn_pressed b) (fn2_pressed b) k)]>
       (codes_to_send b))
    (set_keys_to_send (<[l := k]> (keys_to_send b)) b).

(** [t] differs from [b] in the slots and their codes at most. *)
Definition same_but_slots (b t : Board) : Prop :=
  set_codes_to_send (codes_to_send b)
    (set_keys_to_send (keys_to_send b) t) = b.

(** The invariant of the placement loop of [update_keys_to_send], started
    in [b1], after [n] iterations. *)
Record placing (b1 : Board) (n : nat) (t : Board) : Prop := mkPlacing {
  pl_wf : wf t;
  pl_same : same_but_slots b1 t;
  pl_nodup : no_duplicate t;
  pl_pressed : slots_pressed t;
  pl_kept : forall i s,
    keys_to_send b1 !! i = Some s -> is_dummy s = false ->
    keys_to_send t !! i = Some s /\
    codes_to_send t !! i = codes_to_send b1 !! i;
  pl_placed : forall j k,
    j < n -> curr_pressed_keys b1 !! j = Some k -> is_dummy k = false ->
    exists i s, keys_to_send t !! i = Some s /\ key_eq s k = true;
  pl_origin : forall i s,
    keys_to_send t !! i = Some s ->
    (keys_to_send b1 !! i = Some s /\
     codes_to_send t !! i = codes_to_send b1 !! i) \/
    (exists s0, keys_to_send b1 !! i = Some s0 /\ is_dummy s0 = true /\
       s ∈ curr_pressed_keys b1 /\ is_dummy s = false /\
       codes_to_send t !! i =
       Some (to_uint8 (layer_code (fn_pressed b1) (fn2_pressed b1) s)))
}.

(** *** The scan, as a list of pressed keys *)

(** The branch of the classification that a pressed key takes. *)
Definition reaches_modifier (k : Key) : bool :=
  negb (is_fn k) && negb (is_fn2 k) && is_modifier k.
Definition reaches_media (k : Key) : bool :=
  negb (is_fn k) && negb (is_fn2 k) && negb (is_modifier k) && is_media k.
Definition is_ordinary (k : Key) : bool :=
  negb (is_fn k) && negb (is_fn2 k) && negb (is_modifier k)
  && negb (is_media k).

(** Every key of the table that takes the modifier branch has one of the
    six modifier codes. *)
Definition modifiers_ok (layout : nat -> nat -> Key) : Prop :=
  forall row col, row < NUM_ROWS -> col < NUM_COLS ->
    reaches_modifier (layout row col) = true ->
    (-6 <= code (layout row col) <= -1)%Z.

(** [buf[n] = k] for the keys [ks] in turn, [n] counting up, as long as
    [n < MAX_NUM_KEYS]: how the scan fills [curr_pressed_keys]. *)
Fixpoint fill (n : nat) (ks : list Key) (buf : list Key) : list Key :=
  match ks with
  | [] => buf
  | k :: ks' =>
      fill (S n) ks'
        (if decide (n < MAX_NUM_KEYS) then <[n := k]> buf else buf)
  end.

Section ScanSpec.

Variable layout : nat -> nat -> Key.
Variable read : nat -> nat -> bool.

(** The switch at this position is closed and the table has a key there. *)
Definition closed (row col : nat) : bool :=
  negb (is_dummy (layout row col)) && read row col.

(** The keys found pressed, in the order of the scan: row by row, and by
    column within a row. *)
Definition row_keys (row : nat) : list Key :=
  layout row <$> filter (fun col => closed row col = true) (seq 0 NUM_COLS).
Definition pressed_keys : list Key :=
  flat_map row_keys (seq 0 NUM_ROWS).

(** The ordinary keys among them, and the first [MAX_NUM_KEYS] of those. *)
Definition ordinary_seen : list Key :=
  filter (fun k => is_ordinary k = true) pressed_keys.
Definition ordinary_pressed : list Key := take MAX_NUM_KEYS ordinary_seen.

(** A media key is pressed at this position. *)
Definition media_at (row col : nat) : bool :=
  closed row col && reaches_media (layout row col).

(** Position [p] comes before position [q] in the scan. *)
Definition before (p q : nat * nat) : Prop :=
  fst p < fst q \/ (fst p = fst q /\ snd p < snd q).

(** [m] is what [pressed_media] holds when the scan arrives at position
    [(row, col)], having started with [m0]: the key of the last media
    position before it, or [m0] when there is none. *)
Definition media_before (m0 : Key) (row col : nat) (m : Key) : Prop :=
  (m = m0 /\
   forall r c, c < NUM_COLS -> before (r, c) (row, col) ->
               media_at r c = false) \/
  (exists r c, c < NUM_COLS /\ before (r, c) (row, col) /\
     media_at r c = true /\ m = layout r c /\
     forall r' c', c' < NUM_COLS -> before (r', c') (row, col) ->
                   media_at r' c' = true -> ~ before (r, c) (r', c')).

End ScanSpec.

(** The state after [update] has reset the buffers and scanned [KEYS]. *)
Definition scanned (read : nat -> nat -> bool) (b : Board) : option Board :=
  b ← begin_cycle b; scan_keys read b.

(** A run of cycles, one per state of the switches. *)
Fixpoint run (reads : list (nat -> nat -> bool)) (b : Board) : option Board :=
  match reads with
  | [] => Some b
  | read :: reads' => r ← update read b; run reads' (fst r)
  end.

(** What the scan leaves alone. *)
Record scan_keeps (b b' : Board) : Prop := mkScanKeeps {
  sk_wf : wf b';
  sk_keys : keys_to_send b' = keys_to_send b;
  sk_codes : codes_to_send b' = codes_to_send b;
  sk_released : just_released_keys b' = just_released_keys b;
  sk_num_released : num_keys_released b' = num_keys_released b;
  sk_media : current_media b' = current_media b
}.

(** The state in which [update] starts its scan: the per-cycle buffers and
    counters are reset, the slots and their codes are those of [b]. *)
Record cycle_start (b b0 : Board) : Prop := mkCycleStart {
  cs_wf : wf b0;
  cs_keys : keys_to_send b0 = keys_to_send b;
  cs_codes : codes_to_send b0 = codes_to_send b;
  cs_media : current_media b0 = current_media b;
  cs_curr : curr_pressed_keys b0 = replicate MAX_NUM_KEYS Key_0;
  cs_released : just_released_keys b0 = replicate MAX_NUM_KEYS Key_0;
  cs_num_pressed : num_keys_pressed b0 = 0;
  cs_num_released : num_keys_released b0 = 0;
  cs_tot : tot_num_keys_pressed b0 = 0;
  cs_pressed_media : pressed_media b0 = Key_0
}.

(** *** Assumptions on the Teensy macros, and the shape of the tables *)

(** The macros are non-negative [int]s ... *)
Definition hid_nonneg : Prop := forall t, (0 <= hid t)%Z.
(** ... whose low byte, the USB usage code, is not zero. *)
Definition hid_low_byte : Prop := forall t, (hid t mod 256 <> 0)%Z.

(** The entries of the layout tables. *)
Inductive table_entry : Key -> Prop :=
  | te_dummy : table_entry Key_0
  | te_local (c : Z) : (-8 <= c <= -1)%Z -> table_entry (Key_1 c)
  | te_K1 (c : teensy) : table_entry (K1 c)
  | te_K2 (c s : teensy) : table_entry (K2 c s)
  | te_K3d (c t : teensy) : table_entry (K3d c t).

(** The code of a placed key is not the neutral one, whatever the layer. *)
Definition code_visible (k : Key) : Prop :=
  forall fn fn2, to_uint8 (layer_code fn fn2 k) <> KEY_DUMMY.

(** What the scan of [read] makes of a state [b] at the start of a
    cycle. *)
Record scan_frame (layout : nat -> nat -> Key) (read : nat -> nat -> bool)
    (b fr : Board) : Prop := mkScanFrame {
  sf_keeps : scan_keeps b fr;
  sf_num_pressed :
    num_keys_pressed fr = length (ordinary_seen layout read);
  sf_curr :
    curr_pressed_keys fr =
    fill 0 (ordinary_seen layout read) (curr_pressed_keys b);
  sf_pressed_media :
    media_before layout read (pressed_media b) NUM_ROWS 0 (pressed_media fr)
}.

(** The check that no occupied key occurs twice in a list of slots. *)
Fixpoint distinct_keys (l : list Key) : bool :=
  match l with
  | [] => true
  | a :: l' => (is_dummy a || negb (existsb (key_eq a) l')) && distinct_keys l'
  end.

(** [k] is held during a cycle: the scan finds it among the ordinary keys
    that fit into [curr_pressed_keys]. *)
Definition held (k : Key) (read : nat -> nat -> bool) : Prop :=
  pressed_in (ordinary_pressed KEYS read) k = true.

(** ** The rest of the firmware: getters and further specifications *)

(** *** The getters (lines 114-128).  The two array getters return the
    address of a member; what the caller reads through it is the content
    of that array.  [get_curr_pressed_keys] gives [all_pressed_keys] and
    [get_num_keys_pressed] gives [tot_num_keys_pressed]. *)
Definition get_curr_pressed_keys (b : Board) : list Key := all_pressed_keys b.
Definition get_just_released_keys (b : Board) : list Key :=
  just_released_keys b.
Definition get_num_keys_pressed (b : Board) : nat := tot_num_keys_pressed b.
Definition get_num_released_keys (b : Board) : nat := num_keys_released b.

(** The second loop of [reset_pressed_keys] on the entries themselves: the
    entries before the first dummy are overwritten, the rest is kept. *)
Fixpoint reset_list (l : list Key) : list Key :=
  match l with
  | [] => []
  | k :: l' => if is_dummy k then k :: l' else Key_0 :: reset_list l'
  end.

(** The members that only the scan and the start of a cycle write. *)
Definition scan_part (b : Board)
    : bool * bool * nat * nat * list Key * list Key * Z * Key :=
  (fn_pressed b, fn2_pressed b, num_keys_pressed b, tot_num_keys_pressed b,
   curr_pressed_keys b, all_pressed_keys b, current_modifier b,
   pressed_media b).

(** What one pressed key does to the modifier mask and to
    [pressed_media]. *)
Definition add_modifier (m : Z) (k : Key) : Z :=
  if reaches_modifier k
  then Z.lor m (default 0%Z (translate_modifier (code k)))
  else m.
Definition last_media (m k : Key) : Key := if reaches_media k then k else m.

(** Every entry after a dummy entry is a dummy: the keys of the buffer
    come first. *)
Definition packed (l : list Key) : Prop :=
  forall i j a c, i <= j -> l !! i = Some a -> l !! j = Some c ->
                  is_dummy a = true -> is_dummy c = true.

(** Every code in the slots is a byte. *)
Definition codes_byte (b : Board) : Prop :=
  Forall (fun c => (0 <= c < 256)%Z) (codes_to_send b).

(** The occupied slots hold ordinary keys only. *)
Definition slots_ordinary (b : Board) : Prop :=
  forall i s, keys_to_send b !! i = Some s -> is_dummy s = false ->
              is_ordinary s = true.

(** The two states of the switches agree wherever the table has a key. *)
Definition same_switches (layout : nat -> nat -> Key)
    (read1 read2 : nat -> nat -> bool) : Prop :=
  forall row col, row < NUM_ROWS -> col < NUM_COLS ->
    is_dummy (layout row col) = false -> read1 row col = read2 row col.


(** The placement loop on empty slots: after [n] iterations the first [n]
    keys of [P] are in the slots of their indices, the other slots are as
    they were in [b1]. *)
Definition in_order (b1 : Board) (P : list Key) (n : nat) (t : Board)
    : Prop :=
  wf t /\ same_but_slots b1 t /\
  forall i,
    (i < n -> forall k, P !! i = Some k ->
       keys_to_send t !! i = Some k /\
       codes_to_send t !! i =
         Some (to_uint8 (layer_code (fn_pressed b1) (fn2_pressed b1) k))) /\
    (n <= i \/ P !! i = None ->
       keys_to_send t !! i = keys_to_send b1 !! i /\
       codes_to_send t !! i = codes_to_send b1 !! i).

(** No Teensy macro is a media code (none has the high byte [0xE4]). *)
Definition hid_no_media : Prop :=
  forall t, Z.land 0xFF00 (hid t) <> 0xE400%Z.


(** ** Generic facts: stores and loops *)

Lemma store_Some {A : Type} (a a' : list A) (i : nat) (v : A) :
  store a i v = Some a' -> i < length a /\ a' = <[i:=v]> a.
Proof.
  unfold store. case_decide; [|discriminate].
  intros [= <-]. split; [assumption | reflexivity].
Qed.

Lemma store_lt {A : Type} (a : list A) (i : nat) (v : A) :
  i < length a -> store a i v = Some (<[i:=v]> a).
Proof. intros Hi. unfold store. case_decide; [reflexivity | lia]. Qed.

Lemma for_each_app {A St : Type} (body : A -> St -> option St)
    (l1 l2 : list A) (s : St) :
  for_each body (l1 ++ l2) s = s' ← for_each body l1 s; for_each body l2 s'.
Proof.
  revert s. induction l1 as [|i l1 IH]; intros s; simpl; [reflexivity|].
  destruct (body i s) as [s1|]; simpl; [apply IH | reflexivity].
Qed.

Lemma for_upto_S {St : Type} (body : nat -> St -> option St) (n : nat)
    (s : St) :
  for_upto (S n) body s = s' ← for_upto n body s; body n s'.
Proof.
  unfold for_upto. rewrite seq_S, for_each_app. simpl.
  destruct (for_each body (seq 0 n) s) as [s1|]; simpl; [|reflexivity].
  destruct (body n s1); reflexivity.
Qed.

(** The loop rule: an invariant indexed by the number of iterations done,
    which every iteration can take one step further, holds at the end, and
    the loop does not fail. *)
Lemma for_upto_ind {St : Type} (Q : nat -> St -> Prop)
    (body : nat -> St -> option St) (n : nat) (s : St) :
  Q 0 s ->
  (forall i t, i < n -> Q i t -> exists t', body i t = Some t' /\ Q (S i) t') ->
  exists s', for_upto n body s = Some s' /\ Q n s'.
Proof.
  intros H0 Hstep. induction n as [|n IH].
  - exists s. split; [reflexivity | assumption].
  - destruct IH as (s1 & Hs1 & HQ).
    { intros i t Hi. apply Hstep. lia. }
    destruct (Hstep n s1) as (s2 & Hs2 & HQ2); [lia | assumption |].
    exists s2. rewrite for_upto_S, Hs1. simpl. split; assumption.
Qed.

Lemma for_upto_inv {St : Type} (Q : nat -> St -> Prop)
    (body : nat -> St -> option St) (n : nat) (s s' : St) :
  Q 0 s ->
  (forall i t t', i < n -> Q i t -> body i t = Some t' -> Q (S i) t') ->
  for_upto n body s = Some s' -> Q n s'.
Proof.
  intros H0 Hstep. revert s'. induction n as [|n IH]; intros s'.
  - intros [= <-]. assumption.
  - rewrite for_upto_S.
    destruct (for_upto n body s) as [s1|] eqn:Hs1; simpl; [|discriminate].
    intros Hb. apply (Hstep n s1); [lia | | assumption].
    apply IH; [|reflexivity]. intros i t t' Hi. apply Hstep. lia.
Qed.

(** ** [Key]: equality *)

Lemma key_eq_spec (a c : Key) :
  key_eq a c = true <-> code a = code c /\ second a = second c.
Proof.
  unfold key_eq. rewrite andb_true_iff, !Z.eqb_eq. reflexivity.
Qed.

Lemma key_eq_kid (a c : Key) : key_eq a c = true <-> kid a = kid c.
Proof.
  rewrite key_eq_spec. unfold kid. split.
  - intros [-> ->]. reflexivity.
  - intros [= -> ->]. split; reflexivity.
Qed.

Lemma key_eq_refl (a : Key) : key_eq a a = true.
Proof. apply key_eq_kid. reflexivity. Qed.

Lemma key_eq_sym (a c : Key) : key_eq a c = key_eq c a.
Proof.
  unfold key_eq. rewrite (Z.eqb_sym (code a)), (Z.eqb_sym (second a)).
  reflexivity.
Qed.

Lemma key_eq_trans (a c d : Key) :
  key_eq a c = true -> key_eq c d = true -> key_eq a d = true.
Proof. rewrite !key_eq_kid. congruence. Qed.

Lemma key_eq_dummy (a c : Key) :
  key_eq a c = true -> is_dummy a = is_dummy c.
Proof.
  rewrite key_eq_spec. intros [Hc _]. unfold is_dummy. rewrite Hc.
  reflexivity.
Qed.

Lemma Key_0_dummy : is_dummy Key_0 = true.
Proof. reflexivity. Qed.

Lemma pressed_in_spec (cur : list Key) (k : Key) :
  pressed_in cur k = true <-> exists c, c ∈ cur /\ key_eq k c = true.
Proof.
  unfold pressed_in. rewrite existsb_exists. split.
  - intros (c & Hin & He). exists c. rewrite list_elem_of_In. auto.
  - intros (c & Hin & He). exists c. rewrite <- list_elem_of_In. auto.
Qed.

Lemma pressed_in_false (cur : list Key) (k c : Key) :
  pressed_in cur k = false -> c ∈ cur -> key_eq k c = false.
Proof.
  intros Hp Hin. destruct (key_eq k c) eqn:He; [|reflexivity].
  assert (pressed_in cur k = true) by (apply pressed_in_spec; eauto).
  congruence.
Qed.


(** ** Phase 1: [remove_released_keys] *)

Lemma search_pressed_spec (cur : list Key) (k : Key) (n i : nat) :
  i + n = length cur ->
  search_pressed cur k (seq i n) = Some (pressed_in (drop i cur) k).
Proof.
  revert i. induction n as [|n IH]; intros i Hlen; simpl.
  - rewrite drop_ge by lia. reflexivity.
  - destruct (lookup_lt_is_Some_2 cur i) as [c Hc]; [lia|].
    rewrite Hc. simpl. rewrite (drop_S _ _ _ Hc). unfold pressed_in. simpl.
    destruct (key_eq k c); simpl; [reflexivity|].
    apply IH. lia.
Qed.

Lemma insert_middle {A : Type} (l1 l2 : list A) (x y : A) (i : nat) :
  length l1 = i -> <[i:=y]> (l1 ++ x :: l2) = l1 ++ y :: l2.
Proof.
  intros <-. induction l1 as [|a l1 IH]; simpl; [reflexivity|].
  f_equal. exact IH.
Qed.

Lemma lookup_middle {A : Type} (l1 l2 : list A) (x : A) (i : nat) :
  length l1 = i -> (l1 ++ x :: l2) !! i = Some x.
Proof.
  intros <-. induction l1 as [|a l1 IH]; simpl; [reflexivity | exact IH].
Qed.

Lemma released_keys_snoc (cur l : list Key) (k : Key) :
  released_keys cur (l ++ [k]) =
  released_keys cur l ++ (if released cur k then [k] else []).
Proof.
  unfold released_keys. rewrite filter_app. f_equal.
  destruct (released cur k) eqn:Hr.
  - rewrite filter_cons_True by assumption. reflexivity.
  - rewrite filter_cons_False by congruence. reflexivity.
Qed.

Lemma released_keys_length (cur l : list Key) :
  length (released_keys cur l) <= length l.
Proof. apply length_filter. Qed.

Lemma release_upto_0 (b : Board) :
  num_keys_released b = 0 -> release_upto 0 b = b.
Proof.
  intros Hn. destruct b. simpl in Hn. subst. reflexivity.
Qed.

(** Arithmetic that depends on the values of the size constants. *)
Ltac bounds :=
  unfold MAX_NUM_KEYS, NUM_ROWS, NUM_COLS, NUM_MODIFIERS in *; lia.

(** Goals about the lengths of lists built from [take], [drop], [++]. *)
Ltac list_len :=
  repeat (rewrite ?length_app, ?length_fmap, ?length_zip_with,
            ?length_take, ?length_drop, ?length_insert, ?length_replicate;
          simpl length);
  unfold MAX_NUM_KEYS, NUM_ROWS, NUM_COLS in *; simpl; lia.

Lemma u8_small (n : nat) : n < 256 -> u8 n = n.
Proof. intros Hn. unfold u8. apply Nat.mod_small. exact Hn. Qed.

Lemma bind_Some_l {A B : Type} (x : A) (f : A -> option B) :
  (Some x ≫= f) = f x.
Proof. reflexivity. Qed.

(** One iteration, with the inner loop replaced by what it computes. *)
Lemma release_slot_eq (b : Board) (i : nat) (k : Key) :
  length (curr_pressed_keys b) = MAX_NUM_KEYS ->
  keys_to_send b !! i = Some k ->
  release_slot i b =
  if released (curr_pressed_keys b) k then
    rel ← store (just_released_keys b) (num_keys_released b) k;
    kts ← store (keys_to_send b) i Key_0;
    cts ← store (codes_to_send b) i KEY_DUMMY;
    Some (set_num_keys_released (u8 (num_keys_released b + 1))
            (set_codes_to_send cts (set_keys_to_send kts
               (set_just_released_keys rel b))))
  else Some b.
Proof.
  intros Hlen Hk. unfold release_slot, released.
  rewrite Hk, bind_Some_l.
  destruct (is_dummy k); [reflexivity|].
  rewrite search_pressed_spec by (rewrite Hlen; reflexivity).
  rewrite bind_Some_l, drop_0.
  destruct (pressed_in (curr_pressed_keys b) k); reflexivity.
Qed.

Lemma release_slot_step (b : Board) (i : nat) :
  wf b -> i < MAX_NUM_KEYS ->
  release_slot i (release_upto i b) = Some (release_upto (S i) b).
Proof.
  intros [Hcur _ Hrel Hkts Hcts] Hi.
  destruct (lookup_lt_is_Some_2 (keys_to_send b) i) as [k Hk]; [lia|].
  destruct (lookup_lt_is_Some_2 (codes_to_send b) i) as [c Hc]; [lia|].
  pose proof (released_keys_length (curr_pressed_keys b)
                (take i (keys_to_send b))) as Hle.
  rewrite length_take_le in Hle by lia.
  destruct (lookup_lt_is_Some_2 (just_released_keys b)
              (length (released_keys (curr_pressed_keys b)
                         (take i (keys_to_send b)))))
    as [x Hx]; [lia|].
  unfold release_upto.
  rewrite (release_slot_eq _ i k); [|exact Hcur|].
  2:{ simpl. rewrite (drop_S _ _ _ Hk).
      apply lookup_middle. rewrite length_fmap, length_take_le; lia. }
  rewrite (take_S_r _ _ _ Hk), (take_S_r _ _ _ Hc), released_keys_snoc.
  rewrite fmap_app, zip_with_app by (rewrite !length_take_le; lia).
  simpl.
  set (rel := released_keys (curr_pressed_keys b) (take i (keys_to_send b)))
    in *.
  rewrite <- !app_assoc. simpl.
  rewrite (drop_S _ _ _ Hk), (drop_S _ _ _ Hc).
  unfold release_key, release_code.
  destruct (released (curr_pressed_keys b) k) eqn:Hr.
  - rewrite (drop_S _ _ _ Hx).
    rewrite (store_lt _ (length rel)) by list_len.
    rewrite insert_middle by reflexivity.
    rewrite bind_Some_l.
    rewrite (store_lt _ i Key_0) by list_len.
    rewrite insert_middle by list_len.
    rewrite bind_Some_l.
    rewrite (store_lt _ i KEY_DUMMY) by list_len.
    rewrite insert_middle by list_len.
    rewrite bind_Some_l.
    rewrite u8_small by (unfold MAX_NUM_KEYS in *; lia).
    rewrite length_app. simpl.
    replace (length rel + 1) with (S (length rel)) by lia.
    reflexivity.
  - rewrite app_nil_r. reflexivity.
Qed.

(** What [remove_released_keys] computes. *)
Lemma remove_released_keys_spec (b : Board) :
  wf b -> num_keys_released b = 0 ->
  remove_released_keys b = Some (release_upto MAX_NUM_KEYS b).
Proof.
  intros Hwf Hn.
  destruct (for_upto_ind (fun i t => t = release_upto i b) release_slot
              MAX_NUM_KEYS b) as (b1 & Hb1 & ->).
  - symmetry. apply release_upto_0. exact Hn.
  - intros i t Hi ->. eexists. split; [|reflexivity].
    apply release_slot_step; assumption.
  - exact Hb1.
Qed.

Section Released.

Variable b : Board.
Hypothesis Hwf : wf b.

Let b1 := release_upto MAX_NUM_KEYS b.
Let cur := curr_pressed_keys b.

Lemma released_keys_to_send :
  keys_to_send b1 = release_key cur <$> keys_to_send b.
Proof.
  destruct Hwf as [_ _ _ Hk _]. subst b1 cur. simpl.
  rewrite take_ge, drop_ge, app_nil_r by lia. reflexivity.
Qed.

Lemma released_codes_to_send :
  codes_to_send b1 =
  zip_with (release_code cur) (keys_to_send b) (codes_to_send b).
Proof.
  destruct Hwf as [_ _ _ Hk Hc]. subst b1 cur. simpl.
  rewrite !take_ge, drop_ge, app_nil_r by lia. reflexivity.
Qed.

Lemma released_just_released :
  just_released_keys b1 =
  released_keys cur (keys_to_send b) ++
  drop (length (released_keys cur (keys_to_send b))) (just_released_keys b).
Proof.
  destruct Hwf as [_ _ _ Hk _]. subst b1 cur. simpl.
  rewrite take_ge by lia. reflexivity.
Qed.

Lemma released_num :
  num_keys_released b1 = length (released_keys cur (keys_to_send b)).
Proof.
  destruct Hwf as [_ _ _ Hk _]. subst b1 cur. simpl.
  rewrite take_ge by lia. reflexivity.
Qed.

Lemma released_slot (i : nat) (k : Key) :
  keys_to_send b !! i = Some k ->
  keys_to_send b1 !! i = Some (release_key cur k).
Proof.
  intros Hk. rewrite released_keys_to_send, list_lookup_fmap, Hk.
  reflexivity.
Qed.

Lemma released_slot_inv (i : nat) (s : Key) :
  keys_to_send b1 !! i = Some s ->
  exists k, keys_to_send b !! i = Some k /\ s = release_key cur k.
Proof.
  rewrite released_keys_to_send, list_lookup_fmap.
  destruct (keys_to_send b !! i) as [k|]; simpl; [|discriminate].
  intros [= <-]. eauto.
Qed.

Lemma released_code (i : nat) (k : Key) (c : Z) :
  keys_to_send b !! i = Some k -> codes_to_send b !! i = Some c ->
  codes_to_send b1 !! i = Some (release_code cur k c).
Proof.
  intros Hk Hc. rewrite released_codes_to_send, lookup_zip_with, Hk, Hc.
  reflexivity.
Qed.

Lemma released_wf : wf b1.
Proof.
  destruct Hwf as [Hc Ha Hr Hk Hcs].
  pose proof (released_keys_length cur (keys_to_send b)) as Hle.
  constructor.
  - exact Hc.
  - exact Ha.
  - rewrite released_just_released. list_len.
  - rewrite released_keys_to_send. list_len.
  - rewrite released_codes_to_send. list_len.
Qed.

Lemma released_no_duplicate : no_duplicate b -> no_duplicate b1.
Proof.
  intros Hnd i j a c Ha Hc Hda He.
  apply released_slot_inv in Ha as (ka & Hka & ->).
  apply released_slot_inv in Hc as (kc & Hkc & ->).
  assert (Hdc : is_dummy (release_key cur kc) = false)
    by (rewrite <- (key_eq_dummy _ _ He); exact Hda).
  unfold release_key in *.
  destruct (released cur ka); [discriminate|].
  destruct (released cur kc); [discriminate|].
  exact (Hnd i j ka kc Hka Hkc Hda He).
Qed.

Lemma released_codes_agree : codes_agree b -> codes_agree b1.
Proof.
  intros Hag i s c Hs Hc.
  apply released_slot_inv in Hs as (k & Hk & ->).
  destruct (lookup_lt_is_Some_2 (codes_to_send b) i) as [c0 Hc0].
  { apply lookup_lt_Some in Hk. destruct Hwf. lia. }
  rewrite (released_code i k c0 Hk Hc0) in Hc. injection Hc as <-.
  unfold release_key, release_code.
  destruct (released cur k).
  - split; reflexivity.
  - exact (Hag i k c0 Hk Hc0).
Qed.

Lemma released_slots_pressed : slots_pressed b1.
Proof.
  intros i s Hs Hd.
  apply released_slot_inv in Hs as (k & Hk & ->).
  change (curr_pressed_keys b1) with cur.
  unfold release_key, released in *.
  destruct (is_dummy k) eqn:Hdk; simpl in *; [congruence|].
  destruct (pressed_in cur k) eqn:Hp; simpl in *;
    [exact Hp | discriminate].
Qed.

End Released.

(** ** Phase 2: [try_place_key] *)

Lemma find_slot_spec (kts : list Key) (k : Key) (n i : nat) (st : nat * bool) :
  i + n = length kts ->
  find_slot kts k (seq i n) st = Some (find_slot_list k (drop i kts) i st).
Proof.
  revert i st. induction n as [|n IH]; intros i st Hlen; simpl.
  - rewrite drop_ge by lia. reflexivity.
  - destruct (lookup_lt_is_Some_2 kts i) as [s Hs]; [lia|].
    rewrite Hs, bind_Some_l, (drop_S _ _ _ Hs). simpl.
    destruct (is_dummy s && negb (snd st)); [apply IH; lia|].
    destruct (key_eq s k); [reflexivity|].
    apply IH. lia.
Qed.

Lemma find_slot_list_None (k : Key) (l : list Key) (i : nat)
    (st : nat * bool) :
  find_slot_list k l i st = None ->
  exists j s, l !! j = Some s /\ key_eq s k = true.
Proof.
  revert i st. induction l as [|x l IH]; intros i st; simpl; [discriminate|].
  destruct (is_dummy x && negb (snd st)).
  - intros H. destruct (IH _ _ H) as (j & s & Hj & He).
    exists (S j), s. auto.
  - destruct (key_eq x k) eqn:He.
    + intros _. exists 0, x. auto.
    + intros H. destruct (IH _ _ H) as (j & s & Hj & He').
      exists (S j), s. auto.
Qed.

Lemma find_slot_list_Some (k : Key) (l : list Key) (i : nat)
    (st r : nat * bool) :
  is_dummy k = false ->
  find_slot_list k l i st = Some r ->
  forall j s, l !! j = Some s -> key_eq s k = false.
Proof.
  intros Hk. revert i st. induction l as [|x l IH]; intros i st; simpl.
  - intros _ j s Hj. destruct j; discriminate.
  - destruct (is_dummy x && negb (snd st)) eqn:Hb.
    + intros H [|j] s Hj; [|exact (IH _ _ H j s Hj)].
      injection Hj as <-. apply andb_true_iff in Hb as [Hx _].
      destruct (key_eq x k) eqn:He; [|reflexivity].
      apply key_eq_dummy in He. congruence.
    + destruct (key_eq x k) eqn:He; [discriminate|].
      intros H [|j] s Hj; [|exact (IH _ _ H j s Hj)].
      injection Hj as <-. exact He.
Qed.

Lemma find_slot_list_found (k : Key) (l : list Key) (i x : nat)
    (r : nat * bool) :
  find_slot_list k l i (x, true) = Some r -> r = (x, true).
Proof.
  revert i. induction l as [|y l IH]; intros i; simpl.
  - intros [= <-]. reflexivity.
  - rewrite andb_false_r. destruct (key_eq y k); [discriminate|]. apply IH.
Qed.

Lemma find_slot_list_free (k : Key) (l : list Key) (i x j : nat) :
  find_slot_list k l i (x, false) = Some (j, true) ->
  exists s, i <= j /\ l !! (j - i) = Some s /\ is_dummy s = true /\
    forall j' s', j' < j - i -> l !! j' = Some s' -> is_dummy s' = false.
Proof.
  revert i. induction l as [|y l IH]; intros i; simpl; [discriminate|].
  rewrite andb_true_r. destruct (is_dummy y) eqn:Hy.
  - intros H. apply find_slot_list_found in H. injection H as <-.
    exists y. rewrite Nat.sub_diag. repeat split; auto. intros; lia.
  - destruct (key_eq y k); [discriminate|].
    intros H. destruct (IH _ H) as (s & Hle & Hs & Hd & Hlow).
    exists s. replace (j - i) with (S (j - S i)) by lia.
    repeat split; auto; [lia|].
    intros [|j'] s' Hlt Hj'; simpl in Hj'.
    + injection Hj' as <-. exact Hy.
    + apply (Hlow j' s'); [lia | exact Hj'].
Qed.

Lemma find_slot_list_full (k : Key) (l : list Key) (i x j : nat) :
  find_slot_list k l i (x, false) = Some (j, false) ->
  forall j' s', l !! j' = Some s' -> is_dummy s' = false.
Proof.
  revert i. induction l as [|y l IH]; intros i; simpl.
  - intros _ j' s' Hj'. destruct j'; discriminate.
  - rewrite andb_true_r. destruct (is_dummy y) eqn:Hy.
    + intros H. apply find_slot_list_found in H. discriminate.
    + destruct (key_eq y k); [discriminate|].
      intros H [|j'] s' Hj'; simpl in Hj'.
      * injection Hj' as <-. exact Hy.
      * exact (IH _ H j' s' Hj').
Qed.

(** The three outcomes of [try_place_key] for an occupied key [k]. *)
Lemma try_place_key_spec (k : Key) (b : Board) :
  wf b -> is_dummy k = false ->
  (exists j s, keys_to_send b !! j = Some s /\ key_eq s k = true /\
     try_place_key k b = Some (b, false)) \/
  ((forall j s, keys_to_send b !! j = Some s -> key_eq s k = false) /\
   (forall j s, keys_to_send b !! j = Some s -> is_dummy s = false) /\
   try_place_key k b = Some (b, false)) \/
  ((forall j s, keys_to_send b !! j = Some s -> key_eq s k = false) /\
   exists l s, keys_to_send b !! l = Some s /\ is_dummy s = true /\
     (forall j s', j < l -> keys_to_send b !! j = Some s' ->
                   is_dummy s' = false) /\
     try_place_key k b = Some (place_at l k b, true)).
Proof.
  intros [_ _ _ Hkts Hcts] Hk. unfold try_place_key.
  rewrite find_slot_spec by (rewrite Hkts; reflexivity).
  rewrite bind_Some_l, drop_0.
  destruct (find_slot_list k (keys_to_send b) 0 (0, false))
    as [[l [|]]|] eqn:Hf.
  - right. right. split; [exact (find_slot_list_Some _ _ _ _ _ Hk Hf)|].
    apply find_slot_list_free in Hf as (s & _ & Hs & Hd & Hlow).
    rewrite Nat.sub_0_r in *. exists l, s. repeat split; auto.
    pose proof (lookup_lt_Some _ _ _ Hs) as Hl. simpl.
    rewrite !store_lt by lia. reflexivity.
  - right. left. split; [exact (find_slot_list_Some _ _ _ _ _ Hk Hf)|].
    split; [exact (find_slot_list_full _ _ _ _ _ Hf) | reflexivity].
  - left. apply find_slot_list_None in Hf as (j & s & Hj & He).
    exists j, s. auto.
Qed.

(** When every slot is occupied, by distinct keys that are all pressed, a
    pressed key that is in no slot cannot exist: there are as many slots as
    entries in [curr_pressed_keys]. *)
Lemma full_slots_hold_all (b : Board) (k : Key) :
  wf b -> no_duplicate b -> slots_pressed b ->
  (forall j s, keys_to_send b !! j = Some s -> is_dummy s = false) ->
  k ∈ curr_pressed_keys b ->
  (forall j s, keys_to_send b !! j = Some s -> key_eq s k = false) ->
  False.
Proof.
  intros [Hcur _ _ Hkts _] Hnd Hpr Hfull Hin Hno.
  assert (HND : NoDup (kid k :: (kid <$> keys_to_send b))).
  { apply NoDup_cons. split.
    - intros Hk. apply list_elem_of_fmap in Hk as (s & He & Hs).
      apply list_elem_of_lookup in Hs as [j Hj].
      assert (key_eq s k = true) by (apply key_eq_kid; congruence).
      rewrite (Hno j s Hj) in *. discriminate.
    - apply NoDup_alt. intros i j x Hi Hj.
      rewrite list_lookup_fmap in Hi, Hj.
      destruct (keys_to_send b !! i) as [a|] eqn:Ha; [|discriminate].
      destruct (keys_to_send b !! j) as [c|] eqn:Hc; [|discriminate].
      simpl in Hi, Hj. injection Hi as Hi. injection Hj as Hj.
      apply (Hnd i j a c Ha Hc (Hfull i a Ha)).
      apply key_eq_kid. congruence. }
  assert (Hsub : forall x, x ∈ kid k :: (kid <$> keys_to_send b) ->
                           x ∈ kid <$> curr_pressed_keys b).
  { intros x Hx. apply elem_of_cons in Hx as [->|Hx].
    - apply list_elem_of_fmap_2. exact Hin.
    - apply list_elem_of_fmap in Hx as (s & -> & Hs).
      apply list_elem_of_lookup in Hs as [j Hj].
      pose proof (Hpr j s Hj (Hfull j s Hj)) as Hp.
      apply pressed_in_spec in Hp as (c & Hc & He).
      apply key_eq_kid in He. rewrite He.
      apply list_elem_of_fmap_2. exact Hc. }
  pose proof (submseteq_length _ _ (NoDup_submseteq _ _ HND Hsub)) as Hlen.
  simpl in Hlen. rewrite !length_fmap in Hlen. lia.
Qed.

Lemma same_but_slots_refl (b : Board) : same_but_slots b b.
Proof. destruct b. reflexivity. Qed.

Lemma same_but_slots_place (b t : Board) (l : nat) (k : Key) :
  same_but_slots b t -> same_but_slots b (place_at l k t).
Proof. intros H. destruct t. exact H. Qed.

Lemma same_but_slots_curr (b t : Board) :
  same_but_slots b t -> curr_pressed_keys t = curr_pressed_keys b.
Proof. intros H. apply (f_equal curr_pressed_keys) in H. exact H. Qed.

Lemma same_but_slots_fn (b t : Board) :
  same_but_slots b t ->
  fn_pressed t = fn_pressed b /\ fn2_pressed t = fn2_pressed b.
Proof.
  intros H. split.
  - apply (f_equal fn_pressed) in H. exact H.
  - apply (f_equal fn2_pressed) in H. exact H.
Qed.

Lemma same_but_slots_pressed_media (b t : Board) :
  same_but_slots b t -> pressed_media t = pressed_media b.
Proof. intros H. apply (f_equal pressed_media) in H. exact H. Qed.

Lemma place_at_wf (l : nat) (k : Key) (b : Board) : wf b -> wf (place_at l k b).
Proof.
  intros [H1 H2 H3 H4 H5]. constructor; simpl; rewrite ?length_insert;
    assumption.
Qed.

Lemma placing_start (b1 : Board) :
  wf b1 -> no_duplicate b1 -> slots_pressed b1 -> placing b1 0 b1.
Proof.
  intros Hwf Hnd Hpr. constructor; auto.
  - apply same_but_slots_refl.
  - intros j k Hj. lia.
Qed.

Lemma placing_skip (b1 t : Board) (n : nat) (k : Key) :
  placing b1 n t -> curr_pressed_keys b1 !! n = Some k ->
  (is_dummy k = false -> exists i s,
      keys_to_send t !! i = Some s /\ key_eq s k = true) ->
  placing b1 (S n) t.
Proof.
  intros [H1 H2 H3 H4 H5 H6 H7] Hk Hex. constructor; auto.
  intros j k' Hj Hk' Hd.
  destruct (decide (j = n)) as [->|Hne].
  - rewrite Hk in Hk'. injection Hk' as <-. auto.
  - apply (H6 j k'); auto. lia.
Qed.

Lemma placing_place (b1 t : Board) (n l : nat) (k s : Key) :
  placing b1 n t -> curr_pressed_keys b1 !! n = Some k ->
  is_dummy k = false ->
  (forall j s, keys_to_send t !! j = Some s -> key_eq s k = false) ->
  keys_to_send t !! l = Some s -> is_dummy s = true ->
  placing b1 (S n) (place_at l k t).
Proof.
  intros [H1 H2 H3 H4 H5 H6 H7] Hk Hd Hno Hl Hs.
  pose proof (lookup_lt_Some _ _ _ Hl) as Hlt.
  pose proof (same_but_slots_curr _ _ H2) as Hcur.
  assert (Hlc : l < length (codes_to_send t)) by (destruct H1; lia).
  assert (Hin : k ∈ curr_pressed_keys b1)
    by (apply list_elem_of_lookup; eauto).
  constructor.
  - apply place_at_wf. exact H1.
  - apply same_but_slots_place. exact H2.
  - intros i j a c Ha Hc Hda He. simpl in Ha, Hc.
    destruct (decide (l = i)) as [Ei|Hi], (decide (l = j)) as [Ej|Hj];
      [congruence | subst i | subst j |].
    + rewrite list_lookup_insert_eq in Ha by assumption.
      rewrite list_lookup_insert_ne in Hc by assumption.
      injection Ha as <-. rewrite key_eq_sym, (Hno j c Hc) in He.
      discriminate.
    + rewrite list_lookup_insert_ne in Ha by assumption.
      rewrite list_lookup_insert_eq in Hc by assumption.
      injection Hc as <-. rewrite (Hno i a Ha) in He. discriminate.
    + rewrite list_lookup_insert_ne in Ha, Hc by assumption.
      exact (H3 i j a c Ha Hc Hda He).
  - intros i a Ha Hda. simpl in Ha |- *. rewrite Hcur.
    destruct (decide (l = i)) as [->|Hi].
    + rewrite list_lookup_insert_eq in Ha by assumption.
      injection Ha as <-. apply pressed_in_spec. exists k.
      split; [exact Hin | apply key_eq_refl].
    + rewrite list_lookup_insert_ne in Ha by assumption.
      rewrite <- Hcur. exact (H4 i a Ha Hda).
  - intros i a Ha Hda. destruct (H5 i a Ha Hda) as [Hk1 Hc1].
    assert (l <> i) by (intros ->; congruence).
    simpl. rewrite !list_lookup_insert_ne by assumption. auto.
  - intros j k' Hj Hk' Hd'. simpl.
    destruct (decide (j = n)) as [->|Hne].
    + rewrite Hk in Hk'. injection Hk' as <-. exists l, k.
      rewrite list_lookup_insert_eq by assumption.
      split; [reflexivity | apply key_eq_refl].
    + destruct (H6 j k') as (i & a & Ha & He); auto; [lia|].
      exists i, a. split; [|exact He].
      assert (l <> i).
      { intros ->. apply key_eq_dummy in He. congruence. }
      rewrite list_lookup_insert_ne by assumption. exact Ha.
  - intros i a Ha. simpl in Ha |- *.
    destruct (same_but_slots_fn _ _ H2) as [-> ->].
    destruct (decide (l = i)) as [->|Hi].
    + rewrite list_lookup_insert_eq in Ha by assumption.
      injection Ha as <-. right.
      rewrite list_lookup_insert_eq by assumption.
      destruct (H7 i s Hl) as [[Hb _]|(s0 & _ & _ & _ & Hc & _)];
        [|congruence].
      exists s. auto.
    + rewrite list_lookup_insert_ne in Ha by assumption.
      rewrite list_lookup_insert_ne by assumption. exact (H7 i a Ha).
Qed.

(** One iteration of the placement loop. *)
Lemma place_pressed_step (b1 t : Board) (n : nat) :
  placing b1 n t -> n < MAX_NUM_KEYS ->
  exists t', place_pressed n t = Some t' /\ placing b1 (S n) t'.
Proof.
  intros Hpl Hn.
  pose proof (pl_wf _ _ _ Hpl) as Hwf.
  pose proof (same_but_slots_curr _ _ (pl_same _ _ _ Hpl)) as Hcur.
  destruct (lookup_lt_is_Some_2 (curr_pressed_keys t) n) as [k Hk].
  { destruct Hwf. lia. }
  unfold place_pressed. rewrite Hk, bind_Some_l. rewrite Hcur in Hk.
  destruct (is_dummy k) eqn:Hd; simpl.
  - exists t. split; [reflexivity|].
    apply (placing_skip _ _ _ k); auto. congruence.
  - destruct (try_place_key_spec k t Hwf Hd)
      as [(j & s & Hj & He & ->)|[(Hno & Hfull & ->)|
          (Hno & l & s & Hl & Hs & _ & ->)]]; simpl.
    + exists t. split; [reflexivity|].
      apply (placing_skip _ _ _ k); eauto.
    + exfalso. apply (full_slots_hold_all t k); auto.
      * exact (pl_nodup _ _ _ Hpl).
      * exact (pl_pressed _ _ _ Hpl).
      * rewrite Hcur. apply list_elem_of_lookup. eauto.
    + exists (place_at l k t). split; [reflexivity|].
      apply (placing_place _ _ _ _ _ s); auto.
Qed.

Lemma place_loop (b1 : Board) :
  wf b1 -> no_duplicate b1 -> slots_pressed b1 ->
  exists b2, for_upto MAX_NUM_KEYS place_pressed b1 = Some b2 /\
             placing b1 MAX_NUM_KEYS b2.
Proof.
  intros Hwf Hnd Hpr.
  apply (for_upto_ind (placing b1)).
  - apply placing_start; assumption.
  - intros i t Hi Hpl. apply place_pressed_step; assumption.
Qed.

(** ** The scan *)

Lemma for_each_ext {A St : Type} (f g : A -> St -> option St) (l : list A)
    (s : St) :
  (forall i t, f i t = g i t) -> for_each f l s = for_each g l s.
Proof.
  intros Hfg. revert s. induction l as [|i l IH]; intros s; simpl.
  - reflexivity.
  - rewrite Hfg. destruct (g i s); simpl; [apply IH | reflexivity].
Qed.

Lemma for_each_filter {A B St : Type} (p : A -> bool) (g : A -> B)
    (f : B -> St -> option St) (l : list A) (s : St) :
  for_each (fun i t => if p i then f (g i) t else Some t) l s =
  for_each f (g <$> filter (fun i => p i = true) l) s.
Proof.
  revert s. induction l as [|i l IH]; intros s; simpl; [reflexivity|].
  destruct (p i) eqn:Hp.
  - rewrite filter_cons_True by assumption. simpl.
    destruct (f (g i) s); simpl; [apply IH | reflexivity].
  - rewrite filter_cons_False by congruence. simpl. apply IH.
Qed.

Lemma for_each_flat_map {A B St : Type} (f : B -> St -> option St)
    (g : A -> list B) (l : list A) (s : St) :
  for_each (fun a t => for_each f (g a) t) l s = for_each f (flat_map g l) s.
Proof.
  revert s. induction l as [|a l IH]; intros s; simpl; [reflexivity|].
  rewrite for_each_app.
  destruct (for_each f (g a) s); simpl; [apply IH | reflexivity].
Qed.

Section ScanProofs.

Variable layout : nat -> nat -> Key.
Variable read : nat -> nat -> bool.

Lemma scan_position_closed (row col : nat) (b : Board) :
  scan_position layout read row col b =
  if closed layout read row col then scan_pressed (layout row col) b
  else Some b.
Proof.
  unfold scan_position, closed.
  destruct (is_dummy (layout row col)), (read row col); reflexivity.
Qed.

(** The two nested loops visit the pressed keys in the order of
    [pressed_keys]. *)
Lemma scan_layout_keys (b : Board) :
  scan_layout layout read b =
  for_each scan_pressed (pressed_keys layout read) b.
Proof.
  unfold scan_layout, for_upto, pressed_keys.
  rewrite <- for_each_flat_map. apply for_each_ext. intros row t.
  unfold scan_row, for_upto, row_keys.
  rewrite <- for_each_filter. apply for_each_ext. intros col t'.
  apply scan_position_closed.
Qed.

Lemma row_keys_length (row : nat) :
  length (row_keys layout read row) <= NUM_COLS.
Proof.
  unfold row_keys. rewrite length_fmap.
  etransitivity; [apply length_filter|]. rewrite length_seq. reflexivity.
Qed.

Lemma pressed_keys_length :
  length (pressed_keys layout read) <= NUM_ROWS * NUM_COLS.
Proof.
  unfold pressed_keys.
  pose proof (row_keys_length 0). pose proof (row_keys_length 1).
  pose proof (row_keys_length 2). pose proof (row_keys_length 3).
  pose proof (row_keys_length 4).
  change (seq 0 NUM_ROWS) with [0; 1; 2; 3; 4]. simpl.
  rewrite !length_app. simpl. unfold NUM_ROWS, NUM_COLS in *. lia.
Qed.

Lemma pressed_keys_elem (k : Key) :
  k ∈ pressed_keys layout read ->
  exists row col, row < NUM_ROWS /\ col < NUM_COLS /\
    closed layout read row col = true /\ k = layout row col.
Proof.
  unfold pressed_keys. rewrite list_elem_of_In, in_flat_map.
  intros (row & Hrow & Hk). apply in_seq in Hrow.
  apply list_elem_of_In in Hk. unfold row_keys in Hk.
  apply list_elem_of_fmap in Hk as (col & -> & Hc).
  apply list_elem_of_filter in Hc as [Hcl Hc].
  apply list_elem_of_In, in_seq in Hc.
  exists row, col. repeat split; auto; lia.
Qed.

End ScanProofs.

Lemma translate_modifier_in_range (m : Z) :
  (-6 <= m <= -1)%Z ->
  exists v, translate_modifier m = Some v /\
            MODIFIER_MAP !! Z.to_nat (-1 * m - 1) = Some v /\
            Z.to_nat (-1 * m - 1) < NUM_MODIFIERS.
Proof.
  intros Hm. unfold translate_modifier.
  destruct (Z.geb_spec m 0) as [?|_]; [lia|].
  assert (Hlt : Z.to_nat (-1 * m - 1) < NUM_MODIFIERS)
    by (unfold NUM_MODIFIERS; lia).
  destruct (lookup_lt_is_Some_2 MODIFIER_MAP (Z.to_nat (-1 * m - 1)))
    as [v Hv]; [exact Hlt|].
  exists v. auto.
Qed.

(** One pressed key. *)
Lemma scan_pressed_spec (k : Key) (b : Board) :
  wf b -> tot_num_keys_pressed b < NUM_ROWS * NUM_COLS ->
  (reaches_modifier k = true -> (-6 <= code k <= -1)%Z) ->
  exists b', scan_pressed k b = Some b' /\ scan_keeps b b' /\
    tot_num_keys_pressed b' = u8 (tot_num_keys_pressed b + 1) /\
    num_keys_pressed b' =
      (if is_ordinary k then u8 (num_keys_pressed b + 1)
       else num_keys_pressed b) /\
    curr_pressed_keys b' =
      (if is_ordinary k then
         if decide (num_keys_pressed b < MAX_NUM_KEYS)
         then <[num_keys_pressed b := k]> (curr_pressed_keys b)
         else curr_pressed_keys b
       else curr_pressed_keys b).
Proof.
  intros [H1 H2 H3 H4 H5] Htot Hmod. unfold scan_pressed.
  rewrite store_lt by lia. rewrite bind_Some_l.
  unfold reaches_modifier, is_ordinary in *.
  destruct (is_fn k); simpl.
  { eexists. split; [reflexivity|]. repeat split; simpl;
      rewrite ?length_insert; auto. }
  destruct (is_fn2 k); simpl.
  { eexists. split; [reflexivity|]. repeat split; simpl;
      rewrite ?length_insert; auto. }
  destruct (is_modifier k); simpl.
  { destruct (translate_modifier_in_range (code k)) as (v & -> & _);
      [auto|].
    eexists. split; [reflexivity|]. repeat split; simpl;
      rewrite ?length_insert; auto. }
  destruct (is_media k); simpl.
  { eexists. split; [reflexivity|]. repeat split; simpl;
      rewrite ?length_insert; auto. }
  destruct (decide (num_keys_pressed b < MAX_NUM_KEYS)) as [Hn|Hn].
  - rewrite store_lt by lia. simpl.
    eexists. split; [reflexivity|]. repeat split; simpl;
      rewrite ?length_insert; auto.
  - simpl. eexists. split; [reflexivity|]. repeat split; simpl;
      rewrite ?length_insert; auto.
Qed.

(** All pressed keys. *)
Lemma scan_pressed_list (keys : list Key) (b : Board) :
  wf b ->
  tot_num_keys_pressed b + length keys <= NUM_ROWS * NUM_COLS ->
  num_keys_pressed b + length keys < 256 ->
  (forall k, k ∈ keys -> reaches_modifier k = true ->
             (-6 <= code k <= -1)%Z) ->
  exists b', for_each scan_pressed keys b = Some b' /\ scan_keeps b b' /\
    num_keys_pressed b' =
      num_keys_pressed b + length (filter (fun k => is_ordinary k = true) keys)
    /\
    curr_pressed_keys b' =
      fill (num_keys_pressed b) (filter (fun k => is_ordinary k = true) keys)
        (curr_pressed_keys b).
Proof.
  revert b. induction keys as [|k keys IH]; intros b Hwf Htot Hnum Hmod.
  - exists b. split; [reflexivity|]. split; [constructor; auto|].
    simpl. split; [lia | reflexivity].
  - simpl in Htot, Hnum.
    destruct (scan_pressed_spec k b) as (b1 & Hb1 & Hk1 & Ht1 & Hn1 & Hc1).
    { exact Hwf. } { bounds. }
    { apply Hmod. left. }
    assert (Ht1' : tot_num_keys_pressed b1 = tot_num_keys_pressed b + 1).
    { rewrite Ht1. apply u8_small. bounds. }
    pose proof (length_filter (fun k => is_ordinary k = true) keys) as Hfl.
    destruct (IH b1) as (b2 & Hb2 & Hk2 & Hn2 & Hc2).
    { exact (sk_wf _ _ Hk1). } { bounds. }
    { rewrite Hn1. destruct (is_ordinary k); [|lia].
      rewrite u8_small; lia. }
    { intros k' Hk'. apply Hmod. right. exact Hk'. }
    exists b2. simpl. rewrite Hb1. simpl. split; [exact Hb2|].
    destruct Hk1 as [? E1 E2 E3 E4 E5], Hk2 as [? F1 F2 F3 F4 F5].
    split; [constructor; congruence|].
    rewrite Hn2, Hc2, Hn1, Hc1. destruct (is_ordinary k) eqn:Ho.
    + rewrite filter_cons_True by assumption. simpl.
      rewrite u8_small by lia.
      replace (num_keys_pressed b + 1) with (S (num_keys_pressed b)) by lia.
      split; [lia | reflexivity].
    + rewrite filter_cons_False by congruence. auto.
Qed.

(** *** How the scan fills [curr_pressed_keys] *)

Lemma fill_length (ks : list Key) (n : nat) (buf : list Key) :
  length (fill n ks buf) = length buf.
Proof.
  revert n buf. induction ks as [|k ks IH]; intros n buf; simpl.
  - reflexivity.
  - rewrite IH. case_decide; [apply length_insert | reflexivity].
Qed.

Lemma fill_lookup (ks : list Key) (n : nat) (buf : list Key) (j : nat) :
  length buf = MAX_NUM_KEYS ->
  fill n ks buf !! j =
  if decide (n <= j /\ j < MAX_NUM_KEYS /\ j - n < length ks)
  then ks !! (j - n) else buf !! j.
Proof.
  revert n buf. induction ks as [|k ks IH]; intros n buf Hlen; simpl.
  - case_decide; [lia | reflexivity].
  - rewrite IH
      by (destruct (decide (n < MAX_NUM_KEYS)); rewrite ?length_insert;
          exact Hlen).
    destruct (decide (j = n)) as [->|Hne].
    + rewrite Nat.sub_diag.
      rewrite decide_False by lia.
      destruct (decide (n < MAX_NUM_KEYS)) as [Hn|Hn].
      * rewrite list_lookup_insert_eq by lia.
        rewrite decide_True by lia. reflexivity.
      * rewrite decide_False by lia. reflexivity.
    + assert (Hb : (if decide (n < MAX_NUM_KEYS) then <[n:=k]> buf else buf)
                   !! j = buf !! j).
      { destruct (decide (n < MAX_NUM_KEYS)); [|reflexivity].
        apply list_lookup_insert_ne. auto. }
      rewrite Hb.
      destruct (decide (n <= j /\ j < MAX_NUM_KEYS /\ j - n < S (length ks)))
        as [Hc|Hc].
      * rewrite decide_True by lia.
        replace (j - n) with (S (j - S n)) by lia. reflexivity.
      * rewrite decide_False by lia. reflexivity.
Qed.

(** An occupied key is in the scanned buffer exactly when it is among the
    first [MAX_NUM_KEYS] ordinary keys of the scan. *)
Lemma fill_pressed_in (ks : list Key) (k : Key) :
  is_dummy k = false ->
  pressed_in (fill 0 ks (replicate MAX_NUM_KEYS Key_0)) k =
  pressed_in (take MAX_NUM_KEYS ks) k.
Proof.
  intros Hk. apply eq_true_iff_eq. rewrite !pressed_in_spec.
  split; intros (c & Hin & He).
  - exists c. split; [|exact He].
    apply list_elem_of_lookup in Hin as [j Hj].
    rewrite fill_lookup in Hj by apply length_replicate.
    case_decide as Hc.
    + rewrite Nat.sub_0_r in Hj. apply list_elem_of_lookup. exists j.
      apply lookup_take_Some. split; [exact Hj | lia].
    + apply lookup_replicate in Hj as [-> _].
      apply key_eq_dummy in He. rewrite Hk in He. discriminate.
  - exists c. split; [|exact He].
    apply list_elem_of_lookup in Hin as [j Hj].
    apply lookup_take_Some in Hj as [Hj Hlt].
    apply list_elem_of_lookup. exists j.
    rewrite fill_lookup by apply length_replicate.
    pose proof (lookup_lt_Some _ _ _ Hj).
    rewrite decide_True by lia. rewrite Nat.sub_0_r. exact Hj.
Qed.

(** Every entry of the scanned buffer is a scanned ordinary key or the
    dummy key. *)
Lemma fill_elem (ks : list Key) (c : Key) :
  c ∈ fill 0 ks (replicate MAX_NUM_KEYS Key_0) ->
  c ∈ take MAX_NUM_KEYS ks \/ c = Key_0.
Proof.
  intros Hin. apply list_elem_of_lookup in Hin as [j Hj].
  rewrite fill_lookup in Hj by apply length_replicate.
  case_decide as Hc.
  - left. rewrite Nat.sub_0_r in Hj. apply list_elem_of_lookup. exists j.
    apply lookup_take_Some. split; [exact Hj | lia].
  - right. apply lookup_replicate in Hj as [-> _]. reflexivity.
Qed.

(** *** The start of a cycle *)

Lemma replicate_cons_app {A : Type} (n : nat) (x : A) (l : list A) :
  replicate n x ++ x :: l = replicate (S n) x ++ l.
Proof. induction n as [|n IH]; simpl; [reflexivity | f_equal; exact IH]. Qed.

Lemma reset_buffers_loop (b : Board) :
  wf b ->
  for_upto MAX_NUM_KEYS reset_buffers b =
  Some (set_just_released_keys (replicate MAX_NUM_KEYS Key_0)
          (set_curr_pressed_keys (replicate MAX_NUM_KEYS Key_0) b)).
Proof.
  intros [Hc _ Hr _ _].
  destruct (for_upto_ind
    (fun i t => t = set_just_released_keys
                      (replicate i Key_0 ++ drop i (just_released_keys b))
                      (set_curr_pressed_keys
                         (replicate i Key_0 ++ drop i (curr_pressed_keys b))
                         b))
    reset_buffers MAX_NUM_KEYS b) as (b' & Hb' & ->).
  - destruct b. reflexivity.
  - intros i t Hi ->. eexists. split; [|reflexivity].
    destruct (lookup_lt_is_Some_2 (curr_pressed_keys b) i) as [x Hx]; [lia|].
    destruct (lookup_lt_is_Some_2 (just_released_keys b) i) as [y Hy]; [lia|].
    unfold reset_buffers. simpl.
    rewrite (drop_S _ _ _ Hx), (drop_S _ _ _ Hy).
    rewrite !store_lt by list_len.
    rewrite !insert_middle by list_len.
    simpl. rewrite !replicate_cons_app. reflexivity.
  - rewrite Hb'. rewrite !drop_ge, !app_nil_r by lia. reflexivity.
Qed.

Lemma reset_all_pressed_total (n i : nat) (all : list Key) :
  i + n <= length all ->
  exists all', reset_all_pressed (seq i n) all = Some all' /\
               length all' = length all.
Proof.
  revert i all. induction n as [|n IH]; intros i all Hlen; simpl.
  - exists all. auto.
  - destruct (lookup_lt_is_Some_2 all i) as [k Hk]; [lia|].
    rewrite Hk, bind_Some_l. destruct (is_dummy k).
    + exists all. auto.
    + rewrite store_lt by lia. rewrite bind_Some_l.
      destruct (IH (S i) (<[i:=Key_0]> all)) as (all' & Ha & Hl).
      { rewrite length_insert. lia. }
      exists all'. rewrite length_insert in Hl. auto.
Qed.

Lemma begin_cycle_spec (b : Board) :
  wf b -> exists b0, begin_cycle b = Some b0 /\ cycle_start b b0.
Proof.
  intros Hwf. pose proof Hwf as [H1 H2 H3 H4 H5].
  unfold begin_cycle, reset_pressed_keys.
  rewrite reset_buffers_loop by assumption. rewrite bind_Some_l.
  destruct (reset_all_pressed_total (NUM_ROWS * NUM_COLS) 0
              (all_pressed_keys b)) as (all' & Ha & Hl); [lia|].
  cbn [all_pressed_keys set_just_released_keys set_curr_pressed_keys].
  rewrite Ha, bind_Some_l. eexists. split; [reflexivity|].
  constructor; try reflexivity.
  constructor; simpl; rewrite ?length_replicate, ?Hl; auto.
Qed.

(** *** The media key of a scan *)

Lemma scan_pressed_media (k : Key) (b b' : Board) :
  scan_pressed k b = Some b' ->
  pressed_media b' = if reaches_media k then k else pressed_media b.
Proof.
  unfold scan_pressed, reaches_media.
  destruct (store (all_pressed_keys b) (tot_num_keys_pressed b) k);
    simpl; [|discriminate].
  destruct (is_fn k); simpl; [intros [= <-]; reflexivity|].
  destruct (is_fn2 k); simpl; [intros [= <-]; reflexivity|].
  destruct (is_modifier k); simpl.
  { destruct (translate_modifier (code k)); simpl; [|discriminate].
    intros [= <-]. reflexivity. }
  destruct (is_media k); simpl; [intros [= <-]; reflexivity|].
  match goal with |- (?x ≫= _) = _ -> _ => destruct x end;
    simpl; [|discriminate].
  intros [= <-]. reflexivity.
Qed.

Section MediaProofs.

Variable layout : nat -> nat -> Key.
Variable read : nat -> nat -> bool.

Lemma scan_position_media (row col : nat) (b b' : Board) :
  scan_position layout read row col b = Some b' ->
  pressed_media b' =
  if media_at layout read row col then layout row col else pressed_media b.
Proof.
  rewrite scan_position_closed. unfold media_at.
  destruct (closed layout read row col); simpl.
  - apply scan_pressed_media.
  - intros [= <-]. reflexivity.
Qed.

Lemma media_before_start (m0 : Key) : media_before layout read m0 0 0 m0.
Proof.
  left. split; [reflexivity|]. intros r c _ [H|[_ H]]; simpl in H; lia.
Qed.

Lemma media_before_step (m0 m : Key) (row col : nat) :
  col < NUM_COLS ->
  media_before layout read m0 row col m ->
  media_before layout read m0 row (S col)
    (if media_at layout read row col then layout row col else m).
Proof.
  intros Hcol Hm. destruct (media_at layout read row col) eqn:Hat.
  - right. exists row, col. repeat split; auto.
    + right. simpl. lia.
    + intros r' c' _ [H|[H1 H2]] _ [H'|[H1' H2']]; simpl in *; lia.
  - destruct Hm as [[-> Hno]|(r & c & Hc & Hb & Hrc & -> & Hmax)].
    + left. split; [reflexivity|].
      intros r' c' Hc' [H|[H1 H2]]; simpl in *.
      * apply Hno; [assumption | left; assumption].
      * subst r'. destruct (decide (c' = col)) as [->|Hne]; [exact Hat|].
        apply Hno; [assumption | right; simpl; lia].
    + right. exists r, c. repeat split; auto.
      * destruct Hb as [H|[H1 H2]]; simpl in *; [left | right]; simpl; lia.
      * intros r' c' Hc' Hb' Hat'.
        destruct (decide (r' = row /\ c' = col)) as [[-> ->]|Hne];
          [congruence|].
        apply Hmax; auto.
        destruct Hb' as [H|[H1 H2]]; simpl in *; [left | right]; simpl; lia.
Qed.

Lemma media_before_row (m0 m : Key) (row : nat) :
  media_before layout read m0 row NUM_COLS m ->
  media_before layout read m0 (S row) 0 m.
Proof.
  assert (Hbef : forall r c, c < NUM_COLS ->
            before (r, c) (S row, 0) -> before (r, c) (row, NUM_COLS)).
  { intros r c Hc [H|[H1 H2]]; simpl in *; [|lia].
    destruct (decide (r = row)) as [->|Hne]; [right | left]; simpl; lia. }
  intros [[-> Hno]|(r & c & Hc & Hb & Hrc & -> & Hmax)].
  - left. split; [reflexivity|]. intros r c Hc Hb. apply Hno; auto.
  - right. exists r, c. repeat split; auto.
    destruct Hb as [H|[H1 H2]]; simpl in *; left; simpl; lia.
Qed.

Lemma scan_row_media (m0 : Key) (row : nat) (b b' : Board) :
  scan_row layout read row b = Some b' ->
  media_before layout read m0 row 0 (pressed_media b) ->
  media_before layout read m0 (S row) 0 (pressed_media b').
Proof.
  intros Hrow Hm. apply media_before_row.
  apply (for_upto_inv
           (fun c t => media_before layout read m0 row c (pressed_media t))
           (scan_position layout read row) NUM_COLS b b'); auto.
  intros c t t' Hc Ht Hstep.
  rewrite (scan_position_media _ _ _ _ Hstep).
  apply media_before_step; assumption.
Qed.

Lemma scan_layout_media (b b' : Board) :
  scan_layout layout read b = Some b' ->
  media_before layout read (pressed_media b) NUM_ROWS 0 (pressed_media b').
Proof.
  intros Hscan.
  apply (for_upto_inv
           (fun r t => media_before layout read (pressed_media b) r 0
                         (pressed_media t))
           (scan_row layout read) NUM_ROWS b b'); auto.
  - apply media_before_start.
  - intros r t t' _ Ht Hrow. exact (scan_row_media _ _ _ _ Hrow Ht).
Qed.

(** The scan of a table whose modifier keys are in range, from the state
    at the start of a cycle. *)
Lemma scan_layout_spec (b : Board) :
  modifiers_ok layout -> wf b ->
  tot_num_keys_pressed b = 0 -> num_keys_pressed b = 0 ->
  exists fr, scan_layout layout read b = Some fr /\
             scan_frame layout read b fr.
Proof.
  intros Hmod Hwf Htot Hnum.
  pose proof (pressed_keys_length layout read) as Hlen.
  destruct (scan_pressed_list (pressed_keys layout read) b)
    as (fr & Hfr & Hkeep & Hn & Hc); auto.
  { rewrite Htot. exact Hlen. }
  { rewrite Hnum. bounds. }
  { intros k Hk. apply pressed_keys_elem in Hk
      as (row & col & Hr & Hcol & _ & ->). apply Hmod; assumption. }
  exists fr. rewrite scan_layout_keys. split; [exact Hfr|].
  constructor; auto.
  - rewrite Hn, Hnum. reflexivity.
  - rewrite Hc, Hnum. reflexivity.
  - apply scan_layout_media. rewrite scan_layout_keys. exact Hfr.
Qed.

End MediaProofs.

(** ** The layout tables *)

Ltac table_entries :=
  repeat match goal with
  | |- Forall _ _ => constructor
  | |- table_entry _ =>
      first
        [ apply te_dummy | apply te_K1 | apply te_K2 | apply te_K3d
        | apply te_local;
          unfold KEY_LSHIFT, KEY_CTRL, KEY_ALT, KEY_ALTGR, KEY_SUPER,
            KEY_RSHIFT, KEY_FN, KEY_FN2; lia ]
  end.

Lemma KEYS_rows_entries : Forall (Forall table_entry) KEYS_rows.
Proof. unfold KEYS_rows. table_entries. Qed.

Lemma KEYS_SPECIAL_rows_entries :
  Forall (Forall table_entry) KEYS_SPECIAL_rows.
Proof. unfold KEYS_SPECIAL_rows. table_entries. Qed.

Lemma at_table_entry (rows : list (list Key)) (row col : nat) :
  Forall (Forall table_entry) rows -> table_entry (at_table rows row col).
Proof.
  intros Hrows. unfold at_table. rewrite !nth_lookup.
  destruct (rows !! row) as [r|] eqn:Hr; simpl.
  - rewrite Forall_lookup in Hrows. specialize (Hrows _ _ Hr).
    destruct (r !! col) as [k|] eqn:Hk; simpl; [|apply te_dummy].
    rewrite Forall_lookup in Hrows. exact (Hrows _ _ Hk).
  - apply te_dummy.
Qed.

Lemma table_entry_modifier (k : Key) :
  hid_nonneg -> table_entry k ->
  reaches_modifier k = true -> (-6 <= code k <= -1)%Z.
Proof.
  intros Hh Hk. unfold reaches_modifier, is_fn, is_fn2, is_modifier.
  rewrite !andb_true_iff, !negb_true_iff, !Z.eqb_neq, Z.ltb_lt.
  unfold KEY_FN, KEY_FN2.
  destruct Hk as [|c Hc|c|c s|c t]; simpl; unfold KEY_DUMMY;
    try (pose proof (Hh c)); lia.
Qed.

Lemma table_entry_visible (k : Key) :
  hid_low_byte -> table_entry k ->
  is_ordinary k = true -> is_dummy k = false -> code_visible k.
Proof.
  intros Hh Hk Ho Hd fn fn2. unfold layer_code, to_uint8, KEY_DUMMY.
  destruct Hk as [|c Hc|c|c s|c t]; simpl in *.
  - discriminate.
  - unfold is_ordinary, is_modifier in Ho. simpl in Ho.
    destruct (Z.ltb_spec c 0); [|lia].
    rewrite !andb_false_r in Ho. discriminate.
  - apply Hh.
  - destruct (has_second _ && fn); apply Hh.
  - destruct (has_third _ && fn2); apply Hh.
Qed.

Lemma KEYS_modifiers_ok : hid_nonneg -> modifiers_ok KEYS.
Proof.
  intros Hh row col _ _. apply table_entry_modifier; [exact Hh|].
  apply at_table_entry, KEYS_rows_entries.
Qed.

Lemma KEYS_SPECIAL_modifiers_ok : hid_nonneg -> modifiers_ok KEYS_SPECIAL.
Proof.
  intros Hh row col _ _. apply table_entry_modifier; [exact Hh|].
  apply at_table_entry, KEYS_SPECIAL_rows_entries.
Qed.

(** ** A cycle up to the end of the scan *)

Lemma scanned_spec (read : nat -> nat -> bool) (b : Board) :
  hid_nonneg -> wf b ->
  exists b0 fr, begin_cycle b = Some b0 /\ cycle_start b b0 /\
    scanned read b = Some fr /\ scan_frame KEYS read b0 fr.
Proof.
  intros Hh Hwf.
  destruct (begin_cycle_spec b Hwf) as (b0 & Hb0 & Hcs).
  destruct (scan_layout_spec KEYS read b0) as (fr & Hfr & Hsf).
  - apply KEYS_modifiers_ok. exact Hh.
  - exact (cs_wf _ _ Hcs).
  - exact (cs_tot _ _ Hcs).
  - exact (cs_num_pressed _ _ Hcs).
  - exists b0, fr. unfold scanned. rewrite Hb0. auto.
Qed.

(** ** [update_keys_to_send], [send_keys] and the whole cycle *)

Lemma update_keys_to_send_spec (b : Board) :
  wf b -> no_duplicate b -> num_keys_released b = 0 ->
  exists b2,
    for_upto MAX_NUM_KEYS place_pressed (release_upto MAX_NUM_KEYS b) = Some b2
    /\ placing (release_upto MAX_NUM_KEYS b) MAX_NUM_KEYS b2
    /\ update_keys_to_send b =
       Some (set_current_media
               (media_code (fn_pressed b) (pressed_media b)) b2).
Proof.
  intros Hwf Hnd Hn.
  destruct (place_loop (release_upto MAX_NUM_KEYS b)) as (b2 & Hb2 & Hpl).
  - apply released_wf. exact Hwf.
  - apply released_no_duplicate; assumption.
  - apply released_slots_pressed. exact Hwf.
  - exists b2. split; [exact Hb2|]. split; [exact Hpl|].
    unfold update_keys_to_send.
    rewrite remove_released_keys_spec by assumption.
    rewrite bind_Some_l, Hb2, bind_Some_l.
    pose proof (pl_same _ _ _ Hpl) as Hs.
    destruct (same_but_slots_fn _ _ Hs) as [-> _].
    rewrite (same_but_slots_pressed_media _ _ Hs).
    reflexivity.
Qed.

(** The media code depends on [fn_pressed] and [pressed_media] only; the
    two loops of [update_keys_to_send] change neither. *)
Ltac step_option :=
  match goal with
  | |- (?x ≫= _) = Some _ -> _ => destruct x; simpl; [|discriminate]
  | |- (if ?c then _ else _) = Some _ -> _ => destruct c; simpl
  | |- Some _ = Some _ -> _ => intros [= <-]; auto
  | |- None = Some _ -> _ => discriminate
  end.

Lemma release_slot_media (i : nat) (t t' : Board) :
  release_slot i t = Some t' ->
  fn_pressed t' = fn_pressed t /\ pressed_media t' = pressed_media t.
Proof. unfold release_slot. repeat step_option. Qed.

Lemma try_place_key_media (k : Key) (t t' : Board) (placed : bool) :
  try_place_key k t = Some (t', placed) ->
  fn_pressed t' = fn_pressed t /\ pressed_media t' = pressed_media t.
Proof.
  unfold try_place_key.
  match goal with |- context [find_slot ?a ?b ?c ?d] =>
    destruct (find_slot a b c d) as [[[l [|]]|]|] end; simpl;
    [ | intros [= <- _]; auto | intros [= <- _]; auto | discriminate].
  destruct (store (keys_to_send t) l k); simpl; [|discriminate].
  match goal with |- (?x ≫= _) = Some _ -> _ => destruct x end;
    simpl; [|discriminate].
  intros [= <- _]. auto.
Qed.

Lemma place_pressed_media (i : nat) (t t' : Board) :
  place_pressed i t = Some t' ->
  fn_pressed t' = fn_pressed t /\ pressed_media t' = pressed_media t.
Proof.
  unfold place_pressed.
  destruct (curr_pressed_keys t !! i) as [k|]; simpl; [|discriminate].
  destruct (is_dummy k); simpl; [intros [= <-]; auto|].
  destruct (try_place_key k t) as [[t1 p]|] eqn:Ht; simpl; [|discriminate].
  intros [= <-]. exact (try_place_key_media _ _ _ _ Ht).
Qed.

Lemma update_keys_to_send_media (b b' : Board) :
  update_keys_to_send b = Some b' ->
  current_media b' = media_code (fn_pressed b) (pressed_media b).
Proof.
  unfold update_keys_to_send, remove_released_keys.
  destruct (for_upto MAX_NUM_KEYS release_slot b) as [b1|] eqn:H1;
    simpl; [|discriminate].
  destruct (for_upto MAX_NUM_KEYS place_pressed b1) as [b2|] eqn:H2;
    simpl; [|discriminate].
  intros [= <-]. simpl.
  assert (E1 : fn_pressed b1 = fn_pressed b /\
               pressed_media b1 = pressed_media b).
  { apply (for_upto_inv
             (fun _ t => fn_pressed t = fn_pressed b /\
                         pressed_media t = pressed_media b)
             release_slot MAX_NUM_KEYS b b1); auto.
    intros i t t' _ [E F] Hs. apply release_slot_media in Hs as [-> ->].
    auto. }
  assert (E2 : fn_pressed b2 = fn_pressed b1 /\
               pressed_media b2 = pressed_media b1).
  { apply (for_upto_inv
             (fun _ t => fn_pressed t = fn_pressed b1 /\
                         pressed_media t = pressed_media b1)
             place_pressed MAX_NUM_KEYS b1 b2); auto.
    intros i t t' _ [E F] Hs. apply place_pressed_media in Hs as [-> ->].
    auto. }
  destruct E1 as [<- <-], E2 as [<- <-]. reflexivity.
Qed.

Lemma send_keys_spec (b : Board) :
  wf b ->
  send_keys b =
  Some (mkReport (codes_to_send b) (current_modifier b) (current_media b)).
Proof.
  intros [_ _ _ _ Hc]. unfold send_keys.
  destruct (codes_to_send b) as [|c1 [|c2 [|c3 [|c4 [|c5 [|c6 [|c7 l]]]]]]];
    try discriminate.
  reflexivity.
Qed.

Lemma set_current_media_wf (v : Z) (b : Board) :
  wf b -> wf (set_current_media v b).
Proof. intros [H1 H2 H3 H4 H5]. constructor; assumption. Qed.

(** One cycle, from a state whose slots hold no key twice. *)
Lemma update_cycle (read : nat -> nat -> bool) (b : Board) :
  hid_nonneg -> wf b -> no_duplicate b ->
  exists b0 fr b2,
    cycle_start b b0 /\ scanned read b = Some fr /\
    scan_frame KEYS read b0 fr /\
    remove_released_keys fr = Some (release_upto MAX_NUM_KEYS fr) /\
    for_upto MAX_NUM_KEYS place_pressed (release_upto MAX_NUM_KEYS fr)
      = Some b2 /\
    placing (release_upto MAX_NUM_KEYS fr) MAX_NUM_KEYS b2 /\
    update read b =
    Some (set_current_media
            (media_code (fn_pressed fr) (pressed_media fr)) b2,
          mkReport (codes_to_send b2) (current_modifier b2)
            (media_code (fn_pressed fr) (pressed_media fr))).
Proof.
  intros Hh Hwf Hnd.
  destruct (scanned_spec read b Hh Hwf) as (b0 & fr & Hb0 & Hcs & Hfr & Hsf).
  pose proof (sf_keeps _ _ _ _ Hsf) as Hk.
  assert (Hn : num_keys_released fr = 0).
  { rewrite (sk_num_released _ _ Hk). exact (cs_num_released _ _ Hcs). }
  assert (Hndf : no_duplicate fr).
  { unfold no_duplicate. rewrite (sk_keys _ _ Hk), (cs_keys _ _ Hcs).
    exact Hnd. }
  destruct (update_keys_to_send_spec fr (sk_wf _ _ Hk) Hndf Hn)
    as (b2 & Hloop & Hpl & Hu).
  exists b0, fr, b2.
  split; [exact Hcs|]. split; [exact Hfr|]. split; [exact Hsf|].
  split; [|split; [exact Hloop|split; [exact Hpl|]]].
  - apply remove_released_keys_spec; [exact (sk_wf _ _ Hk) | exact Hn].
  - unfold scanned in Hfr. unfold update.
    destruct (begin_cycle b) as [b0'|]; [|discriminate].
    simpl in Hfr |- *. rewrite Hfr. simpl. rewrite Hu. simpl.
    rewrite send_keys_spec
      by (apply set_current_media_wf; exact (pl_wf _ _ _ Hpl)).
    reflexivity.
Qed.

(** ** [init] *)

Lemma init_buffers_loop (b : Board) :
  wf b ->
  for_upto MAX_NUM_KEYS init_buffers b =
  Some (set_codes_to_send (replicate MAX_NUM_KEYS KEY_DUMMY)
          (set_keys_to_send (replicate MAX_NUM_KEYS Key_0)
             (set_curr_pressed_keys (replicate MAX_NUM_KEYS Key_0) b))).
Proof.
  intros [Hc _ _ Hk Hcs].
  destruct (for_upto_ind
    (fun i t => t =
       set_codes_to_send
         (replicate i KEY_DUMMY ++ drop i (codes_to_send b))
         (set_keys_to_send (replicate i Key_0 ++ drop i (keys_to_send b))
            (set_curr_pressed_keys
               (replicate i Key_0 ++ drop i (curr_pressed_keys b)) b)))
    init_buffers MAX_NUM_KEYS b) as (b' & Hb' & ->).
  - destruct b. reflexivity.
  - intros i t Hi ->. eexists. split; [|reflexivity].
    destruct (lookup_lt_is_Some_2 (curr_pressed_keys b) i) as [x Hx]; [lia|].
    destruct (lookup_lt_is_Some_2 (keys_to_send b) i) as [y Hy]; [lia|].
    destruct (lookup_lt_is_Some_2 (codes_to_send b) i) as [z Hz]; [lia|].
    unfold init_buffers. simpl.
    rewrite (drop_S _ _ _ Hx), (drop_S _ _ _ Hy), (drop_S _ _ _ Hz).
    rewrite !store_lt by list_len.
    rewrite !insert_middle by list_len.
    simpl. rewrite !replicate_cons_app. reflexivity.
  - rewrite Hb'. rewrite !drop_ge, !app_nil_r by lia. reflexivity.
Qed.

Lemma init_all_pressed_loop (b : Board) :
  wf b ->
  for_upto (NUM_ROWS * NUM_COLS) init_all_pressed b =
  Some (set_all_pressed_keys (replicate (NUM_ROWS * NUM_COLS) Key_0) b).
Proof.
  intros [_ Ha _ _ _].
  destruct (for_upto_ind
    (fun i t => t =
       set_all_pressed_keys
         (replicate i Key_0 ++ drop i (all_pressed_keys b)) b)
    init_all_pressed (NUM_ROWS * NUM_COLS) b) as (b' & Hb' & ->).
  - destruct b. reflexivity.
  - intros i t Hi ->. eexists. split; [|reflexivity].
    destruct (lookup_lt_is_Some_2 (all_pressed_keys b) i) as [x Hx]; [lia|].
    unfold init_all_pressed.
    cbn [all_pressed_keys set_all_pressed_keys].
    rewrite (drop_S _ _ _ Hx).
    rewrite store_lt by (rewrite length_app, length_replicate; simpl; lia).
    rewrite insert_middle by apply length_replicate.
    rewrite bind_Some_l, replicate_cons_app. reflexivity.
  - rewrite Hb'. rewrite drop_ge, app_nil_r by lia. reflexivity.
Qed.

Lemma init_spec (b0 : Board) :
  wf b0 ->
  exists b, init b0 = Some b /\ wf b /\
    keys_to_send b = replicate MAX_NUM_KEYS Key_0 /\
    codes_to_send b = replicate MAX_NUM_KEYS KEY_DUMMY.
Proof.
  intros Hwf. pose proof Hwf as [H1 H2 H3 H4 H5]. unfold init.
  rewrite init_buffers_loop by (constructor; assumption).
  rewrite bind_Some_l.
  rewrite init_all_pressed_loop
    by (constructor; simpl; rewrite ?length_replicate; auto).
  eexists. split; [reflexivity|].
  split; [|split; reflexivity].
  constructor; simpl; rewrite ?length_replicate; auto.
Qed.

(** ** The invariants across a cycle *)

Lemma distinct_keys_sound (l : list Key) (i j : nat) (a c : Key) :
  distinct_keys l = true ->
  l !! i = Some a -> l !! j = Some c ->
  is_dummy a = false -> key_eq a c = true -> i = j.
Proof.
  assert (Hlt : forall l i j a c, distinct_keys l = true ->
            l !! i = Some a -> l !! j = Some c -> is_dummy a = false ->
            key_eq a c = true -> i < j -> False).
  { clear. induction l as [|x l IH]; intros i j a c Hd Hi Hj Ha He Hij.
    - discriminate.
    - simpl in Hd. apply andb_true_iff in Hd as [Hx Hd].
      destruct i as [|i], j as [|j]; simpl in *; try lia.
      + injection Hi as ->. rewrite Ha in Hx. simpl in Hx.
        apply negb_true_iff in Hx.
        assert (existsb (key_eq a) l = true); [|congruence].
        apply existsb_exists. exists c. split; [|exact He].
        apply list_elem_of_In, list_elem_of_lookup. eauto.
      + apply (IH i j a c); auto. lia. }
  intros Hd Hi Hj Ha He.
  destruct (Nat.lt_trichotomy i j) as [H|[H|H]]; [|exact H|].
  - exfalso. exact (Hlt l i j a c Hd Hi Hj Ha He H).
  - exfalso. apply (Hlt l j i c a Hd Hj Hi); auto.
    + rewrite <- (key_eq_dummy _ _ He). exact Ha.
    + rewrite key_eq_sym. exact He.
Qed.

Lemma distinct_keys_no_duplicate (b : Board) :
  distinct_keys (keys_to_send b) = true -> no_duplicate b.
Proof.
  intros Hd i j a c. apply distinct_keys_sound. exact Hd.
Qed.

Lemma empty_no_duplicate (b : Board) :
  keys_to_send b = replicate MAX_NUM_KEYS Key_0 -> no_duplicate b.
Proof.
  intros Hk i j a c Ha _ Hd. rewrite Hk in Ha.
  apply lookup_replicate in Ha as [-> _]. discriminate.
Qed.

Lemma empty_codes_agree (b : Board) :
  keys_to_send b = replicate MAX_NUM_KEYS Key_0 ->
  codes_to_send b = replicate MAX_NUM_KEYS KEY_DUMMY -> codes_agree b.
Proof.
  intros Hk Hc i k c Hki Hci. rewrite Hk in Hki. rewrite Hc in Hci.
  apply lookup_replicate in Hki as [-> _].
  apply lookup_replicate in Hci as [-> _]. split; reflexivity.
Qed.

(** The keys of the scanned buffer are entries of the table. *)
Lemma scanned_curr_elem (layout : nat -> nat -> Key)
    (read : nat -> nat -> bool) (c : Key) :
  c ∈ ordinary_pressed layout read ->
  is_ordinary c = true /\ is_dummy c = false /\
  exists row col, row < NUM_ROWS /\ col < NUM_COLS /\ c = layout row col.
Proof.
  intros Hc. unfold ordinary_pressed in Hc.
  assert (Hc' : c ∈ ordinary_seen layout read)
    by (eapply elem_of_sublist; [exact Hc | apply sublist_take]).
  clear Hc. unfold ordinary_seen in Hc'.
  apply list_elem_of_filter in Hc' as [Ho Hp].
  apply pressed_keys_elem in Hp as (row & col & Hr & Hcol & Hcl & ->).
  split; [exact Ho|]. split; [|eauto].
  unfold closed in Hcl. apply andb_true_iff in Hcl as [Hd _].
  apply negb_true_iff in Hd. exact Hd.
Qed.

Section Cycle.

Variable read : nat -> nat -> bool.
Variables b b0 fr b2 : Board.
Hypothesis Hstart : cycle_start b b0.
Hypothesis Hframe : scan_frame KEYS read b0 fr.
Hypothesis Hplacing : placing (release_upto MAX_NUM_KEYS fr) MAX_NUM_KEYS b2.

Lemma frame_wf : wf fr.
Proof. exact (sk_wf _ _ (sf_keeps _ _ _ _ Hframe)). Qed.

Lemma frame_keys : keys_to_send fr = keys_to_send b.
Proof.
  rewrite (sk_keys _ _ (sf_keeps _ _ _ _ Hframe)). exact (cs_keys _ _ Hstart).
Qed.

Lemma frame_codes : codes_to_send fr = codes_to_send b.
Proof.
  rewrite (sk_codes _ _ (sf_keeps _ _ _ _ Hframe)).
  exact (cs_codes _ _ Hstart).
Qed.

Lemma frame_curr :
  curr_pressed_keys fr =
  fill 0 (ordinary_seen KEYS read) (replicate MAX_NUM_KEYS Key_0).
Proof. rewrite (sf_curr _ _ _ _ Hframe), (cs_curr _ _ Hstart). reflexivity. Qed.

Lemma frame_released :
  just_released_keys fr = replicate MAX_NUM_KEYS Key_0 /\
  num_keys_released fr = 0.
Proof.
  destruct (sf_keeps _ _ _ _ Hframe) as [_ _ _ -> -> _].
  split; [exact (cs_released _ _ Hstart) | exact (cs_num_released _ _ Hstart)].
Qed.

Lemma frame_pressed_in (k : Key) :
  is_dummy k = false ->
  pressed_in (curr_pressed_keys fr) k =
  pressed_in (ordinary_pressed KEYS read) k.
Proof. intros Hk. rewrite frame_curr. apply fill_pressed_in. exact Hk. Qed.

Lemma frame_curr_elem (c : Key) :
  c ∈ curr_pressed_keys fr -> is_dummy c = false ->
  c ∈ ordinary_pressed KEYS read.
Proof.
  rewrite frame_curr. intros Hc Hd.
  apply fill_elem in Hc as [Hc| ->]; [exact Hc | discriminate].
Qed.

(** A slot whose key is held keeps its key and its code. *)
Lemma cycle_held (i : nat) (k : Key) :
  keys_to_send b !! i = Some k -> is_dummy k = false -> held k read ->
  keys_to_send b2 !! i = Some k /\
  codes_to_send b2 !! i = codes_to_send b !! i.
Proof.
  intros Hk Hd Hheld.
  pose proof frame_wf as Hwf.
  assert (Hrel : released (curr_pressed_keys fr) k = false).
  { unfold released. rewrite frame_pressed_in by exact Hd.
    unfold held in Hheld. rewrite Hheld, Hd. reflexivity. }
  rewrite <- frame_keys in Hk.
  pose proof (released_slot fr Hwf i k Hk) as Hk1.
  unfold release_key in Hk1. rewrite Hrel in Hk1.
  destruct (pl_kept _ _ _ Hplacing i k Hk1 Hd) as [Hk2 Hc2].
  split; [exact Hk2|]. rewrite Hc2.
  destruct (lookup_lt_is_Some_2 (codes_to_send fr) i) as [c Hc].
  { apply lookup_lt_Some in Hk. destruct Hwf. lia. }
  rewrite (released_code fr Hwf i k c Hk Hc).
  unfold release_code. rewrite Hrel, <- frame_codes. symmetry. exact Hc.
Qed.

(** After the cycle every slot either is as it was before the cycle, or
    was free and now holds a key of this scan with the code computed from
    the layer keys of this scan. *)
Lemma cycle_origin (i : nat) (s : Key) :
  keys_to_send b2 !! i = Some s -> is_dummy s = false ->
  (keys_to_send b !! i = Some s /\
   codes_to_send b2 !! i = codes_to_send b !! i) \/
  (s ∈ ordinary_pressed KEYS read /\
   codes_to_send b2 !! i =
   Some (to_uint8 (layer_code (fn_pressed fr) (fn2_pressed fr) s))).
Proof.
  intros Hs Hd. pose proof frame_wf as Hwf.
  destruct (pl_origin _ _ _ Hplacing i s Hs)
    as [[Hk1 Hc1]|(s0 & _ & _ & Hin & _ & Hc)].
  - left. apply (released_slot_inv fr Hwf) in Hk1 as (k & Hk & Hsk).
    unfold release_key in Hsk.
    destruct (released (curr_pressed_keys fr) k) eqn:Hrel.
    { subst s. discriminate. }
    subst s. rewrite <- frame_keys. split; [exact Hk|].
    rewrite Hc1.
    destruct (lookup_lt_is_Some_2 (codes_to_send fr) i) as [c Hc].
    { apply lookup_lt_Some in Hk. destruct Hwf. lia. }
    rewrite (released_code fr Hwf i k c Hk Hc).
    unfold release_code. rewrite Hrel, <- frame_codes. symmetry. exact Hc.
  - right. split; [|exact Hc]. apply frame_curr_elem; assumption.
Qed.

Lemma cycle_no_duplicate : no_duplicate b2.
Proof. exact (pl_nodup _ _ _ Hplacing). Qed.

Lemma cycle_codes_agree :
  hid_low_byte -> codes_agree b -> codes_agree b2.
Proof.
  intros Hlow Hag i s c Hs Hc. pose proof frame_wf as Hwf.
  destruct (is_dummy s) eqn:Hd.
  - destruct (pl_origin _ _ _ Hplacing i s Hs)
      as [[Hk1 Hc1]|(s0 & _ & _ & _ & Hnd & _)]; [|congruence].
    assert (Hag1 : codes_agree (release_upto MAX_NUM_KEYS fr)).
    { apply released_codes_agree; [exact Hwf|].
      unfold codes_agree. rewrite frame_keys, frame_codes. exact Hag. }
    rewrite Hc1 in Hc. pose proof (Hag1 i s c Hk1 Hc) as H.
    rewrite Hd in H. exact H.
  - destruct (cycle_origin i s Hs Hd) as [[Hk Hcb]|[Hin Hcv]].
    + rewrite Hcb in Hc. pose proof (Hag i s c Hk Hc) as H.
      rewrite Hd in H. exact H.
    + rewrite Hcv in Hc. injection Hc as <-.
      destruct (scanned_curr_elem _ _ _ Hin)
        as (Ho & _ & row & col & _ & _ & ->).
      split; [discriminate|]. intros Hz. exfalso.
      apply (table_entry_visible (KEYS row col) Hlow) in Hz; auto.
      apply at_table_entry, KEYS_rows_entries.
Qed.

End Cycle.

(** A cycle keeps the state well formed and free of duplicates. *)
Lemma cycle_inv (read : nat -> nat -> bool) (b : Board) :
  hid_nonneg -> wf b -> no_duplicate b ->
  exists b' r, update read b = Some (b', r) /\ wf b' /\ no_duplicate b' /\
    report_keys r = codes_to_send b' /\ report_media r = current_media b'.
Proof.
  intros Hh Hwf Hnd.
  destruct (update_cycle read b Hh Hwf Hnd)
    as (b0 & fr & b2 & Hcs & Hfr & Hsf & _ & _ & Hpl & Hu).
  eexists _, _. split; [exact Hu|].
  split; [apply set_current_media_wf; exact (pl_wf _ _ _ Hpl)|].
  split; [exact (pl_nodup _ _ _ Hpl)|]. split; reflexivity.
Qed.

(** A cycle in which the key of a slot is held. *)
Lemma held_cycle (read : nat -> nat -> bool) (b : Board) (i : nat) (k : Key) :
  hid_nonneg -> wf b -> no_duplicate b ->
  keys_to_send b !! i = Some k -> is_dummy k = false -> held k read ->
  exists b' r, update read b = Some (b', r) /\ wf b' /\ no_duplicate b' /\
    keys_to_send b' !! i = Some k /\
    codes_to_send b' !! i = codes_to_send b !! i.
Proof.
  intros Hh Hwf Hnd Hk Hd Hheld.
  destruct (update_cycle read b Hh Hwf Hnd)
    as (b0 & fr & b2 & Hcs & Hfr & Hsf & _ & _ & Hpl & Hu).
  eexists _, _. split; [exact Hu|].
  split; [apply set_current_media_wf; exact (pl_wf _ _ _ Hpl)|].
  split; [exact (pl_nodup _ _ _ Hpl)|].
  exact (cycle_held read b b0 fr b2 Hcs Hsf Hpl i k Hk Hd Hheld).
Qed.

(** A run of cycles in each of which the key of a slot is held. *)
Lemma held_run (reads : list (nat -> nat -> bool)) (b : Board) (i : nat)
    (k : Key) :
  hid_nonneg -> wf b -> no_duplicate b ->
  keys_to_send b !! i = Some k -> is_dummy k = false ->
  Forall (held k) reads ->
  exists b', run reads b = Some b' /\ wf b' /\ no_duplicate b' /\
    keys_to_send b' !! i = Some k /\
    codes_to_send b' !! i = codes_to_send b !! i.
Proof.
  intros Hh. revert b.
  induction reads as [|read reads IH]; intros b Hwf Hnd Hk Hd Hall.
  - exists b. simpl. auto.
  - apply Forall_cons in Hall as [Hheld Hall].
    destruct (held_cycle read b i k Hh Hwf Hnd Hk Hd Hheld)
      as (b1 & r & Hu & Hwf1 & Hnd1 & Hk1 & Hc1).
    destruct (IH b1 Hwf1 Hnd1 Hk1 Hd Hall)
      as (b' & Hrun & Hwf' & Hnd' & Hk' & Hc').
    exists b'. simpl. rewrite Hu. simpl.
    split; [exact Hrun|]. split; [exact Hwf'|]. split; [exact Hnd'|].
    split; [exact Hk'|]. rewrite Hc'. exact Hc1.
Qed.

(** A key that is in a slot already is not placed again. *)
Lemma try_place_key_resident (a c : Key) (b : Board) (i : nat) :
  wf b -> is_dummy c = false ->
  keys_to_send b !! i = Some a -> key_eq a c = true ->
  try_place_key c b = Some (b, false).
Proof.
  intros Hwf Hd Ha He.
  destruct (try_place_key_spec c b Hwf Hd)
    as [(j & s & _ & _ & H)|[(Hno & _)|(Hno & _)]];
    [exact H | |]; rewrite (Hno i a Ha) in He; discriminate.
Qed.


(** *** Helpers for the release list and for the capacity *)

Lemma released_keys_NoDup (cur kts : list Key) :
  (forall i j a c, kts !! i = Some a -> kts !! j = Some c ->
     is_dummy a = false -> key_eq a c = true -> i = j) ->
  NoDup (kid <$> released_keys cur kts).
Proof.
  induction kts as [|x l IH]; intros Hu; [constructor|].
  assert (Hl : NoDup (kid <$> released_keys cur l)).
  { apply IH. intros i j a c Ha Hc Hd He.
    assert (S i = S j) by (apply (Hu (S i) (S j) a c); auto). lia. }
  unfold released_keys in *. destruct (released cur x) eqn:Hr.
  - rewrite filter_cons_True by assumption. rewrite fmap_cons.
    apply NoDup_cons. split; [|exact Hl].
    intros Hin. apply list_elem_of_fmap in Hin as (s & He & Hs).
    apply list_elem_of_filter in Hs as [_ Hs].
    apply list_elem_of_lookup in Hs as [j Hj].
    unfold released in Hr. apply andb_true_iff in Hr as [Hd _].
    apply negb_true_iff in Hd.
    assert (0 = S j); [|lia].
    apply (Hu 0 (S j) x s); auto. apply key_eq_kid. exact He.
  - rewrite filter_cons_False by congruence. exact Hl.
Qed.

(** A released key is in the release list exactly once. *)
Lemma released_once (cur kts : list Key) (i : nat) (k : Key) :
  (forall i j a c, kts !! i = Some a -> kts !! j = Some c ->
     is_dummy a = false -> key_eq a c = true -> i = j) ->
  kts !! i = Some k -> released cur k = true ->
  exists p, released_keys cur kts !! p = Some k /\
    forall p' s, released_keys cur kts !! p' = Some s ->
                 key_eq s k = true -> p' = p.
Proof.
  intros Hu Hk Hr.
  assert (Hin : k ∈ released_keys cur kts).
  { apply list_elem_of_filter. split; [exact Hr|].
    apply list_elem_of_lookup. eauto. }
  apply list_elem_of_lookup in Hin as [p Hp].
  exists p. split; [exact Hp|]. intros p' s Hs He.
  pose proof (released_keys_NoDup cur kts Hu) as Hnd.
  apply (proj1 (NoDup_alt _) Hnd p' p (kid k)).
  - rewrite list_lookup_fmap, Hs. simpl. f_equal. apply key_eq_kid. exact He.
  - rewrite list_lookup_fmap, Hp. reflexivity.
Qed.

(** As many distinct keys as there are slots, each of them in a slot: no
    slot is free. *)
Lemma all_slots_occupied (ks kts : list Key) :
  NoDup (kid <$> ks) -> length ks = length kts ->
  (forall c, c ∈ ks -> exists i s, kts !! i = Some s /\ key_eq s c = true /\
                                   is_dummy s = false) ->
  forall i s, kts !! i = Some s -> is_dummy s = false.
Proof.
  intros Hnd Hlen Hin i s Hs.
  destruct (is_dummy s) eqn:Hd; [exfalso | reflexivity].
  assert (Hsub : forall x, x ∈ kid <$> ks ->
            x ∈ kid <$> filter (fun s => is_dummy s = false) kts).
  { intros x Hx. apply list_elem_of_fmap in Hx as (c & -> & Hc).
    destruct (Hin c Hc) as (j & t & Ht & He & Hdt).
    apply key_eq_kid in He. rewrite <- He.
    apply list_elem_of_fmap_2, list_elem_of_filter. split; [exact Hdt|].
    apply list_elem_of_lookup. eauto. }
  pose proof (submseteq_length _ _ (NoDup_submseteq _ _ Hnd Hsub)) as Hle.
  rewrite !length_fmap in Hle.
  assert (Hlt : length (filter (fun s => is_dummy s = false) kts)
                < length kts).
  { apply (length_filter_lt _ _ s); [|congruence].
    apply list_elem_of_lookup. eauto. }
  lia.
Qed.

Lemma same_but_slots_released (b t : Board) :
  same_but_slots b t ->
  just_released_keys t = just_released_keys b /\
  num_keys_released t = num_keys_released b /\
  num_keys_pressed t = num_keys_pressed b.
Proof.
  intros H. split; [|split].
  - apply (f_equal just_released_keys) in H. exact H.
  - apply (f_equal num_keys_released) in H. exact H.
  - apply (f_equal num_keys_pressed) in H. exact H.
Qed.

Section CycleMore.

Variable read : nat -> nat -> bool.
Variables b b0 fr b2 : Board.
Hypothesis Hstart : cycle_start b b0.
Hypothesis Hframe : scan_frame KEYS read b0 fr.
Hypothesis Hplacing : placing (release_upto MAX_NUM_KEYS fr) MAX_NUM_KEYS b2.

(** Every key of the scanned buffer is in a slot after the cycle. *)
Lemma cycle_placed (c : Key) :
  c ∈ ordinary_pressed KEYS read ->
  exists i s, keys_to_send b2 !! i = Some s /\ key_eq s c = true /\
              is_dummy s = false.
Proof.
  intros Hc.
  destruct (scanned_curr_elem _ _ _ Hc) as (_ & Hd & _).
  apply list_elem_of_lookup in Hc as [j Hj].
  apply lookup_take_Some in Hj as [Hj Hlt].
  destruct (pl_placed _ _ _ Hplacing j c Hlt) as (i & s & Hs & He).
  - change (curr_pressed_keys fr !! j = Some c).
    rewrite (frame_curr read b b0 fr Hstart Hframe).
    rewrite fill_lookup by apply length_replicate.
    pose proof (lookup_lt_Some _ _ _ Hj).
    rewrite decide_True by lia. rewrite Nat.sub_0_r. exact Hj.
  - exact Hd.
  - exists i, s. split; [exact Hs|]. split; [exact He|].
    rewrite (key_eq_dummy _ _ He). exact Hd.
Qed.

(** Every occupied slot holds a key of the scanned buffer. *)
Lemma cycle_slot_pressed (i : nat) (s : Key) :
  keys_to_send b2 !! i = Some s -> is_dummy s = false ->
  pressed_in (ordinary_pressed KEYS read) s = true.
Proof.
  intros Hs Hd.
  rewrite <- (frame_pressed_in read b b0 fr Hstart Hframe s Hd).
  pose proof (pl_pressed _ _ _ Hplacing i s Hs Hd) as Hp.
  rewrite (same_but_slots_curr _ _ (pl_same _ _ _ Hplacing)) in Hp.
  exact Hp.
Qed.

Lemma cycle_num_pressed :
  num_keys_pressed b2 = length (ordinary_seen KEYS read).
Proof.
  destruct (same_but_slots_released _ _ (pl_same _ _ _ Hplacing))
    as (_ & _ & ->).
  exact (sf_num_pressed _ _ _ _ Hframe).
Qed.

End CycleMore.

(** *** The cycle never fails *)

Lemma place_loop_total (b1 : Board) :
  wf b1 ->
  exists b2, for_upto MAX_NUM_KEYS place_pressed b1 = Some b2 /\ wf b2.
Proof.
  intros Hwf. apply (for_upto_ind (fun _ t => wf t)); [exact Hwf|].
  intros i t Hi Ht.
  destruct (lookup_lt_is_Some_2 (curr_pressed_keys t) i) as [k Hk].
  { destruct Ht. lia. }
  unfold place_pressed. rewrite Hk, bind_Some_l.
  destruct (is_dummy k) eqn:Hd; simpl; [eauto|].
  destruct (try_place_key_spec k t Ht Hd)
    as [(_ & _ & _ & _ & ->)|[(_ & _ & ->)|(_ & l & s & _ & _ & _ & ->)]];
    simpl; eauto using place_at_wf.
Qed.

Lemma update_keys_to_send_total (b : Board) :
  wf b -> num_keys_released b = 0 ->
  exists b', update_keys_to_send b = Some b' /\ wf b'.
Proof.
  intros Hwf Hn. unfold update_keys_to_send.
  rewrite remove_released_keys_spec by assumption. rewrite bind_Some_l.
  destruct (place_loop_total (release_upto MAX_NUM_KEYS b))
    as (b2 & -> & Hwf2); [apply released_wf; exact Hwf|].
  rewrite bind_Some_l. eexists. split; [reflexivity|].
  apply set_current_media_wf. exact Hwf2.
Qed.

Lemma update_total (read : nat -> nat -> bool) (b : Board) :
  hid_nonneg -> wf b ->
  exists b0 fr b',
    cycle_start b b0 /\ scanned read b = Some fr /\
    scan_frame KEYS read b0 fr /\ update_keys_to_send fr = Some b' /\
    wf b' /\
    update read b =
    Some (b', mkReport (codes_to_send b') (current_modifier b')
                (current_media b')).
Proof.
  intros Hh Hwf.
  destruct (scanned_spec read b Hh Hwf) as (b0 & fr & Hb0 & Hcs & Hfr & Hsf).
  destruct (frame_released read b b0 fr Hcs Hsf) as [_ Hn].
  destruct (update_keys_to_send_total fr (frame_wf read b0 fr Hsf) Hn)
    as (b' & Hu & Hwf').
  exists b0, fr, b'. repeat (split; [assumption|]).
  unfold scanned in Hfr. unfold update.
  destruct (begin_cycle b) as [b0'|]; [|discriminate].
  simpl in Hfr |- *. rewrite Hfr. simpl. rewrite Hu. simpl.
  rewrite send_keys_spec by exact Hwf'. reflexivity.
Qed.

(** ** Further facts about the code *)

(** *** The scan in full: layer flags, modifier mask, [all_pressed_keys] *)

Lemma is_fn_not_fn2 (k : Key) : is_fn k = true -> is_fn2 k = false.
Proof.
  unfold is_fn, is_fn2. intros H. apply Z.eqb_eq in H. rewrite H.
  reflexivity.
Qed.

Ltac conj_auto := repeat (split; [solve [auto]|]); auto.

Lemma scan_pressed_flags (k : Key) (b b' : Board) :
  scan_pressed k b = Some b' ->
  fn_pressed b' = fn_pressed b || is_fn k /\
  fn2_pressed b' = fn2_pressed b || is_fn2 k /\
  current_modifier b' = add_modifier (current_modifier b) k /\
  tot_num_keys_pressed b < length (all_pressed_keys b) /\
  all_pressed_keys b' =
    <[tot_num_keys_pressed b := k]> (all_pressed_keys b) /\
  tot_num_keys_pressed b' = u8 (tot_num_keys_pressed b + 1).
Proof.
  unfold scan_pressed, add_modifier, reaches_modifier.
  destruct (store (all_pressed_keys b) (tot_num_keys_pressed b) k)
    as [all|] eqn:Hs; simpl; [|discriminate].
  apply store_Some in Hs as [Hlt ->].
  destruct (is_fn k) eqn:Efn; simpl.
  { rewrite (is_fn_not_fn2 k Efn). intros [= <-]. simpl.
    rewrite orb_true_r, orb_false_r. conj_auto. }
  destruct (is_fn2 k); simpl.
  { intros [= <-]. simpl. rewrite orb_true_r, orb_false_r. conj_auto. }
  destruct (is_modifier k); simpl.
  { destruct (translate_modifier (code k)); simpl; [|discriminate].
    intros [= <-]. simpl. rewrite !orb_false_r. conj_auto. }
  destruct (is_media k); simpl.
  { intros [= <-]. simpl. rewrite !orb_false_r. conj_auto. }
  match goal with |- (?x ≫= _) = _ -> _ => destruct x end;
    simpl; [|discriminate].
  intros [= <-]. simpl. rewrite !orb_false_r. conj_auto.
Qed.

Lemma scan_list_flags (keys : list Key) (b b' : Board) :
  for_each scan_pressed keys b = Some b' ->
  fn_pressed b' = fn_pressed b || existsb is_fn keys /\
  fn2_pressed b' = fn2_pressed b || existsb is_fn2 keys /\
  current_modifier b' = foldl add_modifier (current_modifier b) keys /\
  pressed_media b' = foldl last_media (pressed_media b) keys.
Proof.
  revert b. induction keys as [|k keys IH]; intros b; simpl.
  - intros [= <-]. rewrite !orb_false_r. auto.
  - destruct (scan_pressed k b) as [b1|] eqn:H1; simpl; [|discriminate].
    intros H. destruct (IH _ H) as (-> & -> & -> & ->).
    destruct (scan_pressed_flags _ _ _ H1) as (-> & -> & -> & _).
    rewrite (scan_pressed_media _ _ _ H1). rewrite !orb_assoc. auto.
Qed.

Lemma scan_list_all (keys : list Key) (b b' : Board) :
  for_each scan_pressed keys b = Some b' ->
  length (all_pressed_keys b) < 256 ->
  tot_num_keys_pressed b <= length (all_pressed_keys b) ->
  tot_num_keys_pressed b + length keys <= length (all_pressed_keys b) /\
  tot_num_keys_pressed b' = tot_num_keys_pressed b + length keys /\
  all_pressed_keys b' =
    take (tot_num_keys_pressed b) (all_pressed_keys b) ++ keys ++
    drop (tot_num_keys_pressed b + length keys) (all_pressed_keys b).
Proof.
  revert b. induction keys as [|k keys IH]; intros b; simpl.
  - intros [= <-] _ Ht. rewrite !Nat.add_0_r, take_drop. auto.
  - destruct (scan_pressed k b) as [b1|] eqn:H1; simpl; [|discriminate].
    intros H Hlen _.
    destruct (scan_pressed_flags _ _ _ H1) as (_ & _ & _ & Hlt & Ha & Ht).
    rewrite u8_small in Ht by lia.
    destruct (IH _ H) as (Hle & -> & ->).
    { rewrite Ha, length_insert. exact Hlen. }
    { rewrite Ha, length_insert, Ht. lia. }
    rewrite Ha, length_insert in Hle. rewrite Ht in Hle |- *.
    split; [lia|]. split; [lia|]. rewrite Ha.
    replace (tot_num_keys_pressed b + 1) with (S (tot_num_keys_pressed b))
      by lia.
    rewrite (take_S_r _ _ k) by (apply list_lookup_insert_eq; exact Hlt).
    rewrite take_insert_ge by lia. rewrite drop_insert_lt by lia.
    rewrite <- app_assoc. simpl.
    replace (tot_num_keys_pressed b + S (length keys))
      with (S (tot_num_keys_pressed b + length keys)) by lia.
    reflexivity.
Qed.

(** *** [reset_pressed_keys] and the start of a cycle, in full *)

Lemma reset_all_pressed_spec (n i : nat) (all : list Key) :
  i + n = length all ->
  reset_all_pressed (seq i n) all =
  Some (take i all ++ reset_list (drop i all)).
Proof.
  revert i all. induction n as [|n IH]; intros i all Hlen; simpl.
  - rewrite drop_ge by lia. rewrite take_ge by lia. simpl.
    rewrite app_nil_r. reflexivity.
  - destruct (lookup_lt_is_Some_2 all i) as [k Hk]; [lia|].
    rewrite Hk, bind_Some_l. rewrite (drop_S _ _ _ Hk). simpl.
    destruct (is_dummy k).
    + rewrite <- (drop_S _ _ _ Hk), take_drop. reflexivity.
    + rewrite store_lt by lia. rewrite bind_Some_l.
      rewrite IH by (rewrite length_insert; lia).
      rewrite (take_S_r _ _ Key_0) by (apply list_lookup_insert_eq; lia).
      rewrite take_insert_ge by lia. rewrite drop_insert_lt by lia.
      rewrite <- app_assoc. reflexivity.
Qed.

Lemma reset_list_length (l : list Key) : length (reset_list l) = length l.
Proof.
  induction l as [|k l IH]; simpl; [reflexivity|].
  destruct (is_dummy k); simpl; [reflexivity | rewrite IH; reflexivity].
Qed.

Lemma reset_list_split (l1 l2 : list Key) (d : Key) :
  Forall (fun k => is_dummy k = false) l1 -> is_dummy d = true ->
  reset_list (l1 ++ d :: l2) = replicate (length l1) Key_0 ++ d :: l2.
Proof.
  intros Hl Hd. induction Hl as [|k l1 Hk _ IH]; simpl.
  - rewrite Hd. reflexivity.
  - rewrite Hk, IH. reflexivity.
Qed.

Lemma packed_tail (k : Key) (l : list Key) : packed (k :: l) -> packed l.
Proof.
  intros Hp i j a c Hij Ha Hc.
  apply (Hp (S i) (S j)); [lia | exact Ha | exact Hc].
Qed.

Lemma reset_list_packed (l : list Key) :
  packed l -> Forall (fun k => is_dummy k = true) (reset_list l).
Proof.
  induction l as [|k l IH]; intros Hp; simpl; [constructor|].
  destruct (is_dummy k) eqn:Hk.
  - apply Forall_lookup. intros j c Hc.
    apply (Hp 0 j k c); [lia | reflexivity | exact Hc | exact Hk].
  - constructor; [apply Key_0_dummy|]. apply IH. exact (packed_tail _ _ Hp).
Qed.

Lemma begin_cycle_eq (b : Board) :
  wf b ->
  begin_cycle b =
  Some (mkBoard false false 0 0 0 (replicate MAX_NUM_KEYS Key_0)
          (reset_list (all_pressed_keys b)) (replicate MAX_NUM_KEYS Key_0)
          (keys_to_send b) (codes_to_send b) 0%Z Key_0 (current_media b)).
Proof.
  intros Hwf. pose proof Hwf as [H1 H2 H3 H4 H5].
  unfold begin_cycle, reset_pressed_keys.
  rewrite reset_buffers_loop by assumption. rewrite bind_Some_l.
  cbn [all_pressed_keys set_just_released_keys set_curr_pressed_keys].
  rewrite reset_all_pressed_spec by (rewrite H2; reflexivity).
  rewrite bind_Some_l. reflexivity.
Qed.

(** The scan of a cycle, as a function of the keys found pressed. *)
Lemma scanned_full (read : nat -> nat -> bool) (b fr : Board) :
  wf b -> scanned read b = Some fr ->
  fn_pressed fr = existsb is_fn (pressed_keys KEYS read) /\
  fn2_pressed fr = existsb is_fn2 (pressed_keys KEYS read) /\
  current_modifier fr = foldl add_modifier 0%Z (pressed_keys KEYS read) /\
  pressed_media fr = foldl last_media Key_0 (pressed_keys KEYS read) /\
  tot_num_keys_pressed fr = length (pressed_keys KEYS read) /\
  all_pressed_keys fr =
    pressed_keys KEYS read ++
    drop (length (pressed_keys KEYS read)) (reset_list (all_pressed_keys b)).
Proof.
  intros Hwf. unfold scanned. rewrite begin_cycle_eq by exact Hwf.
  rewrite bind_Some_l. unfold scan_keys. rewrite scan_layout_keys.
  intros H.
  destruct (scan_list_flags _ _ _ H) as (E1 & E2 & E3 & E4).
  destruct (scan_list_all _ _ _ H) as (_ & E5 & E6).
  { cbn [all_pressed_keys]. rewrite reset_list_length, (wf_all _ Hwf).
    bounds. }
  { cbn [all_pressed_keys tot_num_keys_pressed]. lia. }
  cbn [fn_pressed fn2_pressed current_modifier pressed_media
       tot_num_keys_pressed all_pressed_keys] in *.
  rewrite E1, E2, E3, E4, E5, E6. conj_auto.
Qed.

(** *** What the two phases of [update_keys_to_send] leave alone *)

Lemma release_slot_scan_part (i : nat) (t t' : Board) :
  release_slot i t = Some t' -> scan_part t' = scan_part t.
Proof. unfold release_slot. repeat step_option. Qed.

Lemma try_place_key_scan_part (k : Key) (t t' : Board) (placed : bool) :
  try_place_key k t = Some (t', placed) -> scan_part t' = scan_part t.
Proof.
  unfold try_place_key.
  match goal with |- context [find_slot ?a ?b ?c ?d] =>
    destruct (find_slot a b c d) as [[[l [|]]|]|] end; simpl;
    [ | intros [= <- _]; auto | intros [= <- _]; auto | discriminate].
  destruct (store (keys_to_send t) l k); simpl; [|discriminate].
  match goal with |- (?x ≫= _) = Some _ -> _ => destruct x end;
    simpl; [|discriminate].
  intros [= <- _]. auto.
Qed.

Lemma place_pressed_scan_part (i : nat) (t t' : Board) :
  place_pressed i t = Some t' -> scan_part t' = scan_part t.
Proof.
  unfold place_pressed.
  destruct (curr_pressed_keys t !! i) as [k|]; simpl; [|discriminate].
  destruct (is_dummy k); simpl; [intros [= <-]; auto|].
  destruct (try_place_key k t) as [[t1 p]|] eqn:Ht; simpl; [|discriminate].
  intros [= <-]. exact (try_place_key_scan_part _ _ _ _ Ht).
Qed.

Lemma update_keys_to_send_scan_part (b b' : Board) :
  update_keys_to_send b = Some b' -> scan_part b' = scan_part b.
Proof.
  unfold update_keys_to_send, remove_released_keys.
  destruct (for_upto MAX_NUM_KEYS release_slot b) as [b1|] eqn:H1;
    simpl; [|discriminate].
  destruct (for_upto MAX_NUM_KEYS place_pressed b1) as [b2|] eqn:H2;
    simpl; [|discriminate].
  intros [= <-].
  assert (E1 : scan_part b1 = scan_part b).
  { apply (for_upto_inv (fun _ t => scan_part t = scan_part b)
             release_slot MAX_NUM_KEYS b b1); auto.
    intros i t t' _ E Hs. rewrite <- E.
    exact (release_slot_scan_part _ _ _ Hs). }
  assert (E2 : scan_part b2 = scan_part b1).
  { apply (for_upto_inv (fun _ t => scan_part t = scan_part b1)
             place_pressed MAX_NUM_KEYS b1 b2); auto.
    intros i t t' _ E Hs. rewrite <- E.
    exact (place_pressed_scan_part _ _ _ Hs). }
  rewrite <- E1, <- E2. reflexivity.
Qed.

(** One cycle from any well-formed state: the state after the scan, and
    the members of the final state that the scan has computed. *)
Lemma update_scan (read : nat -> nat -> bool) (b : Board) :
  hid_nonneg -> wf b ->
  exists fr b',
    scanned read b = Some fr /\ update_keys_to_send fr = Some b' /\
    wf fr /\ wf b' /\ scan_part b' = scan_part fr /\
    update read b =
    Some (b', mkReport (codes_to_send b') (current_modifier fr)
                (media_code (fn_pressed fr) (pressed_media fr))).
Proof.
  intros Hh Hwf.
  destruct (update_total read b Hh Hwf)
    as (b0 & fr & b' & Hcs & Hfr & Hsf & Hu & Hwf' & Hupd).
  exists fr, b'. split; [exact Hfr|]. split; [exact Hu|].
  split; [exact (frame_wf read b0 fr Hsf)|]. split; [exact Hwf'|].
  pose proof (update_keys_to_send_scan_part _ _ Hu) as Hp.
  split; [exact Hp|]. rewrite Hupd.
  rewrite (update_keys_to_send_media _ _ Hu).
  unfold scan_part in Hp. injection Hp as _ _ _ _ _ _ -> _.
  reflexivity.
Qed.


(** *** The keys found pressed, position by position *)

Lemma filter_ext_Forall {A : Type} (P Q : A -> Prop)
    `{!forall x, Decision (P x)} `{!forall x, Decision (Q x)} (l : list A) :
  Forall (fun x => P x <-> Q x) l -> filter P l = filter Q l.
Proof.
  induction 1 as [|x l Hx _ IH]; [reflexivity|].
  rewrite !filter_cons, IH.
  destruct (decide (P x)), (decide (Q x)); tauto.
Qed.

Lemma flat_map_ext_Forall {A B : Type} (f g : A -> list B) (l : list A) :
  Forall (fun x => f x = g x) l -> flat_map f l = flat_map g l.
Proof.
  induction 1 as [|x l Hx _ IH]; simpl; [reflexivity|].
  rewrite Hx, IH. reflexivity.
Qed.

Lemma pressed_keys_same (layout : nat -> nat -> Key)
    (read1 read2 : nat -> nat -> bool) :
  same_switches layout read1 read2 ->
  pressed_keys layout read1 = pressed_keys layout read2.
Proof.
  intros Hs. unfold pressed_keys. apply flat_map_ext_Forall.
  apply Forall_forall. intros row Hrow. apply elem_of_seq in Hrow.
  unfold row_keys. f_equal. apply filter_ext_Forall.
  apply Forall_forall. intros col Hcol. apply elem_of_seq in Hcol.
  unfold closed. destruct (is_dummy (layout row col)) eqn:Hd; simpl.
  - split; discriminate.
  - rewrite (Hs row col) by (assumption || lia). reflexivity.
Qed.

Lemma pressed_keys_elem_2 (layout : nat -> nat -> Key)
    (read : nat -> nat -> bool) (row col : nat) :
  row < NUM_ROWS -> col < NUM_COLS -> closed layout read row col = true ->
  layout row col ∈ pressed_keys layout read.
Proof.
  intros Hr Hc Hcl. unfold pressed_keys. apply list_elem_of_In.
  apply in_flat_map. exists row. split.
  - apply in_seq. lia.
  - apply list_elem_of_In. unfold row_keys. apply list_elem_of_fmap_2.
    apply list_elem_of_filter. split; [exact Hcl|].
    apply elem_of_seq. lia.
Qed.

Lemma existsb_pressed_keys (layout : nat -> nat -> Key)
    (read : nat -> nat -> bool) (p : Key -> bool) :
  existsb p (pressed_keys layout read) = true <->
  exists row col, row < NUM_ROWS /\ col < NUM_COLS /\
    closed layout read row col = true /\ p (layout row col) = true.
Proof.
  rewrite existsb_exists. split.
  - intros (k & Hk & Hp). apply list_elem_of_In in Hk.
    apply pressed_keys_elem in Hk as (row & col & Hr & Hc & Hcl & ->).
    eauto 10.
  - intros (row & col & Hr & Hc & Hcl & Hp). exists (layout row col).
    split; [|exact Hp]. apply list_elem_of_In.
    apply pressed_keys_elem_2; assumption.
Qed.

Lemma pressed_keys_nondummy (layout : nat -> nat -> Key)
    (read : nat -> nat -> bool) :
  Forall (fun k => is_dummy k = false) (pressed_keys layout read).
Proof.
  apply Forall_forall. intros k Hk.
  apply pressed_keys_elem in Hk as (row & col & _ & _ & Hcl & ->).
  unfold closed in Hcl. destruct (is_dummy (layout row col)); [|reflexivity].
  discriminate.
Qed.

(** FN and FN2 are at the positions (4, 1) and (4, 2) of [KEYS] and nowhere
    else. *)
Lemma KEYS_layer_keys (row col : nat) :
  hid_nonneg -> row < NUM_ROWS -> col < NUM_COLS ->
  is_fn (KEYS row col) = (row =? 4) && (col =? 1) /\
  is_fn2 (KEYS row col) = (row =? 4) && (col =? 2).
Proof.
  intros Hh Hr Hc.
  assert (Hneg : forall t, (hid t =? -7)%Z = false /\ (hid t =? -8)%Z = false).
  { intros t. specialize (Hh t). split; apply Z.eqb_neq; lia. }
  unfold NUM_ROWS in Hr. unfold NUM_COLS in Hc.
  do 5 (destruct row as [|row];
        [do 14 (destruct col as [|col];
                [unfold KEYS, at_table, KEYS_rows, is_fn, is_fn2, K1, K2, K3d,
                   Key_0, Key_1, Key_2, Key_3, KEY_FN, KEY_FN2; simpl;
                 rewrite ?(proj1 (Hneg _)), ?(proj2 (Hneg _));
                 split; reflexivity|]); lia|]).
  lia.
Qed.

Lemma existsb_position (read : nat -> nat -> bool) (p : Key -> bool)
    (r c : nat) :
  r < NUM_ROWS -> c < NUM_COLS ->
  (forall row col, row < NUM_ROWS -> col < NUM_COLS ->
     p (KEYS row col) = (row =? r) && (col =? c)) ->
  is_dummy (KEYS r c) = false ->
  existsb p (pressed_keys KEYS read) = read r c.
Proof.
  intros Hr Hc Hp Hd. apply eq_true_iff_eq. rewrite existsb_pressed_keys.
  split.
  - intros (row & col & Hrow & Hcol & Hcl & Hk).
    rewrite Hp in Hk by assumption. apply andb_true_iff in Hk as [E1 E2].
    apply Nat.eqb_eq in E1, E2. subst. unfold closed in Hcl.
    apply andb_true_iff in Hcl as [_ Hcl]. exact Hcl.
  - intros Hread. exists r, c. split; [exact Hr|]. split; [exact Hc|].
    split.
    + unfold closed. rewrite Hd, Hread. reflexivity.
    + rewrite Hp by assumption. rewrite !Nat.eqb_refl. reflexivity.
Qed.

(** *** The modifier mask, bit by bit *)

Lemma foldl_add_modifier_bits (keys : list Key) (m n : Z) :
  Z.testbit (foldl add_modifier m keys) n =
  Z.testbit m n ||
  existsb (fun k => reaches_modifier k &&
             Z.testbit (default 0%Z (translate_modifier (code k))) n) keys.
Proof.
  revert m. induction keys as [|k keys IH]; intros m; simpl.
  - rewrite orb_false_r. reflexivity.
  - rewrite IH. unfold add_modifier.
    destruct (reaches_modifier k); simpl.
    + rewrite Z.lor_spec, orb_assoc. reflexivity.
    + reflexivity.
Qed.

(** *** The content of [curr_pressed_keys] after a scan *)

Lemma fill_prefix (ks : list Key) :
  fill 0 ks (replicate MAX_NUM_KEYS Key_0) =
  take MAX_NUM_KEYS ks ++
  replicate (MAX_NUM_KEYS - length (take MAX_NUM_KEYS ks)) Key_0.
Proof.
  apply list_eq. intros j.
  rewrite fill_lookup by apply length_replicate.
  assert (Hl : length (take MAX_NUM_KEYS ks) = min MAX_NUM_KEYS (length ks))
    by apply length_take.
  destruct (decide (0 <= j /\ j < MAX_NUM_KEYS /\ j - 0 < length ks))
    as [(_ & H1 & H2)|Hn].
  - rewrite Nat.sub_0_r in H2 |- *.
    rewrite lookup_app_l by lia. rewrite lookup_take_lt by exact H1.
    reflexivity.
  - destruct (decide (j < MAX_NUM_KEYS)) as [Hj|Hj].
    + rewrite lookup_app_r by lia.
      rewrite !lookup_replicate_2 by lia. reflexivity.
    + rewrite !lookup_ge_None_2; [reflexivity | |].
      * rewrite length_app, length_replicate. lia.
      * rewrite length_replicate. lia.
Qed.

Lemma packed_app (l1 l2 : list Key) :
  Forall (fun k => is_dummy k = false) l1 ->
  Forall (fun k => is_dummy k = true) l2 -> packed (l1 ++ l2).
Proof.
  intros H1 H2 i j a c Hij Ha Hc Hd.
  destruct (decide (i < length l1)) as [Hi|Hi].
  - rewrite lookup_app_l in Ha by exact Hi.
    rewrite (Forall_lookup_1 _ _ _ _ H1 Ha) in Hd. discriminate.
  - rewrite lookup_app_r in Hc by lia.
    exact (Forall_lookup_1 _ _ _ _ H2 Hc).
Qed.


(** *** [init] in full *)

Lemma init_eq (b0 : Board) :
  wf b0 ->
  init b0 =
  Some (mkBoard false false 0 (num_keys_released b0) 0
          (replicate MAX_NUM_KEYS Key_0)
          (replicate (NUM_ROWS * NUM_COLS) Key_0) (just_released_keys b0)
          (replicate MAX_NUM_KEYS Key_0) (replicate MAX_NUM_KEYS KEY_DUMMY)
          (current_modifier b0) (pressed_media b0) 0%Z).
Proof.
  intros Hwf. pose proof Hwf as [H1 H2 H3 H4 H5]. unfold init.
  rewrite init_buffers_loop by (constructor; assumption).
  rewrite bind_Some_l.
  rewrite init_all_pressed_loop
    by (constructor; simpl; rewrite ?length_replicate; auto).
  reflexivity.
Qed.

Lemma reset_list_dummies (n : nat) :
  reset_list (replicate n Key_0) = replicate n Key_0.
Proof. destruct n; reflexivity. Qed.

(** *** The table entries have a second or a third function, not both *)

Lemma table_entry_one_layer (k : Key) :
  table_entry k -> is_dummy k = false ->
  has_second k && has_third k = false.
Proof.
  intros [| c Hc | c | c s | c t] Hd; unfold has_second, has_third; simpl.
  - discriminate.
  - reflexivity.
  - reflexivity.
  - apply andb_false_r.
  - reflexivity.
Qed.

(** *** The release list and two more invariants of a cycle *)

Lemma released_keys_ext (cur1 cur2 kts : list Key) :
  (forall k, is_dummy k = false -> pressed_in cur1 k = pressed_in cur2 k) ->
  released_keys cur1 kts = released_keys cur2 kts.
Proof.
  intros H. unfold released_keys. apply list_filter_iff. intros k.
  unfold released. destruct (is_dummy k) eqn:Hd; simpl; [tauto|].
  rewrite (H k Hd). tauto.
Qed.

Lemma pressed_keys_open (layout : nat -> nat -> Key)
    (read : nat -> nat -> bool) :
  same_switches layout read (fun _ _ => false) ->
  pressed_keys layout read = [].
Proof.
  intros Hs. destruct (pressed_keys layout read) as [|k l] eqn:E;
    [reflexivity|].
  assert (Hk : k ∈ pressed_keys layout read) by (rewrite E; left).
  apply pressed_keys_elem in Hk as (row & col & Hr & Hc & Hcl & _).
  unfold closed in Hcl. apply andb_true_iff in Hcl as [Hd Hread].
  apply negb_true_iff in Hd. rewrite (Hs row col Hr Hc Hd) in Hread.
  discriminate.
Qed.

Section CycleFacts.

Variable read : nat -> nat -> bool.
Variables b b0 fr b2 : Board.
Hypothesis Hstart : cycle_start b b0.
Hypothesis Hframe : scan_frame KEYS read b0 fr.
Hypothesis Hplacing : placing (release_upto MAX_NUM_KEYS fr) MAX_NUM_KEYS b2.

Lemma cycle_released_list :
  just_released_keys b2 =
    released_keys (ordinary_pressed KEYS read) (keys_to_send b) ++
    replicate
      (MAX_NUM_KEYS -
       length (released_keys (ordinary_pressed KEYS read) (keys_to_send b)))
      Key_0 /\
  num_keys_released b2 =
    length (released_keys (ordinary_pressed KEYS read) (keys_to_send b)) /\
  length (released_keys (ordinary_pressed KEYS read) (keys_to_send b))
    <= MAX_NUM_KEYS.
Proof.
  pose proof (frame_wf read b0 fr Hframe) as Hwf.
  destruct (same_but_slots_released _ _ (pl_same _ _ _ Hplacing))
    as (-> & -> & _).
  rewrite (released_just_released fr Hwf), (released_num fr Hwf).
  rewrite (released_keys_ext (curr_pressed_keys fr)
             (ordinary_pressed KEYS read))
    by exact (frame_pressed_in read b b0 fr Hstart Hframe).
  rewrite (frame_keys read b b0 fr Hstart Hframe).
  rewrite (proj1 (frame_released read b b0 fr Hstart Hframe)).
  rewrite drop_replicate. split; [reflexivity|]. split; [reflexivity|].
  pose proof (released_keys_length (ordinary_pressed KEYS read)
                (keys_to_send b)) as Hl.
  assert (Hlen : length (keys_to_send b) = MAX_NUM_KEYS).
  { rewrite <- (frame_keys read b b0 fr Hstart Hframe).
    exact (wf_keys _ Hwf). }
  rewrite Hlen in Hl. exact Hl.
Qed.

Lemma cycle_modifier : current_modifier b2 = current_modifier fr.
Proof.
  pose proof (pl_same _ _ _ Hplacing) as H.
  apply (f_equal current_modifier) in H. exact H.
Qed.

Lemma cycle_code (i : nat) (c : Z) :
  codes_to_send b2 !! i = Some c ->
  (exists k c0, keys_to_send b !! i = Some k /\
     codes_to_send b !! i = Some c0 /\
     c = release_code (curr_pressed_keys fr) k c0) \/
  (exists s, s ∈ ordinary_pressed KEYS read /\
     keys_to_send b2 !! i = Some s /\
     c = to_uint8 (layer_code (fn_pressed fr) (fn2_pressed fr) s)).
Proof.
  intros Hc. pose proof (frame_wf read b0 fr Hframe) as Hwf.
  pose proof (pl_wf _ _ _ Hplacing) as Hwf2.
  destruct (lookup_lt_is_Some_2 (keys_to_send b2) i) as [s Hs].
  { apply lookup_lt_Some in Hc. destruct Hwf2. lia. }
  destruct (pl_origin _ _ _ Hplacing i s Hs)
    as [[Hk1 Hc1]|(s0 & _ & _ & Hin & Hd & Hc1)].
  - left. apply (released_slot_inv fr Hwf) in Hk1 as (k & Hk & _).
    destruct (lookup_lt_is_Some_2 (codes_to_send fr) i) as [c0 Hc0].
    { apply lookup_lt_Some in Hk. destruct Hwf. lia. }
    rewrite (released_code fr Hwf i k c0 Hk Hc0), Hc in Hc1.
    injection Hc1 as ->.
    rewrite (frame_keys read b b0 fr Hstart Hframe) in Hk.
    rewrite (frame_codes read b b0 fr Hstart Hframe) in Hc0.
    eauto.
  - right. exists s. split.
    + exact (frame_curr_elem read b b0 fr Hstart Hframe s Hin Hd).
    + split; [exact Hs|]. rewrite Hc in Hc1. injection Hc1 as ->.
      reflexivity.
Qed.

Lemma cycle_codes_byte : codes_byte b -> codes_byte b2.
Proof.
  intros Hb. apply Forall_lookup. intros i c Hc.
  destruct (cycle_code i c Hc) as [(k & c0 & _ & Hc0 & ->)|(s & _ & _ & ->)].
  - unfold release_code. destruct (released _ k).
    + unfold KEY_DUMMY. lia.
    + exact (Forall_lookup_1 _ _ _ _ Hb Hc0).
  - unfold to_uint8. apply Z.mod_pos_bound. lia.
Qed.

Lemma cycle_slots_ordinary : slots_ordinary b -> slots_ordinary b2.
Proof.
  intros Ho i s Hs Hd.
  destruct (cycle_origin read b b0 fr b2 Hstart Hframe Hplacing i s Hs Hd)
    as [[Hk _]|[Hin _]].
  - exact (Ho i s Hk Hd).
  - exact (proj1 (scanned_curr_elem KEYS read s Hin)).
Qed.

End CycleFacts.


(** *** Two cycles on the same switches *)

Lemma released_keys_none (cur kts : list Key) :
  (forall i s, kts !! i = Some s -> is_dummy s = false ->
               pressed_in cur s = true) ->
  released_keys cur kts = [].
Proof.
  intros H. unfold released_keys.
  induction kts as [|k kts IH]; [reflexivity|].
  rewrite filter_cons. destruct (decide (released cur k = true)) as [Hr|_].
  - exfalso. unfold released in Hr. apply andb_true_iff in Hr as [Hd Hp].
    apply negb_true_iff in Hd, Hp. rewrite (H 0 k eq_refl Hd) in Hp.
    discriminate.
  - apply IH. intros i s Hs. exact (H (S i) s Hs).
Qed.

Section Steady.

Variable read : nat -> nat -> bool.
Variables b b0 fr b2 b1 b0' fr' b2' : Board.
Hypothesis Hstart : cycle_start b b0.
Hypothesis Hframe : scan_frame KEYS read b0 fr.
Hypothesis Hplacing : placing (release_upto MAX_NUM_KEYS fr) MAX_NUM_KEYS b2.
Hypothesis Hkeys : keys_to_send b1 = keys_to_send b2.
Hypothesis Hcodes : codes_to_send b1 = codes_to_send b2.
Hypothesis Hstart' : cycle_start b1 b0'.
Hypothesis Hframe' : scan_frame KEYS read b0' fr'.
Hypothesis Hplacing' :
  placing (release_upto MAX_NUM_KEYS fr') MAX_NUM_KEYS b2'.

Lemma steady_slot (i : nat) (s : Key) :
  keys_to_send b2 !! i = Some s ->
  keys_to_send b2' !! i = Some s /\
  codes_to_send b2' !! i = codes_to_send b2 !! i.
Proof.
  intros Hs. pose proof (frame_wf read b0' fr' Hframe') as Hwf'.
  assert (Hs1 : keys_to_send b1 !! i = Some s) by (rewrite Hkeys; exact Hs).
  assert (Hi : i < MAX_NUM_KEYS).
  { apply lookup_lt_Some in Hs.
    rewrite (wf_keys _ (pl_wf _ _ _ Hplacing)) in Hs. exact Hs. }
  destruct (is_dummy s) eqn:Hd.
  - destruct (lookup_lt_is_Some_2 (keys_to_send b2') i) as [s' Hs'].
    { rewrite (wf_keys _ (pl_wf _ _ _ Hplacing')). exact Hi. }
    assert (Hsf : keys_to_send fr' !! i = Some s).
    { rewrite (frame_keys read b1 b0' fr' Hstart' Hframe'). exact Hs1. }
    destruct (pl_origin _ _ _ Hplacing' i s' Hs')
      as [[Hk Hc]|(s0 & _ & _ & Hin & Hd' & _)].
    + rewrite (released_slot fr' Hwf' i s Hsf) in Hk.
      unfold release_key, released in Hk. rewrite Hd in Hk. simpl in Hk.
      injection Hk as <-. split; [exact Hs'|]. rewrite Hc.
      destruct (lookup_lt_is_Some_2 (codes_to_send fr') i) as [c0 Hc0].
      { rewrite (wf_codes _ Hwf'). exact Hi. }
      rewrite (released_code fr' Hwf' i s c0 Hsf Hc0).
      unfold release_code, released. rewrite Hd. simpl.
      rewrite <- Hc0, (frame_codes read b1 b0' fr' Hstart' Hframe'), Hcodes.
      reflexivity.
    + exfalso.
      pose proof (frame_curr_elem read b1 b0' fr' Hstart' Hframe' s' Hin Hd')
        as Hop.
      destruct (cycle_placed read b b0 fr b2 Hstart Hframe Hplacing s' Hop)
        as (j & t & Ht & He & Hdt).
      pose proof (cycle_slot_pressed read b b0 fr b2 Hstart Hframe Hplacing
                    j t Ht Hdt) as Hheld.
      assert (Ht1 : keys_to_send b1 !! j = Some t)
        by (rewrite Hkeys; exact Ht).
      destruct (cycle_held read b1 b0' fr' b2' Hstart' Hframe' Hplacing'
                  j t Ht1 Hdt Hheld) as [Ht' _].
      assert (Hji : j = i)
        by exact (pl_nodup _ _ _ Hplacing' j i t s' Ht' Hs' Hdt He).
      subst j. rewrite Hs in Ht. injection Ht as <-.
      rewrite Hd in Hdt. discriminate.
  - pose proof (cycle_slot_pressed read b b0 fr b2 Hstart Hframe Hplacing
                  i s Hs Hd) as Hheld.
    destruct (cycle_held read b1 b0' fr' b2' Hstart' Hframe' Hplacing'
                i s Hs1 Hd Hheld) as [Hk Hc].
    split; [exact Hk|]. rewrite Hc, Hcodes. reflexivity.
Qed.

Lemma steady_slots :
  keys_to_send b2' = keys_to_send b2 /\
  codes_to_send b2' = codes_to_send b2.
Proof.
  pose proof (pl_wf _ _ _ Hplacing) as Hwf2.
  pose proof (pl_wf _ _ _ Hplacing') as Hwf2'.
  split; apply list_eq; intros i.
  - destruct (keys_to_send b2 !! i) as [s|] eqn:Hs.
    + exact (proj1 (steady_slot i s Hs)).
    + apply lookup_ge_None in Hs. apply lookup_ge_None.
      rewrite (wf_keys _ Hwf2'). rewrite (wf_keys _ Hwf2) in Hs. exact Hs.
  - destruct (keys_to_send b2 !! i) as [s|] eqn:Hs.
    + exact (proj2 (steady_slot i s Hs)).
    + apply lookup_ge_None in Hs. rewrite (wf_keys _ Hwf2) in Hs.
      rewrite !lookup_ge_None_2; [reflexivity | |].
      * rewrite (wf_codes _ Hwf2). exact Hs.
      * rewrite (wf_codes _ Hwf2'). exact Hs.
Qed.

Lemma steady_released : num_keys_released b2' = 0.
Proof.
  destruct (cycle_released_list read b1 b0' fr' b2' Hstart' Hframe' Hplacing')
    as (_ & -> & _).
  rewrite released_keys_none; [reflexivity|].
  rewrite Hkeys.
  exact (cycle_slot_pressed read b b0 fr b2 Hstart Hframe Hplacing).
Qed.

End Steady.

(** *** The placement loop on empty slots *)

Section InOrder.

Variables b1 : Board.
Variable P : list Key.
Hypothesis Hwf : wf b1.
Hypothesis Hempty : Forall (fun k => is_dummy k = true) (keys_to_send b1).
Hypothesis Hcurr :
  curr_pressed_keys b1 = P ++ replicate (MAX_NUM_KEYS - length P) Key_0.
Hypothesis Hlen : length P <= MAX_NUM_KEYS.
Hypothesis Hkeys : Forall (fun k => is_dummy k = false) P.
Hypothesis Hdist : NoDup (kid <$> P).

Lemma in_order_start : in_order b1 P 0 b1.
Proof.
  split; [exact Hwf|]. split; [apply same_but_slots_refl|].
  intros i. split; [lia | auto].
Qed.

Lemma in_order_free (n i : nat) (t : Board) (s : Key) :
  in_order b1 P n t -> n <= i \/ P !! i = None ->
  keys_to_send t !! i = Some s -> is_dummy s = true.
Proof.
  intros (_ & _ & HQ) Hi Hs.
  rewrite (proj1 (proj2 (HQ i) Hi)) in Hs.
  exact (Forall_lookup_1 _ _ _ _ Hempty Hs).
Qed.

Lemma in_order_step (n : nat) (t t' : Board) :
  n < MAX_NUM_KEYS -> in_order b1 P n t -> place_pressed n t = Some t' ->
  in_order b1 P (S n) t'.
Proof.
  intros Hn HQ Hstep. pose proof HQ as (Hwft & Hsame & Hslots).
  unfold place_pressed in Hstep.
  rewrite (same_but_slots_curr _ _ Hsame), Hcurr in Hstep.
  destruct (P !! n) as [k|] eqn:Hk.
  - rewrite (lookup_app_l_Some _ _ _ _ Hk), bind_Some_l in Hstep.
    pose proof (Forall_lookup_1 _ _ _ _ Hkeys Hk) as Hd.
    rewrite Hd in Hstep. simpl in Hstep.
    destruct (try_place_key_spec k t Hwft Hd)
      as [(j & s & Hs & He & _)|[(_ & Hfull & _)|(_ & l & s & Hs & Hds
                                                 & Hlow & Hplace)]].
    + exfalso. destruct (decide (j < n)) as [Hj|Hj].
      * destruct (lookup_lt_is_Some_2 P j) as [kj Hkj].
        { apply lookup_lt_Some in Hk. lia. }
        destruct (proj1 (Hslots j) Hj kj Hkj) as [Hsj _].
        rewrite Hs in Hsj. injection Hsj as ->.
        apply key_eq_kid in He.
        assert (j = n); [|lia].
        apply (NoDup_lookup _ j n (kid kj) Hdist);
          rewrite list_lookup_fmap; [rewrite Hkj | rewrite Hk, He];
          reflexivity.
      * assert (Hdum : is_dummy s = true)
          by (apply (in_order_free n j t s HQ); [left; lia | exact Hs]).
        rewrite (key_eq_dummy _ _ He), Hd in Hdum. discriminate.
    + exfalso.
      destruct (lookup_lt_is_Some_2 (keys_to_send t) n) as [s Hs].
      { rewrite (wf_keys _ Hwft). exact Hn. }
      assert (Hdum : is_dummy s = true)
        by (apply (in_order_free n n t s HQ); [left; lia | exact Hs]).
      rewrite (Hfull n s Hs) in Hdum. discriminate.
    + assert (Hl : l = n).
      { destruct (decide (l < n)) as [Hln|Hln].
        - destruct (lookup_lt_is_Some_2 P l) as [kl Hkl].
          { apply lookup_lt_Some in Hk. lia. }
          destruct (proj1 (Hslots l) Hln kl Hkl) as [Hsl _].
          rewrite Hs in Hsl. injection Hsl as ->.
          rewrite (Forall_lookup_1 _ _ _ _ Hkeys Hkl) in Hds. discriminate.
        - destruct (decide (n < l)) as [Hnl|Hnl]; [|lia].
          destruct (lookup_lt_is_Some_2 (keys_to_send t) n) as [sn Hsn].
          { rewrite (wf_keys _ Hwft). exact Hn. }
          assert (Hdum : is_dummy sn = true)
            by (apply (in_order_free n n t sn HQ); [left; lia | exact Hsn]).
          rewrite (Hlow n sn Hnl Hsn) in Hdum. discriminate. }
      subst l. rewrite Hplace in Hstep. simpl in Hstep.
      injection Hstep as <-.
      destruct (same_but_slots_fn _ _ Hsame) as [Hfn Hfn2].
      split; [apply place_at_wf; exact Hwft|].
      split; [apply same_but_slots_place; exact Hsame|].
      intros i. unfold place_at. cbn [keys_to_send codes_to_send
        set_codes_to_send set_keys_to_send]. split.
      * intros Hi k' Hk'. destruct (decide (i = n)) as [->|Hin].
        -- rewrite Hk in Hk'. injection Hk' as <-.
           rewrite !list_lookup_insert_eq
             by (rewrite ?(wf_keys _ Hwft), ?(wf_codes _ Hwft); exact Hn).
           rewrite Hfn, Hfn2. auto.
        -- rewrite !list_lookup_insert_ne by auto.
           apply (proj1 (Hslots i)); [lia | exact Hk'].
      * intros Hi. assert (Hin : n <> i).
        { destruct Hi as [Hi|Hi]; [lia|]. intros <-. congruence. }
        rewrite !list_lookup_insert_ne by exact Hin.
        apply (proj2 (Hslots i)). destruct Hi; [left; lia | right; assumption].
  - assert (Hz : (P ++ replicate (MAX_NUM_KEYS - length P) Key_0) !! n
                 = Some Key_0).
    { apply lookup_ge_None in Hk. rewrite lookup_app_r by exact Hk.
      apply lookup_replicate_2. lia. }
    rewrite Hz, bind_Some_l in Hstep. simpl in Hstep.
    injection Hstep as <-.
    split; [exact Hwft|]. split; [exact Hsame|].
    intros i. split.
    + intros Hi k' Hk'. apply (proj1 (Hslots i)); [|exact Hk'].
      destruct (decide (i = n)) as [->|]; [congruence | lia].
    + intros Hi. apply (proj2 (Hslots i)).
      destruct Hi; [left; lia | right; assumption].
Qed.

Lemma place_in_order (b2 : Board) :
  for_upto MAX_NUM_KEYS place_pressed b1 = Some b2 ->
  in_order b1 P MAX_NUM_KEYS b2.
Proof.
  apply (for_upto_inv (in_order b1 P)); [exact in_order_start|].
  intros i t t'. apply in_order_step.
Qed.

End InOrder.

(** *** The tables have no media key *)

Lemma table_entry_no_media (k : Key) :
  hid_no_media -> table_entry k -> reaches_media k = false.
Proof.
  intros Hm [| c Hc | c | c s | c t]; unfold reaches_media.
  - reflexivity.
  - assert (Hneg : is_modifier (Key_1 c) = true)
      by (apply Z.ltb_lt; simpl; lia).
    rewrite Hneg, andb_false_r. reflexivity.
  - assert (H : is_media (K1 c) = false) by (apply Z.eqb_neq, Hm).
    rewrite H. apply andb_false_r.
  - assert (H : is_media (K2 c s) = false) by (apply Z.eqb_neq, Hm).
    rewrite H. apply andb_false_r.
  - assert (H : is_media (K3d c t) = false) by (apply Z.eqb_neq, Hm).
    rewrite H. apply andb_false_r.
Qed.

Lemma foldl_last_media_none (keys : list Key) (m : Key) :
  Forall (fun k => reaches_media k = false) keys ->
  foldl last_media m keys = m.
Proof.
  induction 1 as [|k keys Hk _ IH]; simpl; [reflexivity|].
  unfold last_media at 2. rewrite Hk. exact IH.
Qed.


(** * The properties of the specification *)



(** C2, as amended.  The code of a slot is not computed again while its key
    stays in the slot: through every run of cycles in each of which the key
    of slot [i] is held, the slot keeps its key and its code, whatever the
    layer keys do in those cycles. *)
Theorem held_code_unchanged (reads : list (nat -> nat -> bool)) (b : Board)
    (i : nat) (k : Key) :
  hid_nonneg -> wf b -> no_duplicate b ->
  keys_to_send b !! i = Some k -> is_dummy k = false ->
  Forall (held k) reads ->
  exists b', run reads b = Some b' /\
    keys_to_send b' !! i = Some k /\
    codes_to_send b' !! i = codes_to_send b !! i.
Proof.
  intros Hh Hwf Hnd Hk Hd Hall.
  destruct (held_run reads b i k Hh Hwf Hnd Hk Hd Hall)
    as (b' & Hrun & _ & _ & Hk' & Hc').
  exists b'. auto.
Qed.

(** C3.  Slot stability: through every run of cycles in each of which the
    key [k] of slot [i] is among the scanned ordinary keys, [k] stays in
    slot [i] and is in no other slot; placing a key that is in a slot
    already changes nothing. *)
Theorem slot_stability (reads : list (nat -> nat -> bool)) (b : Board)
    (i : nat) (k : Key) :
  hid_nonneg -> wf b -> no_duplicate b ->
  keys_to_send b !! i = Some k -> is_dummy k = false ->
  Forall (held k) reads ->
  exists b', run reads b = Some b' /\
    keys_to_send b' !! i = Some k /\
    (forall j s, keys_to_send b' !! j = Some s -> key_eq s k = true ->
                 j = i) /\
    try_place_key k b' = Some (b', false).
Proof.
  intros Hh Hwf Hnd Hk Hd Hall.
  destruct (held_run reads b i k Hh Hwf Hnd Hk Hd Hall)
    as (b' & Hrun & Hwf' & Hnd' & Hk' & _).
  exists b'. split; [exact Hrun|]. split; [exact Hk'|]. split.
  - intros j s Hs He. symmetry. apply (Hnd' i j k s Hk' Hs Hd).
    rewrite key_eq_sym. exact He.
  - apply (try_place_key_resident k k b' i Hwf' Hd Hk'). apply key_eq_refl.
Qed.

(** C4.  Release detection: a key that is in slot [i] when a cycle starts
    and is not among the scanned ordinary keys of the cycle is recorded in
    [just_released_keys] exactly once, and phase 1 leaves the dummy key in
    its slot and the neutral code in the code of the slot.  The placement
    loop starts from the state [b1] that phase 1 ends in: after the cycle
    every scanned key is in a slot, and what slot [i] then holds is a key
    of this scan. *)
Theorem release_detection (read : nat -> nat -> bool) (b : Board) (i : nat)
    (k : Key) :
  hid_nonneg -> wf b -> no_duplicate b ->
  keys_to_send b !! i = Some k -> is_dummy k = false ->
  pressed_in (ordinary_pressed KEYS read) k = false ->
  exists fr b1 b2 r,
    scanned read b = Some fr /\
    remove_released_keys fr = Some b1 /\
    keys_to_send b1 !! i = Some Key_0 /\
    codes_to_send b1 !! i = Some KEY_DUMMY /\
    (exists p, p < num_keys_released b1 /\
       just_released_keys b1 !! p = Some k /\
       forall p' s, just_released_keys b1 !! p' = Some s ->
                    key_eq s k = true -> p' = p) /\
    for_upto MAX_NUM_KEYS place_pressed b1 = Some b2 /\
    update read b =
      Some (set_current_media
              (media_code (fn_pressed fr) (pressed_media fr)) b2, r) /\
    just_released_keys b2 = just_released_keys b1 /\
    num_keys_released b2 = num_keys_released b1 /\
    (forall c, c ∈ ordinary_pressed KEYS read ->
       exists j s, keys_to_send b2 !! j = Some s /\ key_eq s c = true) /\
    (forall s, keys_to_send b2 !! i = Some s -> is_dummy s = false ->
               s ∈ ordinary_pressed KEYS read).
Proof.
  intros Hh Hwf Hnd Hk Hd Hnp.
  destruct (update_cycle read b Hh Hwf Hnd)
    as (b0 & fr & b2 & Hcs & Hfr & Hsf & Hrem & Hloop & Hpl & Hu).
  pose proof (frame_wf read b0 fr Hsf) as Hwff.
  destruct (frame_released read b b0 fr Hcs Hsf) as [Hjr Hn].
  assert (Hkf : keys_to_send fr !! i = Some k)
    by (rewrite (frame_keys read b b0 fr Hcs Hsf); exact Hk).
  assert (Hrel : released (curr_pressed_keys fr) k = true).
  { unfold released.
    rewrite (frame_pressed_in read b b0 fr Hcs Hsf k Hd), Hnp, Hd.
    reflexivity. }
  assert (Hndf : no_duplicate fr).
  { unfold no_duplicate. rewrite (frame_keys read b b0 fr Hcs Hsf).
    exact Hnd. }
  destruct (same_but_slots_released _ _ (pl_same _ _ _ Hpl))
    as (Hjr2 & Hn2 & _).
  eexists fr, (release_upto MAX_NUM_KEYS fr), b2, _.
  split; [exact Hfr|]. split; [exact Hrem|].
  split.
  { rewrite (released_slot fr Hwff i k Hkf). unfold release_key.
    rewrite Hrel. reflexivity. }
  split.
  { destruct (lookup_lt_is_Some_2 (codes_to_send fr) i) as [c Hc].
    { apply lookup_lt_Some in Hkf. destruct Hwff. lia. }
    rewrite (released_code fr Hwff i k c Hkf Hc). unfold release_code.
    rewrite Hrel. reflexivity. }
  split.
  { destruct (released_once (curr_pressed_keys fr) (keys_to_send fr) i k
                Hndf Hkf Hrel) as (p & Hp & Huniq).
    pose proof (lookup_lt_Some _ _ _ Hp) as Hlt.
    exists p. rewrite (released_num fr Hwff).
    split; [exact Hlt|]. rewrite (released_just_released fr Hwff).
    split; [apply lookup_app_l_Some; exact Hp|].
    intros p' s Hs He.
    apply lookup_app_Some in Hs as [Hs|[_ Hs]]; [exact (Huniq p' s Hs He)|].
    rewrite Hjr, lookup_drop in Hs. apply lookup_replicate in Hs as [-> _].
    apply key_eq_dummy in He. rewrite Hd in He. discriminate. }
  split; [exact Hloop|]. split; [exact Hu|].
  split; [exact Hjr2|]. split; [exact Hn2|]. split.
  - intros c Hc.
    destruct (cycle_placed read b b0 fr b2 Hcs Hsf Hpl c Hc)
      as (j & s & Hs & He & _).
    exists j, s. auto.
  - intros s Hs Hds.
    destruct (pl_origin _ _ _ Hpl i s Hs)
      as [[Hk1 _]|(s0 & _ & _ & Hin & _ & _)].
    + rewrite (released_slot fr Hwff i k Hkf) in Hk1. unfold release_key in Hk1.
      rewrite Hrel in Hk1. injection Hk1 as <-. discriminate.
    + apply (frame_curr_elem read b b0 fr Hcs Hsf); assumption.
Qed.

(** C5.  The state invariant: a slot holds the dummy key exactly when its
    code is the neutral code, and no key is in two slots.  [init]
    establishes it and every cycle preserves it, for values of the Teensy
    macros that are non-negative with a non-zero low byte. *)
Theorem state_invariant :
  hid_nonneg -> hid_low_byte ->
  (forall b0, wf b0 ->
     exists b, init b0 = Some b /\ wf b /\ codes_agree b /\ no_duplicate b) /\
  (forall read b, wf b -> codes_agree b -> no_duplicate b ->
     exists b' r, update read b = Some (b', r) /\
                  wf b' /\ codes_agree b' /\ no_duplicate b').
Proof.
  intros Hh Hlow. split.
  - intros b0 Hwf. destruct (init_spec b0 Hwf) as (b & Hb & Hwfb & Hk & Hc).
    exists b. split; [exact Hb|]. split; [exact Hwfb|].
    split; [apply empty_codes_agree | apply empty_no_duplicate]; assumption.
  - intros read b Hwf Hag Hnd.
    destruct (update_cycle read b Hh Hwf Hnd)
      as (b0 & fr & b2 & Hcs & Hfr & Hsf & _ & _ & Hpl & Hu).
    eexists _, _. split; [exact Hu|].
    split; [apply set_current_media_wf; exact (pl_wf _ _ _ Hpl)|].
    split; [|exact (pl_nodup _ _ _ Hpl)].
    exact (cycle_codes_agree read b b0 fr b2 Hcs Hsf Hpl Hlow Hag).
Qed.

(** C6.  The capacity: when more than [MAX_NUM_KEYS] distinct ordinary keys
    are pressed, the cycle does not fail (no access outside a buffer, the
    buffers keep their sizes), all six slots are occupied, each by one of
    the first six ordinary keys of the scan, each of these six keys is in a
    slot and no key is in two slots, so that the slots hold exactly the
    first six keys, once each; no later key is in a slot, and
    [num_keys_pressed] counts every ordinary key, the dropped ones too. *)
Theorem capacity_ceiling (read : nat -> nat -> bool) (b : Board) :
  hid_nonneg -> wf b -> no_duplicate b ->
  MAX_NUM_KEYS < length (ordinary_seen KEYS read) ->
  NoDup (kid <$> ordinary_seen KEYS read) ->
  exists b' r, update read b = Some (b', r) /\ wf b' /\
    (forall i, i < MAX_NUM_KEYS ->
       exists s, keys_to_send b' !! i = Some s /\ is_dummy s = false /\
                 pressed_in (ordinary_pressed KEYS read) s = true) /\
    (forall c, c ∈ ordinary_pressed KEYS read ->
       exists i s, keys_to_send b' !! i = Some s /\ key_eq s c = true) /\
    no_duplicate b' /\
    kid <$> keys_to_send b' ≡ₚ kid <$> ordinary_pressed KEYS read /\
    (forall k i s, k ∈ drop MAX_NUM_KEYS (ordinary_seen KEYS read) ->
       keys_to_send b' !! i = Some s -> key_eq s k = false) /\
    num_keys_pressed b' = length (ordinary_seen KEYS read).
Proof.
  intros Hh Hwf Hnd Hmany Hdist.
  destruct (update_cycle read b Hh Hwf Hnd)
    as (b0 & fr & b2 & Hcs & Hfr & Hsf & _ & _ & Hpl & Hu).
  pose proof (pl_wf _ _ _ Hpl) as Hwf2.
  rewrite <- (take_drop MAX_NUM_KEYS (ordinary_seen KEYS read)) in Hdist.
  rewrite fmap_app in Hdist.
  apply NoDup_app in Hdist as (Hd1 & Hd12 & _).
  assert (Hocc : forall i s, keys_to_send b2 !! i = Some s ->
                             is_dummy s = false).
  { apply (all_slots_occupied (ordinary_pressed KEYS read)).
    - exact Hd1.
    - unfold ordinary_pressed. rewrite length_take_le by lia.
      destruct Hwf2. congruence.
    - apply (cycle_placed read b b0 fr b2 Hcs Hsf Hpl). }
  eexists _, _. split; [exact Hu|].
  split; [apply set_current_media_wf; exact Hwf2|].
  split; [|split; [|split; [exact (pl_nodup _ _ _ Hpl)|split; [|split]]]].
  - intros i Hi.
    destruct (lookup_lt_is_Some_2 (keys_to_send b2) i) as [s Hs].
    { destruct Hwf2. lia. }
    exists s. split; [exact Hs|]. split; [exact (Hocc i s Hs)|].
    exact (cycle_slot_pressed read b b0 fr b2 Hcs Hsf Hpl i s Hs
             (Hocc i s Hs)).
  - intros c Hc.
    destruct (cycle_placed read b b0 fr b2 Hcs Hsf Hpl c Hc)
      as (i & s & Hs & He & _).
    exists i, s. auto.
  - change (kid <$> keys_to_send b2 ≡ₚ kid <$> ordinary_pressed KEYS read).
    apply NoDup_Permutation; [|exact Hd1|].
    + apply NoDup_alt. intros i j x Hi Hj.
      apply list_lookup_fmap_Some in Hi as (a & -> & Ha).
      apply list_lookup_fmap_Some in Hj as (c & Hac & Hc).
      apply (pl_nodup _ _ _ Hpl i j a c Ha Hc (Hocc i a Ha)).
      apply key_eq_kid. exact Hac.
    + intros x. rewrite !list_elem_of_fmap. split.
      * intros (s & -> & Hs). apply list_elem_of_lookup in Hs as [i Hs].
        pose proof (cycle_slot_pressed read b b0 fr b2 Hcs Hsf Hpl i s Hs
                      (Hocc i s Hs)) as Hp.
        apply pressed_in_spec in Hp as (c & Hc & Hec).
        exists c. split; [apply key_eq_kid; exact Hec | exact Hc].
      * intros (c & -> & Hc).
        destruct (cycle_placed read b b0 fr b2 Hcs Hsf Hpl c Hc)
          as (i & s & Hs & He & _).
        exists s. split; [symmetry; apply key_eq_kid; exact He|].
        exact (list_elem_of_lookup_2 _ _ _ Hs).
  - intros k i s Hk Hs. change (keys_to_send b2 !! i = Some s) in Hs.
    destruct (key_eq s k) eqn:He; [exfalso | reflexivity].
    pose proof (cycle_slot_pressed read b b0 fr b2 Hcs Hsf Hpl i s Hs
                  (Hocc i s Hs)) as Hp.
    apply pressed_in_spec in Hp as (c & Hc & Hec).
    apply (Hd12 (kid c)).
    + apply list_elem_of_fmap_2. exact Hc.
    + apply key_eq_kid in He, Hec. rewrite <- Hec, He.
      apply list_elem_of_fmap_2. exact Hk.
  - exact (cycle_num_pressed read b0 fr b2 Hsf Hpl).
Qed.

(** C7.  The media code: [update_keys_to_send] sets it to the secondary
    code of [pressed_media] if FN is pressed and that key has one, else to
    its primary code, and to the neutral code when [pressed_media] is the
    dummy key, as it is when the scan met no media key.  [fn2_pressed] has
    no part in it: two states that agree on [pressed_media] and
    [fn_pressed] get the same media code. *)
Theorem media_resolution :
  (forall b b', update_keys_to_send b = Some b' ->
     current_media b' =
     if negb (is_dummy (pressed_media b)) then
       if has_second (pressed_media b) && fn_pressed b
       then second (pressed_media b) else code (pressed_media b)
     else 0%Z) /\
  (forall b1 b2 b1' b2',
     update_keys_to_send b1 = Some b1' -> update_keys_to_send b2 = Some b2' ->
     pressed_media b1 = pressed_media b2 -> fn_pressed b1 = fn_pressed b2 ->
     current_media b1' = current_media b2') /\
  (forall read b, hid_nonneg -> wf b ->
     exists fr b' r, scanned read b = Some fr /\
       update read b = Some (b', r) /\
       report_media r = media_code (fn_pressed fr) (pressed_media fr) /\
       ((forall row col, row < NUM_ROWS -> col < NUM_COLS ->
           media_at KEYS read row col = false) ->
        report_media r = 0%Z)).
Proof.
  split; [|split].
  - intros b b' Hu. exact (update_keys_to_send_media b b' Hu).
  - intros b1 b2 b1' b2' H1 H2 Hpm Hfn.
    rewrite (update_keys_to_send_media _ _ H1),
      (update_keys_to_send_media _ _ H2), Hpm, Hfn. reflexivity.
  - intros read b Hh Hwf.
    destruct (update_total read b Hh Hwf)
      as (b0 & fr & b' & Hcs & Hfr & Hsf & Hu & _ & Hup).
    pose proof (update_keys_to_send_media _ _ Hu) as Hm.
    eexists fr, b', _. split; [exact Hfr|]. split; [exact Hup|].
    split; [exact Hm|]. intros Hno. simpl. rewrite Hm.
    destruct (sf_pressed_media _ _ _ _ Hsf)
      as [[-> _]|(r & c & Hc & Hb & Hat & _)].
    + rewrite (cs_pressed_media _ _ Hcs). reflexivity.
    + rewrite Hno in Hat; [discriminate | | exact Hc].
      destruct Hb as [H|[_ H]]; simpl in H; [exact H | lia].
Qed.

(** C8.  Media last-write-wins: when the scan of a table is over,
    [pressed_media] is the key of the last position, in the order row by
    row and column by column, at which a media key is pressed. *)
Theorem media_last_write_wins (layout : nat -> nat -> Key)
    (read : nat -> nat -> bool) (b : Board) (row col : nat) :
  modifiers_ok layout -> wf b ->
  tot_num_keys_pressed b = 0 -> num_keys_pressed b = 0 ->
  row < NUM_ROWS -> col < NUM_COLS ->
  media_at layout read row col = true ->
  (forall r c, r < NUM_ROWS -> c < NUM_COLS ->
     media_at layout read r c = true -> r < row \/ (r = row /\ c <= col)) ->
  exists b', scan_layout layout read b = Some b' /\
             pressed_media b' = layout row col.
Proof.
  intros Hmod Hwf Htot Hnum Hrow Hcol Hat Hlast.
  destruct (scan_layout_spec layout read b Hmod Hwf Htot Hnum)
    as (fr & Hfr & Hsf).
  exists fr. split; [exact Hfr|].
  destruct (sf_pressed_media _ _ _ _ Hsf)
    as [[_ Hno]|(r & c & Hc & Hb & Hatrc & -> & Hmax)].
  - rewrite Hno in Hat; [discriminate | exact Hcol | left; exact Hrow].
  - assert (Hr : r < NUM_ROWS)
      by (destruct Hb as [H|[_ H]]; simpl in H; [exact H | lia]).
    specialize (Hlast r c Hr Hc Hatrc).
    specialize (Hmax row col Hcol (or_introl Hrow) Hat).
    unfold before in Hmax. simpl in Hmax.
    assert (r = row /\ c = col) as [-> ->] by lia. reflexivity.
Qed.

(** C10.  The modifier lookup stays inside [MODIFIER_MAP]: in both layout
    tables every key that takes the modifier branch of the scan has a code
    from -6 to -1, so that its index [-code - 1] is below [NUM_MODIFIERS]
    and [translate_modifier] finds an entry.  FN and FN2, whose codes would
    index outside the map, are taken by the branches before it.  The scan
    of [KEYS] therefore never fails. *)
Theorem modifier_lookup_in_bounds :
  hid_nonneg ->
  (forall table row col,
     table = KEYS \/ table = KEYS_SPECIAL ->
     row < NUM_ROWS -> col < NUM_COLS ->
     reaches_modifier (table row col) = true ->
     (-6 <= code (table row col) <= -1)%Z /\
     Z.to_nat (-1 * code (table row col) - 1) < NUM_MODIFIERS /\
     exists v, translate_modifier (code (table row col)) = Some v) /\
  translate_modifier KEY_FN = None /\
  translate_modifier KEY_FN2 = None /\
  (forall k, is_fn k = true \/ is_fn2 k = true ->
             reaches_modifier k = false) /\
  (forall read b, wf b ->
     tot_num_keys_pressed b = 0 -> num_keys_pressed b = 0 ->
     exists b', scan_keys read b = Some b').
Proof.
  intros Hh. split; [|split; [reflexivity|split; [reflexivity|split]]].
  - intros table row col Htab Hrow Hcol Hmod.
    assert (Hrange : (-6 <= code (table row col) <= -1)%Z).
    { destruct Htab as [-> | ->].
      - apply KEYS_modifiers_ok; assumption.
      - apply KEYS_SPECIAL_modifiers_ok; assumption. }
    split; [exact Hrange|].
    destruct (translate_modifier_in_range _ Hrange) as (v & Hv & _ & Hlt).
    split; [exact Hlt | eauto].
  - intros k [H|H]; unfold reaches_modifier; rewrite H;
      rewrite ?andb_false_r; reflexivity.
  - intros read b Hwf Htot Hnum.
    destruct (scan_layout_spec KEYS read b (KEYS_modifiers_ok Hh) Hwf Htot Hnum)
      as (fr & Hfr & _).
    exists fr. exact Hfr.
Qed.

(** * Further properties of the code *)

(** X1.  The scan consults a switch only where the table [KEYS] has a key:
    two states of the matrix that agree at every position inside the
    matrix whose entry is not the dummy key give the same cycle, state and
    report, from every state. *)
Theorem unpopulated_positions_ignored (read1 read2 : nat -> nat -> bool)
    (b : Board) :
  same_switches KEYS read1 read2 -> update read1 b = update read2 b.
Proof.
  intros Hs. unfold update, scan_keys.
  destruct (begin_cycle b) as [b0|]; [|reflexivity].
  rewrite !bind_Some_l, !scan_layout_keys.
  rewrite (pressed_keys_same KEYS read1 read2 Hs). reflexivity.
Qed.

(** X2.  The layer flags follow the two layer switches and nothing else:
    after a cycle [fn_pressed] is the state of the switch at row 4,
    column 1 and [fn2_pressed] that of the switch at row 4, column 2,
    whatever the flags were before. *)
Theorem layer_flags_follow_switches (read : nat -> nat -> bool) (b : Board) :
  hid_nonneg -> wf b ->
  exists b' r, update read b = Some (b', r) /\
    fn_pressed b' = read 4 1 /\ fn2_pressed b' = read 4 2.
Proof.
  intros Hh Hwf.
  destruct (update_scan read b Hh Hwf)
    as (fr & b' & Hfr & _ & _ & _ & Hp & Hu).
  destruct (scanned_full read b fr Hwf Hfr) as (E1 & E2 & _).
  unfold scan_part in Hp. injection Hp as F1 F2 _ _ _ _ _ _.
  exists b'. eexists. split; [exact Hu|]. rewrite F1, F2, E1, E2. split.
  - apply existsb_position; [bounds | bounds | | reflexivity].
    intros row col Hr Hc. exact (proj1 (KEYS_layer_keys row col Hh Hr Hc)).
  - apply existsb_position; [bounds | bounds | | reflexivity].
    intros row col Hr Hc. exact (proj2 (KEYS_layer_keys row col Hh Hr Hc)).
Qed.

(** X3.  The modifier mask of the report is the bitwise or of the
    [MODIFIER_MAP] entries of the modifier keys that are pressed: a bit is
    set in it exactly when a closed switch has a key that takes the
    modifier branch and whose translation has that bit.  Nothing of the
    mask of the cycle before remains. *)
Theorem modifier_mask_bits (read : nat -> nat -> bool) (b : Board) (n : Z) :
  hid_nonneg -> wf b ->
  exists b' r, update read b = Some (b', r) /\
    current_modifier b' = report_modifier r /\
    (Z.testbit (report_modifier r) n = true <->
     exists row col v, row < NUM_ROWS /\ col < NUM_COLS /\
       read row col = true /\ reaches_modifier (KEYS row col) = true /\
       translate_modifier (code (KEYS row col)) = Some v /\
       Z.testbit v n = true).
Proof.
  intros Hh Hwf.
  destruct (update_scan read b Hh Hwf)
    as (fr & b' & Hfr & _ & _ & _ & Hp & Hu).
  destruct (scanned_full read b fr Hwf Hfr) as (_ & _ & E3 & _).
  unfold scan_part in Hp. injection Hp as _ _ _ _ _ _ Hm _.
  exists b'. eexists. split; [exact Hu|]. split; [exact Hm|].
  cbn [report_modifier]. rewrite E3, foldl_add_modifier_bits.
  rewrite Z.bits_0, orb_false_l, existsb_pressed_keys. split.
  - intros (row & col & Hr & Hc & Hcl & Hk).
    apply andb_true_iff in Hk as [Hmod Hbit].
    unfold closed in Hcl. apply andb_true_iff in Hcl as [_ Hread].
    destruct (translate_modifier (code (KEYS row col))) as [v|] eqn:Hv.
    + exists row, col, v. auto 10.
    + simpl in Hbit. rewrite Z.bits_0 in Hbit. discriminate.
  - intros (row & col & v & Hr & Hc & Hread & Hmod & Hv & Hbit).
    exists row, col. split; [exact Hr|]. split; [exact Hc|]. split.
    + unfold closed. rewrite Hread.
      unfold reaches_modifier, is_modifier in Hmod.
      apply andb_true_iff in Hmod as [_ Hneg]. apply Z.ltb_lt in Hneg.
      unfold is_dummy, KEY_DUMMY.
      destruct (Z.eqb_spec (code (KEYS row col)) 0); [lia | reflexivity].
    + rewrite Hmod, Hv. exact Hbit.
Qed.

(** X4.  What the getters give after a cycle.  [get_num_keys_pressed] is
    the number of closed switches that have a key, of whatever kind
    (modifiers, layer keys and the ordinary keys beyond the sixth
    included), [get_curr_pressed_keys] holds these keys in scan order in
    its first entries and dummy entries after them.  This needs the
    buffer to have had its keys before its dummy entries when the cycle
    started, and the cycle leaves it so. *)
Theorem getters_after_cycle (read : nat -> nat -> bool) (b : Board) :
  hid_nonneg -> wf b -> packed (all_pressed_keys b) ->
  exists b' r, update read b = Some (b', r) /\
    get_num_keys_pressed b' = length (pressed_keys KEYS read) /\
    take (get_num_keys_pressed b') (get_curr_pressed_keys b') =
      pressed_keys KEYS read /\
    Forall (fun k => is_dummy k = true)
      (drop (get_num_keys_pressed b') (get_curr_pressed_keys b')) /\
    packed (get_curr_pressed_keys b').
Proof.
  intros Hh Hwf Hpk.
  destruct (update_scan read b Hh Hwf)
    as (fr & b' & Hfr & _ & _ & _ & Hp & Hu).
  destruct (scanned_full read b fr Hwf Hfr) as (_ & _ & _ & _ & E5 & E6).
  unfold scan_part in Hp. injection Hp as _ _ _ Ht _ Ha _ _.
  exists b'. eexists. split; [exact Hu|].
  unfold get_num_keys_pressed, get_curr_pressed_keys.
  rewrite Ht, Ha, E5, E6.
  assert (Hdum : Forall (fun k => is_dummy k = true)
                   (drop (length (pressed_keys KEYS read))
                      (reset_list (all_pressed_keys b)))).
  { apply Forall_drop, reset_list_packed. exact Hpk. }
  split; [reflexivity|]. split; [apply take_app_length|].
  split; [rewrite drop_app_length; exact Hdum|].
  apply packed_app; [apply pressed_keys_nondummy | exact Hdum].
Qed.

(** X5.  [reset_pressed_keys] stops clearing [all_pressed_keys] at the
    first dummy entry: the entries before it become dummy keys, the entry
    itself and everything after it are left as they are, keys included.
    The other two buffers are cleared in full. *)
Theorem reset_stops_at_first_dummy (b : Board) (l1 l2 : list Key) :
  wf b -> all_pressed_keys b = l1 ++ l2 ->
  Forall (fun k => is_dummy k = false) l1 ->
  (forall d, head l2 = Some d -> is_dummy d = true) ->
  exists b', reset_pressed_keys b = Some b' /\
    all_pressed_keys b' = replicate (length l1) Key_0 ++ l2 /\
    curr_pressed_keys b' = replicate MAX_NUM_KEYS Key_0 /\
    just_released_keys b' = replicate MAX_NUM_KEYS Key_0.
Proof.
  intros Hwf Hall Hl1 Hl2. pose proof Hwf as [H1 H2 H3 H4 H5].
  unfold reset_pressed_keys.
  rewrite reset_buffers_loop by assumption. rewrite bind_Some_l.
  cbn [all_pressed_keys set_just_released_keys set_curr_pressed_keys].
  rewrite reset_all_pressed_spec by (rewrite H2; reflexivity).
  rewrite bind_Some_l. eexists. split; [reflexivity|].
  split; [|split; reflexivity].
  cbn [all_pressed_keys set_all_pressed_keys].
  rewrite Hall, take_0, drop_0, app_nil_l.
  destruct l2 as [|d l2].
  - clear Hl2 Hall. rewrite !app_nil_r.
    induction Hl1 as [|k l1 Hk _ IH]; simpl; [reflexivity|].
    rewrite Hk. f_equal. exact IH.
  - apply reset_list_split; [exact Hl1|]. apply Hl2. reflexivity.
Qed.

(** X6.  The scan packs the ordinary keys into [curr_pressed_keys]: after
    a cycle the buffer holds the first [MAX_NUM_KEYS] ordinary keys of
    the scan, in scan order from index 0, and dummy keys in the rest,
    while [num_keys_pressed] counts all the ordinary keys. *)
Theorem scan_packs_ordinary_keys (read : nat -> nat -> bool) (b : Board) :
  hid_nonneg -> wf b ->
  exists b' r, update read b = Some (b', r) /\
    curr_pressed_keys b' =
      ordinary_pressed KEYS read ++
      replicate (MAX_NUM_KEYS - length (ordinary_pressed KEYS read)) Key_0 /\
    num_keys_pressed b' = length (ordinary_seen KEYS read).
Proof.
  intros Hh Hwf.
  destruct (update_total read b Hh Hwf)
    as (b0 & fr & b' & Hcs & Hfr & Hsf & Hu & _ & Hupd).
  pose proof (update_keys_to_send_scan_part _ _ Hu) as Hp.
  unfold scan_part in Hp. injection Hp as _ _ Hn _ Hc _ _ _.
  exists b'. eexists. split; [exact Hupd|].
  rewrite Hc, Hn, (frame_curr read b b0 fr Hcs Hsf).
  split; [apply fill_prefix | exact (sf_num_pressed _ _ _ _ Hsf)].
Qed.


(** X7.  The outcome of [try_place_key] for a key that is not the dummy
    key.  It returns true exactly when no slot holds a key equal to it and
    some slot is empty; the key then goes into the empty slot of lowest
    index, with the low byte of its layer code, and nothing else changes.
    When it returns false the state is untouched. *)
Theorem try_place_key_outcome (k : Key) (b : Board) :
  wf b -> is_dummy k = false ->
  exists b' placed, try_place_key k b = Some (b', placed) /\
    (placed = true <->
     (forall j s, keys_to_send b !! j = Some s -> key_eq s k = false) /\
     (exists j s, keys_to_send b !! j = Some s /\ is_dummy s = true)) /\
    (placed = false -> b' = b) /\
    (placed = true -> exists l s,
       keys_to_send b !! l = Some s /\ is_dummy s = true /\
       (forall j s', j < l -> keys_to_send b !! j = Some s' ->
                     is_dummy s' = false) /\
       b' = place_at l k b).
Proof.
  intros Hwf Hd.
  destruct (try_place_key_spec k b Hwf Hd)
    as [(j & s & Hs & He & ->)|[(Hne & Hfull & ->)|(Hne & l & s & Hs & Hds
                                                   & Hlow & ->)]].
  - exists b, false. split; [reflexivity|]. split; [|split].
    + split; [discriminate|]. intros [Hne _].
      rewrite (Hne j s Hs) in He. discriminate.
    + reflexivity.
    + discriminate.
  - exists b, false. split; [reflexivity|]. split; [|split].
    + split; [discriminate|]. intros [_ (j & s & Hs & Hds)].
      rewrite (Hfull j s Hs) in Hds. discriminate.
    + reflexivity.
    + discriminate.
  - exists (place_at l k b), true. split; [reflexivity|]. split; [|split].
    + split; [|reflexivity]. intros _. split; [exact Hne|]. eauto.
    + discriminate.
    + intros _. exists l, s. auto.
Qed.

(** X8.  No key of the two layout tables has both a secondary and a
    tertiary code, so on them the order in which [try_place_key] tests
    the two layers makes no difference: testing the tertiary code first
    gives the same code, whatever the layer flags. *)
Theorem tables_have_one_layer_per_key (table : nat -> nat -> Key)
    (row col : nat) :
  table = KEYS \/ table = KEYS_SPECIAL ->
  is_dummy (table row col) = false ->
  has_second (table row col) && has_third (table row col) = false /\
  forall fn fn2,
    layer_code fn fn2 (table row col) =
    if has_third (table row col) && fn2 then third (table row col)
    else if has_second (table row col) && fn then second (table row col)
    else code (table row col).
Proof.
  intros Htab Hd.
  assert (Hte : table_entry (table row col)).
  { destruct Htab as [-> | ->]; apply at_table_entry;
      [apply KEYS_rows_entries | apply KEYS_SPECIAL_rows_entries]. }
  pose proof (table_entry_one_layer _ Hte Hd) as Hone.
  split; [exact Hone|]. intros fn fn2. unfold layer_code.
  destruct (has_second (table row col)), (has_third (table row col)),
    fn, fn2; try reflexivity; discriminate.
Qed.

(** X10.  Every code in the slots is a byte, from 0 to 255, and so is
    every key code of a report, also where the macro of the key is a
    wider [int]: [init] establishes it and every cycle preserves it. *)
Theorem codes_are_bytes :
  hid_nonneg ->
  (forall b0, wf b0 -> exists b, init b0 = Some b /\ codes_byte b) /\
  (forall read b, wf b -> no_duplicate b -> codes_byte b ->
     exists b' r, update read b = Some (b', r) /\ codes_byte b' /\
       Forall (fun c => (0 <= c < 256)%Z) (report_keys r)).
Proof.
  intros Hh. split.
  - intros b0 Hwf. eexists. split; [apply init_eq; exact Hwf|].
    apply Forall_replicate. unfold KEY_DUMMY. lia.
  - intros read b Hwf Hnd Hb.
    destruct (update_cycle read b Hh Hwf Hnd)
      as (b0 & fr & b2 & Hcs & Hfr & Hsf & _ & _ & Hpl & Hu).
    pose proof (cycle_codes_byte read b b0 fr b2 Hcs Hsf Hpl Hb) as Hb2.
    eexists _, _. split; [exact Hu|]. split; exact Hb2.
Qed.

(** X11.  The slots hold ordinary keys only: no modifier, layer key or
    media key is ever put into [keys_to_send].  [init] establishes it and
    every cycle preserves it. *)
Theorem slots_hold_ordinary_keys :
  hid_nonneg ->
  (forall b0, wf b0 -> exists b, init b0 = Some b /\ slots_ordinary b) /\
  (forall read b, wf b -> no_duplicate b -> slots_ordinary b ->
     exists b' r, update read b = Some (b', r) /\ slots_ordinary b').
Proof.
  intros Hh. split.
  - intros b0 Hwf. eexists. split; [apply init_eq; exact Hwf|].
    intros i s Hs Hd. cbn [keys_to_send] in Hs.
    apply lookup_replicate in Hs as [-> _]. discriminate.
  - intros read b Hwf Hnd Ho.
    destruct (update_cycle read b Hh Hwf Hnd)
      as (b0 & fr & b2 & Hcs & Hfr & Hsf & _ & _ & Hpl & Hu).
    eexists _, _. split; [exact Hu|].
    exact (cycle_slots_ordinary read b b0 fr b2 Hcs Hsf Hpl Ho).
Qed.

(** X12.  The release list of a cycle.  After a cycle
    [get_just_released_keys] holds, in slot order from index 0, the keys
    of the occupied slots that are not among the first [MAX_NUM_KEYS]
    ordinary keys of the scan, and dummy keys in the rest;
    [get_num_released_keys] is their number, at most [MAX_NUM_KEYS]. *)
Theorem release_list_of_a_cycle (read : nat -> nat -> bool) (b : Board) :
  hid_nonneg -> wf b -> no_duplicate b ->
  exists b' r, update read b = Some (b', r) /\
    get_just_released_keys b' =
      released_keys (ordinary_pressed KEYS read) (keys_to_send b) ++
      replicate (MAX_NUM_KEYS - get_num_released_keys b') Key_0 /\
    get_num_released_keys b' =
      length (released_keys (ordinary_pressed KEYS read) (keys_to_send b)) /\
    get_num_released_keys b' <= MAX_NUM_KEYS.
Proof.
  intros Hh Hwf Hnd.
  destruct (update_cycle read b Hh Hwf Hnd)
    as (b0 & fr & b2 & Hcs & Hfr & Hsf & _ & _ & Hpl & Hu).
  destruct (cycle_released_list read b b0 fr b2 Hcs Hsf Hpl)
    as (Hrel & Hnum & Hle).
  eexists _, _. split; [exact Hu|].
  unfold get_just_released_keys, get_num_released_keys.
  cbn [just_released_keys num_keys_released set_current_media].
  rewrite Hnum. split; [exact Hrel|]. split; [reflexivity | exact Hle].
Qed.

(** X13.  After every cycle the occupied slots are, up to [operator==],
    exactly the first [MAX_NUM_KEYS] ordinary keys of the scan: each
    occupied slot holds a key equal to one of them, and each of them is
    equal to the key of some slot. *)
Theorem slots_are_the_pressed_keys (read : nat -> nat -> bool) (b : Board) :
  hid_nonneg -> wf b -> no_duplicate b ->
  exists b' r, update read b = Some (b', r) /\
    (forall i s, keys_to_send b' !! i = Some s -> is_dummy s = false ->
       exists c, c ∈ ordinary_pressed KEYS read /\ key_eq s c = true) /\
    (forall c, c ∈ ordinary_pressed KEYS read ->
       exists i s, keys_to_send b' !! i = Some s /\ key_eq s c = true).
Proof.
  intros Hh Hwf Hnd.
  destruct (update_cycle read b Hh Hwf Hnd)
    as (b0 & fr & b2 & Hcs & Hfr & Hsf & _ & _ & Hpl & Hu).
  eexists _, _. split; [exact Hu|]. split.
  - intros i s Hs Hd.
    apply pressed_in_spec.
    exact (cycle_slot_pressed read b b0 fr b2 Hcs Hsf Hpl i s Hs Hd).
  - intros c Hc.
    destruct (cycle_placed read b b0 fr b2 Hcs Hsf Hpl c Hc)
      as (i & s & Hs & He & _).
    exists i, s. auto.
Qed.

(** X14.  When no switch with a key is closed, the cycle empties the
    keyboard whatever it held: the report has six zero codes, no modifier
    and no media code, every slot holds a dummy key, and every key that was
    in a slot is counted as released. *)
Theorem all_switches_open (read : nat -> nat -> bool) (b : Board) :
  hid_nonneg -> wf b -> no_duplicate b -> codes_agree b ->
  same_switches KEYS read (fun _ _ => false) ->
  exists b' r, update read b = Some (b', r) /\
    r = mkReport (replicate MAX_NUM_KEYS 0%Z) 0%Z 0%Z /\
    Forall (fun k => is_dummy k = true) (keys_to_send b') /\
    get_num_keys_pressed b' = 0 /\
    get_just_released_keys b' =
      filter (fun k => is_dummy k = false) (keys_to_send b) ++
      replicate (MAX_NUM_KEYS - get_num_released_keys b') Key_0 /\
    get_num_released_keys b' =
      length (filter (fun k => is_dummy k = false) (keys_to_send b)).
Proof.
  intros Hh Hwf Hnd Hag Hopen.
  destruct (update_cycle read b Hh Hwf Hnd)
    as (b0 & fr & b2 & Hcs & Hfr & Hsf & _ & _ & Hpl & Hu).
  destruct (scanned_full read b fr Hwf Hfr) as (E1 & _ & E3 & E4 & E5 & _).
  pose proof (pressed_keys_open KEYS read Hopen) as Hnone.
  rewrite Hnone in E1, E3, E4, E5. simpl in E1, E3, E4, E5.
  assert (Hop : ordinary_pressed KEYS read = []).
  { unfold ordinary_pressed, ordinary_seen. rewrite Hnone. reflexivity. }
  pose proof (pl_wf _ _ _ Hpl) as Hwf2.
  assert (Hempty : Forall (fun k => is_dummy k = true) (keys_to_send b2)).
  { apply Forall_lookup. intros i s Hs.
    destruct (is_dummy s) eqn:Hd; [reflexivity|].
    pose proof (cycle_slot_pressed read b b0 fr b2 Hcs Hsf Hpl i s Hs Hd)
      as Hp.
    rewrite Hop in Hp. discriminate. }
  assert (Hzero : codes_to_send b2 = replicate MAX_NUM_KEYS 0%Z).
  { symmetry. apply replicate_as_Forall. split; [exact (wf_codes _ Hwf2)|].
    apply Forall_lookup. intros i c Hc.
    destruct (cycle_code read b b0 fr b2 Hcs Hsf Hpl i c Hc)
      as [(k & c0 & Hk & Hc0 & ->)|(s & Hin & _)].
    - unfold release_code, released. destruct (is_dummy k) eqn:Hd; simpl.
      + symmetry. apply (Hag i k c0 Hk Hc0). exact Hd.
      + rewrite (frame_pressed_in read b b0 fr Hcs Hsf k Hd), Hop.
        reflexivity.
    - rewrite Hop in Hin. inversion Hin. }
  destruct (cycle_released_list read b b0 fr b2 Hcs Hsf Hpl)
    as (Hrel & Hnum & _).
  assert (Hfilter :
    released_keys (ordinary_pressed KEYS read) (keys_to_send b) =
    filter (fun k => is_dummy k = false) (keys_to_send b)).
  { rewrite Hop. unfold released_keys. apply list_filter_iff. intros k.
    unfold released. simpl. rewrite andb_true_r.
    destruct (is_dummy k); simpl; split; congruence. }
  rewrite Hfilter in Hrel, Hnum.
  eexists _, _. split; [exact Hu|].
  rewrite (cycle_modifier fr b2 Hpl), Hzero, E1, E3, E4.
  split; [reflexivity|]. split; [exact Hempty|].
  unfold get_num_keys_pressed, get_just_released_keys,
    get_num_released_keys.
  cbn [tot_num_keys_pressed just_released_keys num_keys_released
       set_current_media].
  rewrite Hnum. split; [|split; [exact Hrel | reflexivity]].
  pose proof (pl_same _ _ _ Hpl) as Hsame.
  apply (f_equal tot_num_keys_pressed) in Hsame. simpl in Hsame.
  rewrite Hsame. exact E5.
Qed.


(** X15.  A second cycle on the same switches changes nothing that is
    sent: the slots, their codes and the whole report are those of the
    first cycle, also where a slot is empty, and no key is released. *)
Theorem steady_state (read : nat -> nat -> bool) (b : Board) :
  hid_nonneg -> wf b -> no_duplicate b ->
  exists b1 r1 b2 r2,
    update read b = Some (b1, r1) /\ update read b1 = Some (b2, r2) /\
    r2 = r1 /\
    keys_to_send b2 = keys_to_send b1 /\
    codes_to_send b2 = codes_to_send b1 /\
    get_num_released_keys b2 = 0.
Proof.
  intros Hh Hwf Hnd.
  destruct (update_cycle read b Hh Hwf Hnd)
    as (b0 & fr & t & Hcs & Hfr & Hsf & _ & _ & Hpl & Hu).
  set (b1 := set_current_media
               (media_code (fn_pressed fr) (pressed_media fr)) t) in *.
  assert (Hwf1 : wf b1)
    by (apply set_current_media_wf; exact (pl_wf _ _ _ Hpl)).
  assert (Hnd1 : no_duplicate b1) by exact (pl_nodup _ _ _ Hpl).
  destruct (update_cycle read b1 Hh Hwf1 Hnd1)
    as (b0' & fr' & t' & Hcs' & Hfr' & Hsf' & _ & _ & Hpl' & Hu').
  destruct (scanned_full read b fr Hwf Hfr) as (E1 & _ & E3 & E4 & _).
  destruct (scanned_full read b1 fr' Hwf1 Hfr') as (F1 & _ & F3 & F4 & _).
  destruct (steady_slots read b b0 fr t b1 b0' fr' t' Hcs Hsf Hpl
              eq_refl eq_refl Hcs' Hsf' Hpl') as [Hk Hc].
  eexists _, _, _, _. split; [exact Hu|]. split; [exact Hu'|].
  split; [|split; [exact Hk|split; [exact Hc|]]].
  - rewrite Hc, (cycle_modifier fr' t' Hpl'), (cycle_modifier fr t Hpl).
    rewrite F1, F3, F4, E1, E3, E4. reflexivity.
  - exact (steady_released read b b0 fr t b1 b0' fr' t' Hcs Hsf Hpl
             eq_refl Hcs' Hsf' Hpl').
Qed.

(** X16.  Pressing keys on an empty keyboard.  When every slot is empty
    and the ordinary keys pressed are distinct, the cycle puts them into
    the slots in scan order: the i-th of them goes into slot [i], with the
    low byte of its layer code for the layer switches at (4, 1) and
    (4, 2); the slots beyond them stay as they were. *)
Theorem first_presses_in_scan_order (read : nat -> nat -> bool) (b : Board) :
  hid_nonneg -> wf b ->
  Forall (fun k => is_dummy k = true) (keys_to_send b) ->
  NoDup (kid <$> ordinary_pressed KEYS read) ->
  exists b' r, update read b = Some (b', r) /\
    forall i,
      (forall k, ordinary_pressed KEYS read !! i = Some k ->
         keys_to_send b' !! i = Some k /\
         codes_to_send b' !! i =
           Some (to_uint8 (layer_code (read 4 1) (read 4 2) k))) /\
      (ordinary_pressed KEYS read !! i = None ->
         keys_to_send b' !! i = keys_to_send b !! i /\
         codes_to_send b' !! i = codes_to_send b !! i).
Proof.
  intros Hh Hwf Hempty Hdist.
  assert (Hnd : no_duplicate b).
  { intros i j a c Ha _ Hd _.
    rewrite (Forall_lookup_1 _ _ _ _ Hempty Ha) in Hd. discriminate. }
  destruct (update_cycle read b Hh Hwf Hnd)
    as (b0 & fr & b2 & Hcs & Hfr & Hsf & _ & Hloop & Hpl & Hu).
  pose proof (frame_wf read b0 fr Hsf) as Hwff.
  set (b1 := release_upto MAX_NUM_KEYS fr) in *.
  assert (Hk1 : keys_to_send b1 = keys_to_send b).
  { unfold b1. rewrite (released_keys_to_send fr Hwff).
    rewrite (frame_keys read b b0 fr Hcs Hsf).
    rewrite <- (list_fmap_id (keys_to_send b)) at 2.
    apply Forall_fmap_ext_1. eapply Forall_impl; [exact Hempty|].
    intros k Hk. unfold release_key, released. rewrite Hk. reflexivity. }
  assert (Hc1 : codes_to_send b1 = codes_to_send b).
  { unfold b1. rewrite (released_codes_to_send fr Hwff).
    rewrite (frame_keys read b b0 fr Hcs Hsf),
      (frame_codes read b b0 fr Hcs Hsf).
    apply list_eq. intros i. rewrite lookup_zip_with.
    destruct (keys_to_send b !! i) as [k|] eqn:Hk; simpl.
    - destruct (codes_to_send b !! i) as [c|]; simpl; [|reflexivity].
      unfold release_code, released.
      rewrite (Forall_lookup_1 _ _ _ _ Hempty Hk). reflexivity.
    - apply lookup_ge_None in Hk. symmetry. apply lookup_ge_None.
      rewrite (wf_codes _ Hwf). rewrite (wf_keys _ Hwf) in Hk. exact Hk. }
  assert (Hord : Forall (fun k => is_dummy k = false)
                   (ordinary_pressed KEYS read)).
  { apply Forall_forall. intros k Hk.
    exact (proj1 (proj2 (scanned_curr_elem KEYS read k Hk))). }
  assert (Hlen : length (ordinary_pressed KEYS read) <= MAX_NUM_KEYS).
  { unfold ordinary_pressed. rewrite length_take. lia. }
  destruct (place_in_order b1 (ordinary_pressed KEYS read)) with (b2 := b2)
    as (_ & _ & Hslots).
  - exact (released_wf fr Hwff).
  - rewrite Hk1. exact Hempty.
  - change (curr_pressed_keys b1) with (curr_pressed_keys fr).
    rewrite (frame_curr read b b0 fr Hcs Hsf). apply fill_prefix.
  - exact Hlen.
  - exact Hord.
  - exact Hdist.
  - exact Hloop.
  - destruct (scanned_full read b fr Hwf Hfr) as (E1 & E2 & _).
    assert (Hfn : fn_pressed b1 = read 4 1).
    { change (fn_pressed b1) with (fn_pressed fr). rewrite E1.
      apply existsb_position; [bounds | bounds | | reflexivity].
      intros row col Hr Hc.
      exact (proj1 (KEYS_layer_keys row col Hh Hr Hc)). }
    assert (Hfn2 : fn2_pressed b1 = read 4 2).
    { change (fn2_pressed b1) with (fn2_pressed fr). rewrite E2.
      apply existsb_position; [bounds | bounds | | reflexivity].
      intros row col Hr Hc.
      exact (proj2 (KEYS_layer_keys row col Hh Hr Hc)). }
    eexists _, _. split; [exact Hu|]. intros i.
    cbn [keys_to_send codes_to_send set_current_media].
    rewrite <- Hfn, <- Hfn2, <- Hk1, <- Hc1. split.
    + intros k Hk. apply (proj1 (Hslots i)); [|exact Hk].
      apply lookup_lt_Some in Hk. lia.
    + intros Hk. apply (proj2 (Hslots i)). right. exact Hk.
Qed.

(** X17.  No run of cycles indexes outside a buffer.  From a state whose
    arrays have their sizes, whatever they and the counters contain, every
    sequence of states of the switches is processed to the end, and the
    arrays keep their sizes: the counters are reset at the start of each
    cycle, and a write to [curr_pressed_keys] is guarded by its
    capacity. *)
Theorem run_never_fails (reads : list (nat -> nat -> bool)) (b : Board) :
  hid_nonneg -> wf b -> exists b', run reads b = Some b' /\ wf b'.
Proof.
  intros Hh. revert b. induction reads as [|read reads IH]; intros b Hwf.
  - exists b. split; [reflexivity | exact Hwf].
  - destruct (update_total read b Hh Hwf)
      as (_ & _ & b' & _ & _ & _ & _ & Hwf' & Hu).
    simpl. rewrite Hu, bind_Some_l. apply IH. exact Hwf'.
Qed.


(** X18.  The table [KEYS] has no media key: when no Teensy macro has the
    high byte of a media code, the scan never sets [pressed_media], and
    every cycle reports the media code 0, whatever is pressed. *)
Theorem media_never_reported (read : nat -> nat -> bool) (b : Board) :
  hid_nonneg -> hid_no_media -> wf b ->
  exists b' r, update read b = Some (b', r) /\
    report_media r = 0%Z /\ current_media b' = 0%Z /\
    pressed_media b' = Key_0.
Proof.
  intros Hh Hm Hwf.
  destruct (update_scan read b Hh Hwf)
    as (fr & b' & Hfr & Hupd & _ & _ & Hp & Hu).
  destruct (scanned_full read b fr Hwf Hfr) as (_ & _ & _ & E4 & _).
  rewrite foldl_last_media_none in E4.
  - unfold scan_part in Hp. injection Hp as _ _ _ _ _ _ _ Hpm.
    exists b'. eexists. split; [exact Hu|].
    rewrite (update_keys_to_send_media _ _ Hupd), Hpm, E4.
    cbn [report_media]. auto.
  - apply Forall_forall. intros k Hk.
    apply pressed_keys_elem in Hk as (row & col & _ & _ & _ & ->).
    apply (table_entry_no_media _ Hm).
    apply at_table_entry, KEYS_rows_entries.
Qed.

(** X19.  The second table, [KEYS_SPECIAL], is [KEYS] with the two codes
    of each digit key of row 0 exchanged (columns 1 to 12, the function
    keys become the primary codes); every other entry, the escape key of
    row 0 included, is the same in both tables. *)
Theorem special_table_swaps_row_0 (row col : nat) :
  row < NUM_ROWS -> col < NUM_COLS ->
  if (row =? 0) && (1 <=? col) && (col <=? 12)
  then KEYS_SPECIAL row col =
       Key_2 (second (KEYS row col)) (code (KEYS row col))
  else KEYS_SPECIAL row col = KEYS row col.
Proof.
  intros Hr Hc. unfold NUM_ROWS in Hr. unfold NUM_COLS in Hc.
  do 5 (destruct row as [|row];
        [do 14 (destruct col as [|col]; [reflexivity|]); lia|]).
  lia.
Qed.


End Firmware.

(** * The content of default-constructed keys

    Inside the section above every [Key()] has the same two unwritten
    members.  Here two runs of the firmware are compared whose
    default-constructed keys differ in them. *)

Section DefaultKeys.

(** The unwritten members of [Key()] in the first and in the second run. *)
Variables u2 u3 v2 v3 : Z.
Variable hid : teensy -> Z.

Lemma alike_refl (a : Key) : alike a a.
Proof. left. reflexivity. Qed.

Lemma alike_list_refl (l : list Key) : Forall2 alike l l.
Proof. induction l; constructor; [apply alike_refl | assumption]. Qed.

Lemma alike_dummy (a c : Key) : alike a c -> is_dummy a = is_dummy c.
Proof. intros [->|[-> ->]]; reflexivity. Qed.

Lemma alike_eq (a c : Key) : alike a c -> is_dummy a = false -> a = c.
Proof. intros [->|[Ha _]] Hd; [reflexivity | congruence]. Qed.

Lemma Key_0_alike : alike (Key_0 u2 u3) (Key_0 v2 v3).
Proof. right. split; reflexivity. Qed.

Lemma alike_key_eq (k a c : Key) :
  is_dummy k = false -> alike a c -> key_eq a k = key_eq c k.
Proof.
  intros Hk [->|[Ha Hc]]; [reflexivity|].
  destruct (key_eq a k) eqn:E1.
  { apply key_eq_dummy in E1. congruence. }
  destruct (key_eq c k) eqn:E2; [|reflexivity].
  apply key_eq_dummy in E2. congruence.
Qed.

(** *** The table and the scan *)

Lemma KEYS_alike (row col : nat) :
  row < NUM_ROWS -> col < NUM_COLS ->
  alike (KEYS u2 u3 hid row col) (KEYS v2 v3 hid row col).
Proof.
  intros Hr Hc. unfold NUM_ROWS in Hr. unfold NUM_COLS in Hc.
  do 5 (destruct row as [|row];
        [do 14 (destruct col as [|col];
                [first [left; reflexivity | right; split; reflexivity]|]);
         lia|]).
  lia.
Qed.

Lemma pressed_keys_alike (read : nat -> nat -> bool) :
  pressed_keys (KEYS u2 u3 hid) read = pressed_keys (KEYS v2 v3 hid) read.
Proof.
  unfold pressed_keys. apply flat_map_ext_Forall.
  apply Forall_forall. intros row Hrow. apply elem_of_seq in Hrow.
  unfold row_keys.
  assert (Hf : filter (fun col => closed (KEYS u2 u3 hid) read row col = true)
                 (seq 0 NUM_COLS) =
               filter (fun col => closed (KEYS v2 v3 hid) read row col = true)
                 (seq 0 NUM_COLS)).
  { apply filter_ext_Forall. apply Forall_forall. intros col Hcol.
    apply elem_of_seq in Hcol. unfold closed.
    rewrite (alike_dummy _ _ (KEYS_alike row col ltac:(lia) ltac:(lia))).
    reflexivity. }
  rewrite Hf. apply Forall_fmap_ext_1. apply Forall_forall. intros col Hcol.
  apply list_elem_of_filter in Hcol as [Hcl Hcol]. apply elem_of_seq in Hcol.
  pose proof (KEYS_alike row col ltac:(lia) ltac:(lia)) as Ha.
  apply (alike_eq _ _ Ha). rewrite (alike_dummy _ _ Ha).
  unfold closed in Hcl.
  destruct (is_dummy (KEYS v2 v3 hid row col)); [discriminate | reflexivity].
Qed.

Lemma reset_list_alike (l l' : list Key) :
  Forall2 alike l l' ->
  Forall2 alike (reset_list u2 u3 l) (reset_list v2 v3 l').
Proof.
  induction 1 as [|k k' l l' Hk Hl IH]; simpl; [constructor|].
  rewrite <- (alike_dummy _ _ Hk). destruct (is_dummy k).
  - constructor; assumption.
  - constructor; [exact Key_0_alike | exact IH].
Qed.

Lemma foldl_last_media_alike (keys : list Key) (m m' : Key) :
  alike m m' -> alike (foldl last_media m keys) (foldl last_media m' keys).
Proof.
  revert m m'. induction keys as [|k keys IH]; intros m m' Hm; simpl;
    [exact Hm|].
  apply IH. unfold last_media.
  destruct (reaches_media k); [apply alike_refl | exact Hm].
Qed.

Lemma media_code_alike (fn : bool) (m m' : Key) :
  alike m m' -> media_code fn m = media_code fn m'.
Proof.
  intros [->|[Hm Hm']]; [reflexivity|]. unfold media_code.
  rewrite Hm, Hm'. reflexivity.
Qed.

(** *** Phase 1 *)

Lemma pressed_in_alike (cur cur' : list Key) (k : Key) :
  is_dummy k = false -> Forall2 alike cur cur' ->
  pressed_in cur k = pressed_in cur' k.
Proof.
  intros Hk. unfold pressed_in.
  induction 1 as [|c c' cur cur' Hc _ IH]; simpl; [reflexivity|].
  rewrite IH, (key_eq_sym k c), (key_eq_sym k c'), (alike_key_eq k c c' Hk Hc).
  reflexivity.
Qed.

Lemma released_alike (cur cur' : list Key) (k k' : Key) :
  Forall2 alike cur cur' -> alike k k' ->
  released cur k = released cur' k'.
Proof.
  intros Hcur Hk. unfold released. rewrite <- (alike_dummy _ _ Hk).
  destruct (is_dummy k) eqn:Hd; [reflexivity|].
  rewrite <- (alike_eq _ _ Hk Hd), (pressed_in_alike cur cur' k Hd Hcur).
  reflexivity.
Qed.

Section Phase1.

Variables cur cur' : list Key.
Hypothesis Hcur : Forall2 alike cur cur'.

Lemma release_keys_alike (kts kts' : list Key) :
  Forall2 alike kts kts' ->
  Forall2 alike (release_key u2 u3 cur <$> kts)
    (release_key v2 v3 cur' <$> kts').
Proof.
  induction 1 as [|k k' kts kts' Hk _ IH]; simpl; constructor; [|exact IH].
  unfold release_key. rewrite <- (released_alike cur cur' k k' Hcur Hk).
  destruct (released cur k); [exact Key_0_alike | exact Hk].
Qed.

Lemma release_codes_alike (kts kts' : list Key) (cts : list Z) :
  Forall2 alike kts kts' ->
  zip_with (release_code cur) kts cts = zip_with (release_code cur') kts' cts.
Proof.
  intros H. revert cts.
  induction H as [|k k' kts kts' Hk _ IH]; intros [|c cts]; simpl;
    try reflexivity.
  rewrite IH. unfold release_code.
  rewrite (released_alike cur cur' k k' Hcur Hk). reflexivity.
Qed.

Lemma released_keys_alike (kts kts' : list Key) :
  Forall2 alike kts kts' -> released_keys cur kts = released_keys cur' kts'.
Proof.
  unfold released_keys.
  induction 1 as [|k k' kts kts' Hk _ IH]; [reflexivity|].
  rewrite !filter_cons, IH.
  pose proof (released_alike cur cur' k k' Hcur Hk) as Hr.
  destruct (decide (released cur k = true)) as [H1|H1],
    (decide (released cur' k' = true)) as [H2|H2]; try congruence.
  f_equal. apply (alike_eq _ _ Hk). unfold released in H1.
  destruct (is_dummy k); [discriminate | reflexivity].
Qed.

End Phase1.

Lemma release_upto_alike (t t' : Board) :
  wf t -> wf t' -> alike_boards t t' ->
  alike_boards (release_upto u2 u3 MAX_NUM_KEYS t)
    (release_upto v2 v3 MAX_NUM_KEYS t').
Proof.
  intros Hwf Hwf' Ha.
  pose proof (al_curr _ _ Ha) as Hcur. pose proof (al_keys _ _ Ha) as Hkts.
  constructor.
  - exact (al_fn _ _ Ha).
  - exact (al_fn2 _ _ Ha).
  - exact (al_num_pressed _ _ Ha).
  - rewrite (released_num u2 u3 t Hwf), (released_num v2 v3 t' Hwf').
    rewrite (released_keys_alike _ _ Hcur _ _ Hkts). reflexivity.
  - exact (al_tot _ _ Ha).
  - exact Hcur.
  - exact (al_all _ _ Ha).
  - rewrite (released_just_released u2 u3 t Hwf),
      (released_just_released v2 v3 t' Hwf').
    rewrite (released_keys_alike _ _ Hcur _ _ Hkts).
    apply Forall2_app; [apply alike_list_refl|].
    apply Forall2_drop. exact (al_released _ _ Ha).
  - rewrite (released_keys_to_send u2 u3 t Hwf),
      (released_keys_to_send v2 v3 t' Hwf').
    exact (release_keys_alike _ _ Hcur _ _ Hkts).
  - rewrite (released_codes_to_send u2 u3 t Hwf),
      (released_codes_to_send v2 v3 t' Hwf').
    rewrite <- (al_codes _ _ Ha).
    exact (release_codes_alike _ _ Hcur _ _ _ Hkts).
  - exact (al_modifier _ _ Ha).
  - exact (al_pressed_media _ _ Ha).
  - exact (al_media _ _ Ha).
Qed.

(** *** Phase 2 *)

Lemma find_slot_list_alike (k : Key) (l l' : list Key) (i : nat)
    (st : nat * bool) :
  is_dummy k = false -> Forall2 alike l l' ->
  find_slot_list k l i st = find_slot_list k l' i st.
Proof.
  intros Hk H. revert i st.
  induction H as [|s s' l l' Hs _ IH]; intros i st; simpl; [reflexivity|].
  rewrite <- (alike_dummy _ _ Hs), <- (alike_key_eq k s s' Hk Hs), !IH.
  reflexivity.
Qed.

Lemma try_place_key_alike (k : Key) (t t' t1 t1' : Board) (p p' : bool) :
  wf t -> wf t' -> alike_boards t t' -> is_dummy k = false ->
  try_place_key k t = Some (t1, p) -> try_place_key k t' = Some (t1', p') ->
  wf t1 /\ wf t1' /\ alike_boards t1 t1'.
Proof.
  intros Hwf Hwf' Ha Hk. unfold try_place_key.
  rewrite (find_slot_spec (keys_to_send t) k MAX_NUM_KEYS 0)
    by (rewrite (wf_keys _ Hwf); reflexivity).
  rewrite (find_slot_spec (keys_to_send t') k MAX_NUM_KEYS 0)
    by (rewrite (wf_keys _ Hwf'); reflexivity).
  rewrite !bind_Some_l, !drop_0.
  rewrite (find_slot_list_alike k _ _ 0 (0, false) Hk (al_keys _ _ Ha)).
  destruct (find_slot_list k (keys_to_send t') 0 (0, false))
    as [[l [|]]|]; cbn [negb].
  - destruct (store (keys_to_send t) l k) as [kts|] eqn:E1;
      [|simpl; discriminate].
    destruct (store (keys_to_send t') l k) as [kts'|] eqn:E2;
      [|simpl; discriminate].
    rewrite !bind_Some_l.
    match goal with |- (?x ≫= _) = _ -> _ =>
      destruct x as [cts|] eqn:E3 end; [|simpl; discriminate].
    match goal with |- _ -> (?x ≫= _) = _ -> _ =>
      destruct x as [cts'|] eqn:E4 end; [|simpl; discriminate].
    rewrite !bind_Some_l. intros [= <- _] [= <- _].
    apply store_Some in E1 as [_ ->]. apply store_Some in E2 as [_ ->].
    apply store_Some in E3 as [_ ->]. apply store_Some in E4 as [_ ->].
    split; [exact (place_at_wf l k t Hwf)|].
    split; [exact (place_at_wf l k t' Hwf')|].
    constructor.
    + exact (al_fn _ _ Ha).
    + exact (al_fn2 _ _ Ha).
    + exact (al_num_pressed _ _ Ha).
    + exact (al_num_released _ _ Ha).
    + exact (al_tot _ _ Ha).
    + exact (al_curr _ _ Ha).
    + exact (al_all _ _ Ha).
    + exact (al_released _ _ Ha).
    + apply Forall2_insert; [exact (al_keys _ _ Ha) | apply alike_refl].
    + cbn [codes_to_send set_codes_to_send].
      rewrite (al_fn _ _ Ha), (al_fn2 _ _ Ha), (al_codes _ _ Ha).
      reflexivity.
    + exact (al_modifier _ _ Ha).
    + exact (al_pressed_media _ _ Ha).
    + exact (al_media _ _ Ha).
  - intros [= <- _] [= <- _]. auto.
  - intros [= <- _] [= <- _]. auto.
Qed.

Lemma place_pressed_alike (i : nat) (t t' t1 t1' : Board) :
  wf t /\ wf t' /\ alike_boards t t' ->
  place_pressed i t = Some t1 -> place_pressed i t' = Some t1' ->
  wf t1 /\ wf t1' /\ alike_boards t1 t1'.
Proof.
  intros (Hwf & Hwf' & Ha). unfold place_pressed.
  destruct (curr_pressed_keys t !! i) as [k|] eqn:Hk;
    [|simpl; discriminate].
  destruct (curr_pressed_keys t' !! i) as [k'|] eqn:Hk';
    [|simpl; discriminate].
  rewrite !bind_Some_l.
  pose proof (Forall2_lookup_lr _ _ _ _ _ _ (al_curr _ _ Ha) Hk Hk') as Hkk.
  rewrite <- (alike_dummy _ _ Hkk).
  destruct (is_dummy k) eqn:Hd; cbn [negb].
  - intros [= <-] [= <-]. auto.
  - rewrite <- (alike_eq _ _ Hkk Hd).
    destruct (try_place_key k t) as [[x p]|] eqn:H1; [|simpl; discriminate].
    destruct (try_place_key k t') as [[x' p']|] eqn:H2;
      [|simpl; discriminate].
    simpl. intros [= <-] [= <-].
    exact (try_place_key_alike k t t' x x' p p' Hwf Hwf' Ha Hd H1 H2).
Qed.

(** Two runs of a loop stay related when each iteration keeps them so. *)
Lemma for_each_rel {A St St' : Type} (R : St -> St' -> Prop)
    (body : A -> St -> option St) (body' : A -> St' -> option St')
    (l : list A) :
  (forall i x x' y y',
     R x x' -> body i x = Some y -> body' i x' = Some y' -> R y y') ->
  forall s s' t t',
    R s s' -> for_each body l s = Some t -> for_each body' l s' = Some t' ->
    R t t'.
Proof.
  intros Hstep. induction l as [|i l IH]; intros s s' t t' HR; simpl.
  - intros [= <-] [= <-]. exact HR.
  - destruct (body i s) as [y|] eqn:E1; [|simpl; discriminate].
    destruct (body' i s') as [y'|] eqn:E2; [|simpl; discriminate].
    rewrite !bind_Some_l. apply IH. exact (Hstep i s s' y y' HR E1 E2).
Qed.

(** *** A cycle *)

(** From two states whose slots and [all_pressed_keys] are alike and whose
    codes and media code are equal, a cycle on the same switches gives the
    same report and alike states, whatever the two contents of the
    default-constructed keys are. *)
Lemma update_alike (read : nat -> nat -> bool) (b b' : Board) :
  hid_nonneg hid -> wf b -> wf b' ->
  Forall2 alike (keys_to_send b) (keys_to_send b') ->
  codes_to_send b = codes_to_send b' ->
  Forall2 alike (all_pressed_keys b) (all_pressed_keys b') ->
  current_media b = current_media b' ->
  exists b1 r b1' r',
    update u2 u3 hid read b = Some (b1, r) /\
    update v2 v3 hid read b' = Some (b1', r') /\
    r = r' /\ alike_boards b1 b1'.
Proof.
  intros Hh Hwf Hwf' Hkts Hcts Hall Hmed.
  destruct (update_total u2 u3 hid read b Hh Hwf)
    as (b0 & fr & b1 & Hcs & Hfr & Hsf & Hu & Hwf1 & Hupd).
  destruct (update_total v2 v3 hid read b' Hh Hwf')
    as (b0' & fr' & b1' & Hcs' & Hfr' & Hsf' & Hu' & Hwf1' & Hupd').
  pose proof (frame_wf u2 u3 hid read b0 fr Hsf) as Hwff.
  pose proof (frame_wf v2 v3 hid read b0' fr' Hsf') as Hwff'.
  destruct (frame_released u2 u3 hid read b b0 fr Hcs Hsf) as [Hjr Hnr].
  destruct (frame_released v2 v3 hid read b' b0' fr' Hcs' Hsf') as [Hjr' Hnr'].
  assert (Hfra : alike_boards fr fr').
  { destruct (scanned_full u2 u3 hid read b fr Hwf Hfr)
      as (E1 & E2 & E3 & E4 & E5 & E6).
    destruct (scanned_full v2 v3 hid read b' fr' Hwf' Hfr')
      as (F1 & F2 & F3 & F4 & F5 & F6).
    rewrite (pressed_keys_alike read) in E1, E2, E3, E4, E5, E6.
    constructor.
    - rewrite E1, F1. reflexivity.
    - rewrite E2, F2. reflexivity.
    - rewrite (sf_num_pressed _ _ _ _ Hsf), (sf_num_pressed _ _ _ _ Hsf').
      unfold ordinary_seen. rewrite (pressed_keys_alike read). reflexivity.
    - rewrite Hnr, Hnr'. reflexivity.
    - rewrite E5, F5. reflexivity.
    - rewrite (frame_curr u2 u3 hid read b b0 fr Hcs Hsf),
        (frame_curr v2 v3 hid read b' b0' fr' Hcs' Hsf').
      rewrite !fill_prefix. unfold ordinary_seen.
      rewrite (pressed_keys_alike read).
      apply Forall2_app; [apply alike_list_refl|].
      apply Forall2_replicate. exact Key_0_alike.
    - rewrite E6, F6. apply Forall2_app; [apply alike_list_refl|].
      apply Forall2_drop, reset_list_alike. exact Hall.
    - rewrite Hjr, Hjr'. apply Forall2_replicate. exact Key_0_alike.
    - rewrite (frame_keys u2 u3 hid read b b0 fr Hcs Hsf),
        (frame_keys v2 v3 hid read b' b0' fr' Hcs' Hsf').
      exact Hkts.
    - rewrite (frame_codes u2 u3 hid read b b0 fr Hcs Hsf),
        (frame_codes v2 v3 hid read b' b0' fr' Hcs' Hsf').
      exact Hcts.
    - rewrite E3, F3. reflexivity.
    - rewrite E4, F4. apply foldl_last_media_alike. exact Key_0_alike.
    - rewrite (sk_media _ _ (sf_keeps _ _ _ _ Hsf)), (cs_media _ _ _ _ Hcs).
      rewrite (sk_media _ _ (sf_keeps _ _ _ _ Hsf')),
        (cs_media _ _ _ _ Hcs').
      exact Hmed. }
  unfold update_keys_to_send in Hu, Hu'.
  rewrite (remove_released_keys_spec u2 u3 fr Hwff Hnr), bind_Some_l in Hu.
  rewrite (remove_released_keys_spec v2 v3 fr' Hwff' Hnr'), bind_Some_l in Hu'.
  destruct (for_upto MAX_NUM_KEYS place_pressed
              (release_upto u2 u3 MAX_NUM_KEYS fr)) as [t|] eqn:Hloop;
    [|discriminate].
  destruct (for_upto MAX_NUM_KEYS place_pressed
              (release_upto v2 v3 MAX_NUM_KEYS fr')) as [t'|] eqn:Hloop';
    [|discriminate].
  rewrite bind_Some_l in Hu, Hu'. injection Hu as <-. injection Hu' as <-.
  destruct (for_each_rel
              (fun x x' => wf x /\ wf x' /\ alike_boards x x')
              place_pressed place_pressed (seq 0 MAX_NUM_KEYS)
              place_pressed_alike _ _ t t'
              (conj (released_wf u2 u3 fr Hwff)
                 (conj (released_wf v2 v3 fr' Hwff')
                    (release_upto_alike fr fr' Hwff Hwff' Hfra)))
              Hloop Hloop') as (_ & _ & Ht).
  assert (Hcode : media_code (fn_pressed t) (pressed_media t) =
                  media_code (fn_pressed t') (pressed_media t')).
  { rewrite (al_fn _ _ Ht).
    apply media_code_alike. exact (al_pressed_media _ _ Ht). }
  eexists _, _, _, _. split; [exact Hupd|]. split; [exact Hupd'|].
  cbn [codes_to_send current_modifier current_media set_current_media].
  split.
  - rewrite (al_codes _ _ Ht), (al_modifier _ _ Ht), Hcode. reflexivity.
  - constructor;
      [ exact (al_fn _ _ Ht) | exact (al_fn2 _ _ Ht)
      | exact (al_num_pressed _ _ Ht) | exact (al_num_released _ _ Ht)
      | exact (al_tot _ _ Ht) | exact (al_curr _ _ Ht)
      | exact (al_all _ _ Ht) | exact (al_released _ _ Ht)
      | exact (al_keys _ _ Ht) | exact (al_codes _ _ Ht)
      | exact (al_modifier _ _ Ht) | exact (al_pressed_media _ _ Ht)
      | exact Hcode ].
Qed.

(** X9.  [init] writes nine of the thirteen members and leaves
    [just_released_keys], [num_keys_released], [current_modifier] and
    [pressed_media] as the memory had them; the buffers it writes are
    filled with dummy keys and zero codes.  Neither what it leaves alone
    nor what [Key()] leaves unwritten shows: after [init] on two
    memories, with two contents of the default-constructed keys, the first
    cycle on the same switches gives the same report, and states that
    are equal but for the unwritten members of their dummy keys. *)
Theorem init_then_first_cycle (b0 b0' : Board) :
  hid_nonneg hid -> wf b0 -> wf b0' ->
  exists b b', init u2 u3 b0 = Some b /\ init v2 v3 b0' = Some b' /\
    just_released_keys b = just_released_keys b0 /\
    num_keys_released b = num_keys_released b0 /\
    current_modifier b = current_modifier b0 /\
    pressed_media b = pressed_media b0 /\
    Forall (fun k => is_dummy k = true) (keys_to_send b) /\
    Forall (fun k => is_dummy k = true) (get_curr_pressed_keys b) /\
    Forall (fun c => c = 0%Z) (codes_to_send b) /\
    get_num_keys_pressed b = 0 /\
    forall read, exists b1 r b1' r',
      update u2 u3 hid read b = Some (b1, r) /\
      update v2 v3 hid read b' = Some (b1', r') /\
      r = r' /\ alike_boards b1 b1'.
Proof.
  intros Hh Hwf Hwf'.
  pose proof (init_eq u2 u3 b0 Hwf) as Eb.
  pose proof (init_eq v2 v3 b0' Hwf') as Eb'.
  match type of Eb with _ = Some ?x => set (b := x) in * end.
  match type of Eb' with _ = Some ?x => set (b' := x) in * end.
  assert (Hwfb : wf b).
  { constructor; unfold b;
      cbn [curr_pressed_keys all_pressed_keys just_released_keys
           keys_to_send codes_to_send];
      rewrite ?length_replicate; try reflexivity.
    exact (wf_released _ Hwf). }
  assert (Hwfb' : wf b').
  { constructor; unfold b';
      cbn [curr_pressed_keys all_pressed_keys just_released_keys
           keys_to_send codes_to_send];
      rewrite ?length_replicate; try reflexivity.
    exact (wf_released _ Hwf'). }
  exists b, b'. split; [exact Eb|]. split; [exact Eb'|].
  do 4 (split; [reflexivity|]).
  split; [apply Forall_replicate; reflexivity|].
  split; [apply Forall_replicate; reflexivity|].
  split; [apply Forall_replicate; reflexivity|].
  split; [reflexivity|].
  intros read. apply (update_alike read b b' Hh Hwfb Hwfb').
  - apply Forall2_replicate. exact Key_0_alike.
  - reflexivity.
  - apply Forall2_replicate. exact Key_0_alike.
  - reflexivity.
Qed.

End DefaultKeys.

(** * The properties on concrete inputs *)

Lemma teensy_hid_nonneg : hid_nonneg teensy_hid.
Proof. intros []; vm_compute; discriminate. Qed.

Lemma teensy_hid_low_byte : hid_low_byte teensy_hid.
Proof. intros []; vm_compute; discriminate. Qed.

Lemma blank_wf : wf blank.
Proof. constructor; reflexivity. Qed.

Lemma holding_L_wf : wf holding_L.
Proof. constructor; reflexivity. Qed.

Lemma six_held_wf : wf six_held.
Proof. constructor; reflexivity. Qed.

Ltac all_held := repeat (constructor; [vm_compute; reflexivity|]); constructor.



(** Against C2 as it is stated.  L is pressed alone, then held while FN is
    pressed too.  The code of its slot is 15 (L) after both cycles; its
    secondary code (UP, 82), which the statement expects in the second cycle,
    is never sent. *)
Lemma held_code_counterexample :
  exists b0 b1 r1 b2 r2,
    init 0 0 blank = Some b0 /\
    update 0 0 teensy_hid (switches [(2, 4)]) b0 = Some (b1, r1) /\
    update 0 0 teensy_hid (switches [(2, 4); (4, 1)]) b1 = Some (b2, r2) /\
    keys_to_send b1 !! 0 = Some key_L /\ keys_to_send b2 !! 0 = Some key_L /\
    has_second key_L = true /\
    fn_pressed b1 = false /\ fn_pressed b2 = true /\
    codes_to_send b1 !! 0 = Some 15%Z /\ codes_to_send b2 !! 0 = Some 15%Z /\
    report_keys r2 = [15; 0; 0; 0; 0; 0]%Z /\
    to_uint8 (spec_layer_code (fn_pressed b2) (fn2_pressed b2) key_L) = 82%Z /\
    codes_to_send b2 !! 0 <>
      Some (to_uint8 (spec_layer_code (fn_pressed b2) (fn2_pressed b2) key_L)).
Proof.
  eexists _, _, _, _, _.
  split; [vm_compute; reflexivity|].
  split; [vm_compute; reflexivity|].
  split; [vm_compute; reflexivity|].
  repeat split; try reflexivity. vm_compute. discriminate.
Qed.

Lemma held_code_unchanged_witness :
  hid_nonneg teensy_hid /\ wf holding_L /\ no_duplicate holding_L /\
  keys_to_send holding_L !! 0 = Some key_L /\ is_dummy key_L = false /\
  Forall (held 0 0 teensy_hid key_L) holding_reads /\
  exists b', run 0 0 teensy_hid holding_reads holding_L = Some b' /\
    keys_to_send b' !! 0 = Some key_L /\
    codes_to_send b' !! 0 = codes_to_send holding_L !! 0.
Proof.
  assert (Hnd : no_duplicate holding_L)
    by (apply distinct_keys_no_duplicate; reflexivity).
  assert (Hall : Forall (held 0 0 teensy_hid key_L) holding_reads)
    by (unfold holding_reads; all_held).
  split; [exact teensy_hid_nonneg|]. split; [exact holding_L_wf|].
  split; [exact Hnd|]. split; [reflexivity|]. split; [reflexivity|].
  split; [exact Hall|].
  apply (held_code_unchanged 0 0 teensy_hid holding_reads holding_L 0 key_L);
    [exact teensy_hid_nonneg | exact holding_L_wf | exact Hnd
    | reflexivity | reflexivity | exact Hall].
Defined.

Lemma slot_stability_witness :
  hid_nonneg teensy_hid /\ wf holding_L /\ no_duplicate holding_L /\
  keys_to_send holding_L !! 0 = Some key_L /\ is_dummy key_L = false /\
  Forall (held 0 0 teensy_hid key_L) holding_reads /\
  exists b', run 0 0 teensy_hid holding_reads holding_L = Some b' /\
    keys_to_send b' !! 0 = Some key_L /\
    (forall j s, keys_to_send b' !! j = Some s -> key_eq s key_L = true ->
                 j = 0) /\
    try_place_key key_L b' = Some (b', false).
Proof.
  assert (Hnd : no_duplicate holding_L)
    by (apply distinct_keys_no_duplicate; reflexivity).
  assert (Hall : Forall (held 0 0 teensy_hid key_L) holding_reads)
    by (unfold holding_reads; all_held).
  split; [exact teensy_hid_nonneg|]. split; [exact holding_L_wf|].
  split; [exact Hnd|]. split; [reflexivity|]. split; [reflexivity|].
  split; [exact Hall|].
  apply (slot_stability 0 0 teensy_hid holding_reads holding_L 0 key_L);
    [exact teensy_hid_nonneg | exact holding_L_wf | exact Hnd
    | reflexivity | reflexivity | exact Hall].
Defined.

(** A statement about every position of the matrix, by cases. *)
Ltac each_position tac :=
  let row := fresh "row" in
  let col := fresh "col" in
  let Hrow := fresh "Hrow" in
  let Hcol := fresh "Hcol" in
  intros row col Hrow Hcol;
  do 5 (destruct row as [|row];
        [do 14 (destruct col as [|col]; [tac|]);
         exfalso; unfold NUM_COLS in Hcol; lia|]);
  exfalso; unfold NUM_ROWS in Hrow; lia.

(** The keys = 0 9 8 7 stay pressed, - is released and L is pressed. *)
Lemma release_detection_witness :
  let read := switches [(0, 1); (0, 3); (0, 4); (0, 5); (0, 6); (2, 4)] in
  let k := row0 KEY_MINUS KEY_F11 in
  hid_nonneg teensy_hid /\ wf six_held /\ no_duplicate six_held /\
  keys_to_send six_held !! 1 = Some k /\ is_dummy k = false /\
  pressed_in (ordinary_pressed (KEYS 0 0 teensy_hid) read) k = false /\
  exists fr b1 b2 r,
    scanned 0 0 teensy_hid read six_held = Some fr /\
    remove_released_keys 0 0 fr = Some b1 /\
    keys_to_send b1 !! 1 = Some (Key_0 0 0) /\
    codes_to_send b1 !! 1 = Some KEY_DUMMY /\
    (exists p, p < num_keys_released b1 /\
       just_released_keys b1 !! p = Some k /\
       forall p' s, just_released_keys b1 !! p' = Some s ->
                    key_eq s k = true -> p' = p) /\
    for_upto MAX_NUM_KEYS place_pressed b1 = Some b2 /\
    update 0 0 teensy_hid read six_held =
      Some (set_current_media
              (media_code (fn_pressed fr) (pressed_media fr)) b2, r) /\
    just_released_keys b2 = just_released_keys b1 /\
    num_keys_released b2 = num_keys_released b1 /\
    (forall c, c ∈ ordinary_pressed (KEYS 0 0 teensy_hid) read ->
       exists j s, keys_to_send b2 !! j = Some s /\ key_eq s c = true) /\
    (forall s, keys_to_send b2 !! 1 = Some s -> is_dummy s = false ->
               s ∈ ordinary_pressed (KEYS 0 0 teensy_hid) read).
Proof.
  intros read k.
  assert (Hnd : no_duplicate six_held)
    by (apply distinct_keys_no_duplicate; reflexivity).
  assert (Hnp : pressed_in (ordinary_pressed (KEYS 0 0 teensy_hid) read) k
                = false) by (vm_compute; reflexivity).
  split; [exact teensy_hid_nonneg|]. split; [exact six_held_wf|].
  split; [exact Hnd|]. split; [reflexivity|]. split; [reflexivity|].
  split; [exact Hnp|].
  apply (release_detection 0 0 teensy_hid read six_held 1 k);
    [exact teensy_hid_nonneg | exact six_held_wf | exact Hnd
    | reflexivity | reflexivity | exact Hnp].
Defined.

(** In that cycle L takes the slot that - leaves. *)
Example freed_slot_reused :
  exists b' r,
    update 0 0 teensy_hid
      (switches [(0, 1); (0, 3); (0, 4); (0, 5); (0, 6); (2, 4)]) six_held
    = Some (b', r) /\
    keys_to_send b' !! 1 = Some key_L /\
    just_released_keys b' !! 0 = Some (row0 KEY_MINUS KEY_F11) /\
    num_keys_released b' = 1 /\
    report_keys r = [46; 15; 39; 38; 37; 36]%Z.
Proof.
  eexists _, _. split; [vm_compute; reflexivity|]. repeat split.
Qed.

Lemma state_invariant_witness :
  hid_nonneg teensy_hid /\ hid_low_byte teensy_hid /\ wf blank /\
  exists b, init 0 0 blank = Some b /\
    wf b /\ codes_agree b /\ no_duplicate b /\
    exists b' r,
      update 0 0 teensy_hid (switches [(2, 4); (4, 1)]) b = Some (b', r) /\
      wf b' /\ codes_agree b' /\ no_duplicate b'.
Proof.
  split; [exact teensy_hid_nonneg|]. split; [exact teensy_hid_low_byte|].
  split; [exact blank_wf|].
  destruct (state_invariant 0 0 teensy_hid teensy_hid_nonneg
              teensy_hid_low_byte) as [Hinit Hcycle].
  destruct (Hinit blank blank_wf) as (b & Hb & Hwf & Hag & Hnd).
  exists b. split; [exact Hb|]. split; [exact Hwf|]. split; [exact Hag|].
  split; [exact Hnd|].
  exact (Hcycle (switches [(2, 4); (4, 1)]) b Hwf Hag Hnd).
Defined.

(** Seven keys of row 0 are pressed while slot 0 holds L. *)
Lemma capacity_ceiling_witness :
  let read :=
    switches [(0, 0); (0, 1); (0, 2); (0, 3); (0, 4); (0, 5); (0, 6)] in
  hid_nonneg teensy_hid /\ wf holding_L /\ no_duplicate holding_L /\
  MAX_NUM_KEYS < length (ordinary_seen (KEYS 0 0 teensy_hid) read) /\
  NoDup (kid <$> ordinary_seen (KEYS 0 0 teensy_hid) read) /\
  exists b' r, update 0 0 teensy_hid read holding_L = Some (b', r) /\ wf b' /\
    (forall i, i < MAX_NUM_KEYS ->
       exists s, keys_to_send b' !! i = Some s /\ is_dummy s = false /\
         pressed_in (ordinary_pressed (KEYS 0 0 teensy_hid) read) s = true) /\
    (forall c, c ∈ ordinary_pressed (KEYS 0 0 teensy_hid) read ->
       exists i s, keys_to_send b' !! i = Some s /\ key_eq s c = true) /\
    no_duplicate b' /\
    kid <$> keys_to_send b' ≡ₚ
      kid <$> ordinary_pressed (KEYS 0 0 teensy_hid) read /\
    (forall k i s,
       k ∈ drop MAX_NUM_KEYS (ordinary_seen (KEYS 0 0 teensy_hid) read) ->
       keys_to_send b' !! i = Some s -> key_eq s k = false) /\
    num_keys_pressed b' = length (ordinary_seen (KEYS 0 0 teensy_hid) read).
Proof.
  intros read.
  assert (Hnd : no_duplicate holding_L)
    by (apply distinct_keys_no_duplicate; reflexivity).
  assert (Hmany : MAX_NUM_KEYS
                  < length (ordinary_seen (KEYS 0 0 teensy_hid) read))
    by (vm_compute; lia).
  assert (Hdist : NoDup (kid <$> ordinary_seen (KEYS 0 0 teensy_hid) read))
    by (apply (bool_decide_unpack _); vm_compute; exact I).
  split; [exact teensy_hid_nonneg|]. split; [exact holding_L_wf|].
  split; [exact Hnd|]. split; [exact Hmany|]. split; [exact Hdist|].
  apply (capacity_ceiling 0 0 teensy_hid read holding_L);
    [exact teensy_hid_nonneg | exact holding_L_wf | exact Hnd
    | exact Hmany | exact Hdist].
Defined.

(** The six slots, the report and the counter of that cycle. *)
Example seventh_key_dropped :
  exists b' r,
    update 0 0 teensy_hid
      (switches [(0, 0); (0, 1); (0, 2); (0, 3); (0, 4); (0, 5); (0, 6)])
      holding_L
    = Some (b', r) /\
    report_keys r = [42; 46; 45; 39; 38; 37]%Z /\
    num_keys_pressed b' = 7 /\ num_keys_released b' = 1.
Proof.
  eexists _, _. split; [vm_compute; reflexivity|]. repeat split.
Qed.

Lemma media_resolution_witness :
  (let b := set_pressed_media (Key_2 0xE4CD 0xE4B5)
              (empty_slots true true []) in
   exists b', update_keys_to_send 0 0 b = Some b' /\
              current_media b' = 0xE4B5%Z) /\
  (let b1 := set_pressed_media (Key_2 0xE4CD 0xE4B5)
               (empty_slots true true []) in
   let b2 := set_pressed_media (Key_2 0xE4CD 0xE4B5)
               (empty_slots true false [key_L]) in
   exists b1' b2', update_keys_to_send 0 0 b1 = Some b1' /\
     update_keys_to_send 0 0 b2 = Some b2' /\
     current_media b1' = current_media b2') /\
  (let read := switches [(2, 4); (4, 1)] in
   hid_nonneg teensy_hid /\ wf holding_L /\
   exists fr b' r, scanned 0 0 teensy_hid read holding_L = Some fr /\
     update 0 0 teensy_hid read holding_L = Some (b', r) /\
     report_media r = media_code (fn_pressed fr) (pressed_media fr) /\
     report_media r = 0%Z).
Proof.
  destruct (media_resolution 0 0 teensy_hid) as (Hcode & Hfn2 & Hcycle).
  split; [|split].
  - intros b.
    destruct (update_keys_to_send 0 0 b) as [b'|] eqn:Hu;
      [|vm_compute in Hu; discriminate].
    exists b'. split; [reflexivity|]. rewrite (Hcode b b' Hu). reflexivity.
  - intros b1 b2.
    destruct (update_keys_to_send 0 0 b1) as [b1'|] eqn:H1;
      [|vm_compute in H1; discriminate].
    destruct (update_keys_to_send 0 0 b2) as [b2'|] eqn:H2;
      [|vm_compute in H2; discriminate].
    exists b1', b2'. split; [reflexivity|]. split; [reflexivity|].
    apply (Hfn2 b1 b2 b1' b2' H1 H2); reflexivity.
  - intros read. split; [exact teensy_hid_nonneg|].
    split; [exact holding_L_wf|].
    destruct (Hcycle read holding_L teensy_hid_nonneg holding_L_wf)
      as (fr & b' & r & Hfr & Hu & Hm & Hno).
    exists fr, b', r. split; [exact Hfr|]. split; [exact Hu|].
    split; [exact Hm|]. apply Hno.
    each_position ltac:(vm_compute; reflexivity).
Defined.

(** Two media keys, at (0, 3) and at (2, 1), and an ordinary key. *)
Lemma media_last_write_wins_witness :
  let read := switches [(0, 3); (2, 1); (1, 0)] in
  let b := empty_slots false false [] in
  modifiers_ok media_layout /\ wf b /\
  tot_num_keys_pressed b = 0 /\ num_keys_pressed b = 0 /\
  2 < NUM_ROWS /\ 1 < NUM_COLS /\
  media_at media_layout read 2 1 = true /\
  (forall r c, r < NUM_ROWS -> c < NUM_COLS ->
     media_at media_layout read r c = true -> r < 2 \/ (r = 2 /\ c <= 1)) /\
  exists b', scan_layout teensy_hid media_layout read b = Some b' /\
             pressed_media b' = media_layout 2 1.
Proof.
  intros read b.
  assert (Hmod : modifiers_ok media_layout).
  { unfold modifiers_ok.
    each_position ltac:(let H := fresh in
                        intros H; vm_compute in H; discriminate H). }
  assert (Hwf : wf b) by (constructor; reflexivity).
  assert (Hlast : forall r c, r < NUM_ROWS -> c < NUM_COLS ->
            media_at media_layout read r c = true ->
            r < 2 \/ (r = 2 /\ c <= 1)).
  { each_position ltac:(let H := fresh in
                        intros H;
                        first [vm_compute in H; discriminate H | lia]). }
  split; [exact Hmod|]. split; [exact Hwf|].
  split; [reflexivity|]. split; [reflexivity|].
  split; [unfold NUM_ROWS; lia|]. split; [unfold NUM_COLS; lia|].
  split; [reflexivity|]. split; [exact Hlast|].
  apply (media_last_write_wins teensy_hid media_layout read b 2 1);
    [exact Hmod | exact Hwf | reflexivity | reflexivity
    | unfold NUM_ROWS; lia | unfold NUM_COLS; lia | reflexivity
    | exact Hlast].
Defined.

(** In that scan the key of (2, 1) replaces the key of (0, 3). *)
Example media_last_key :
  exists b',
    scan_layout teensy_hid media_layout (switches [(0, 3); (2, 1); (1, 0)])
      (empty_slots false false []) = Some b' /\
    pressed_media b' = Key_2 0xE4CD 0xE4B5 /\
    curr_pressed_keys b' !! 0 = Some (Key_3 4 58 89).
Proof.
  eexists. split; [vm_compute; reflexivity|]. repeat split.
Qed.


Lemma modifier_lookup_in_bounds_witness :
  hid_nonneg teensy_hid /\
  (let k := KEYS 0 0 teensy_hid 4 0 in
   reaches_modifier k = true /\ 4 < NUM_ROWS /\ 0 < NUM_COLS /\
   (-6 <= code k <= -1)%Z /\
   Z.to_nat (-1 * code k - 1) < NUM_MODIFIERS /\
   exists v, translate_modifier teensy_hid (code k) = Some v) /\
  translate_modifier teensy_hid KEY_FN = None /\
  translate_modifier teensy_hid KEY_FN2 = None /\
  reaches_modifier (KEYS 0 0 teensy_hid 4 1) = false /\
  reaches_modifier (KEYS 0 0 teensy_hid 4 2) = false /\
  (let b := empty_slots false false [] in
   wf b /\ tot_num_keys_pressed b = 0 /\ num_keys_pressed b = 0 /\
   exists b', scan_keys 0 0 teensy_hid
                (switches [(4, 0); (4, 1); (4, 2); (3, 13); (2, 4)]) b
              = Some b').
Proof.
  destruct (modifier_lookup_in_bounds 0 0 teensy_hid teensy_hid_nonneg)
    as (Hrange & Hfn & Hfn2 & Hskip & Hscan).
  split; [exact teensy_hid_nonneg|]. split.
  { intros k.
    assert (Hk : reaches_modifier k = true) by reflexivity.
    assert (Hr : 4 < NUM_ROWS) by (unfold NUM_ROWS; lia).
    assert (Hc : 0 < NUM_COLS) by (unfold NUM_COLS; lia).
    split; [exact Hk|]. split; [exact Hr|]. split; [exact Hc|].
    exact (Hrange (KEYS 0 0 teensy_hid) 4 0 (or_introl eq_refl) Hr Hc Hk). }
  split; [exact Hfn|]. split; [exact Hfn2|].
  split; [apply Hskip; left; reflexivity|].
  split; [apply Hskip; right; reflexivity|].
  intros b.
  assert (Hwf : wf b) by (constructor; reflexivity).
  split; [exact Hwf|]. split; [reflexivity|]. split; [reflexivity|].
  apply (Hscan _ b Hwf); reflexivity.
Defined.

(** Modifiers and layer keys in one scan: Ctrl and the left Shift are
    or-ed into the mask, FN and FN2 set their flags. *)
Example modifier_scan :
  exists b',
    scan_keys 0 0 teensy_hid
      (switches [(4, 0); (4, 1); (4, 2); (3, 13); (2, 4)])
      (empty_slots false false []) = Some b' /\
    current_modifier b' = 0xE003%Z /\
    fn_pressed b' = true /\ fn2_pressed b' = true /\
    num_keys_pressed b' = 1 /\ tot_num_keys_pressed b' = 5.
Proof.
  eexists. split; [vm_compute; reflexivity|]. repeat split.
Qed.

(** * The scenarios of the specification, run on the model *)

(** No switch is closed: six neutral codes, no modifier, no media code. *)
Example scenario_empty_matrix :
  exists b0 b1 r,
    init 0 0 blank = Some b0 /\
    update 0 0 teensy_hid (switches []) b0 = Some (b1, r) /\
    r = mkReport [0; 0; 0; 0; 0; 0]%Z 0%Z 0%Z.
Proof.
  eexists _, _, _. split; [vm_compute; reflexivity|].
  split; [vm_compute; reflexivity|]. reflexivity.
Qed.

(** L is pressed and then released. *)
Example scenario_press_release :
  exists b0 b1 r1 b2 r2,
    init 0 0 blank = Some b0 /\
    update 0 0 teensy_hid (switches [(2, 4)]) b0 = Some (b1, r1) /\
    update 0 0 teensy_hid (switches []) b1 = Some (b2, r2) /\
    report_keys r1 = [15; 0; 0; 0; 0; 0]%Z /\
    report_keys r2 = [0; 0; 0; 0; 0; 0]%Z /\
    num_keys_released b2 = 1 /\
    just_released_keys b2 !! 0 = Some key_L.
Proof.
  eexists _, _, _, _, _. split; [vm_compute; reflexivity|].
  split; [vm_compute; reflexivity|]. split; [vm_compute; reflexivity|].
  repeat split.
Qed.

(** FN and L are pressed together: the secondary code of L is sent. *)
Example scenario_layer1 :
  exists b0 b1 r,
    init 0 0 blank = Some b0 /\
    update 0 0 teensy_hid (switches [(2, 4); (4, 1)]) b0 = Some (b1, r) /\
    report_keys r = [82; 0; 0; 0; 0; 0]%Z /\
    to_uint8 (teensy_hid KEY_UP) = 82%Z.
Proof.
  eexists _, _, _. split; [vm_compute; reflexivity|].
  split; [vm_compute; reflexivity|]. repeat split.
Qed.

(** * The further properties on concrete inputs *)

Lemma teensy_hid_no_media : hid_no_media teensy_hid.
Proof. intros []; vm_compute; discriminate. Qed.

Lemma holding_L_no_duplicate : no_duplicate holding_L.
Proof. apply distinct_keys_no_duplicate. reflexivity. Qed.

Lemma holding_L_codes_agree : codes_agree holding_L.
Proof.
  intros i k c Hk Hc.
  do 6 (destruct i as [|i];
        [injection Hk as <-; injection Hc as <-; vm_compute;
         split; congruence|]).
  discriminate.
Qed.

Lemma dummies_packed (n : nat) : packed (replicate n dummy0).
Proof.
  intros i j a c _ _ Hc _. apply lookup_replicate in Hc as [-> _].
  reflexivity.
Qed.

(** The switch at (1, 0), where [KEYS] has no key, and a position outside
    the matrix make no difference. *)
Lemma unpopulated_positions_ignored_witness :
  let read1 := switches [(2, 4)] in
  let read2 := switches [(2, 4); (1, 0); (4, 5); (7, 3)] in
  same_switches (KEYS 0 0 teensy_hid) read1 read2 /\
  update 0 0 teensy_hid read1 holding_L =
  update 0 0 teensy_hid read2 holding_L.
Proof.
  intros read1 read2.
  assert (Hs : same_switches (KEYS 0 0 teensy_hid) read1 read2).
  { unfold same_switches.
    each_position ltac:(let H := fresh in
                        intros H;
                        first [reflexivity
                              | vm_compute in H; discriminate H]). }
  split; [exact Hs|].
  apply (unpopulated_positions_ignored 0 0 teensy_hid read1 read2 holding_L).
  exact Hs.
Defined.

(** FN is held, FN2 is not. *)
Lemma layer_flags_follow_switches_witness :
  let read := switches [(2, 4); (4, 1)] in
  hid_nonneg teensy_hid /\ wf holding_L /\
  exists b' r, update 0 0 teensy_hid read holding_L = Some (b', r) /\
    fn_pressed b' = read 4 1 /\ fn2_pressed b' = read 4 2.
Proof.
  intros read.
  split; [exact teensy_hid_nonneg|]. split; [exact holding_L_wf|].
  apply (layer_flags_follow_switches 0 0 teensy_hid read holding_L);
    [exact teensy_hid_nonneg | exact holding_L_wf].
Defined.

(** Left shift (3, 13) and control (4, 0) are held; bit 1 is the bit of
    left shift. *)
Lemma modifier_mask_bits_witness :
  let read := switches [(3, 13); (4, 0)] in
  hid_nonneg teensy_hid /\ wf holding_L /\
  exists b' r, update 0 0 teensy_hid read holding_L = Some (b', r) /\
    current_modifier b' = report_modifier r /\
    (Z.testbit (report_modifier r) 1 = true <->
     exists row col v, row < NUM_ROWS /\ col < NUM_COLS /\
       read row col = true /\
       reaches_modifier (KEYS 0 0 teensy_hid row col) = true /\
       translate_modifier teensy_hid (code (KEYS 0 0 teensy_hid row col))
         = Some v /\
       Z.testbit v 1 = true).
Proof.
  intros read.
  split; [exact teensy_hid_nonneg|]. split; [exact holding_L_wf|].
  apply (modifier_mask_bits 0 0 teensy_hid read holding_L 1);
    [exact teensy_hid_nonneg | exact holding_L_wf].
Defined.

(** L, left shift and FN are held: three keys. *)
Lemma getters_after_cycle_witness :
  let read := switches [(2, 4); (3, 13); (4, 1)] in
  hid_nonneg teensy_hid /\ wf holding_L /\
  packed (all_pressed_keys holding_L) /\
  exists b' r, update 0 0 teensy_hid read holding_L = Some (b', r) /\
    get_num_keys_pressed b' = length (pressed_keys (KEYS 0 0 teensy_hid) read)
    /\
    take (get_num_keys_pressed b') (get_curr_pressed_keys b') =
      pressed_keys (KEYS 0 0 teensy_hid) read /\
    Forall (fun k => is_dummy k = true)
      (drop (get_num_keys_pressed b') (get_curr_pressed_keys b')) /\
    packed (get_curr_pressed_keys b').
Proof.
  intros read.
  split; [exact teensy_hid_nonneg|]. split; [exact holding_L_wf|].
  split; [exact (dummies_packed 70)|].
  apply (getters_after_cycle 0 0 teensy_hid read holding_L);
    [exact teensy_hid_nonneg | exact holding_L_wf | exact (dummies_packed 70)].
Defined.

(** The key A, stored after a dummy entry, survives the reset. *)
Lemma reset_stops_at_first_dummy_witness :
  let l1 := [key_L] in
  let l2 := [dummy0; key_A] ++ replicate 67 dummy0 in
  wf stale_entries /\ all_pressed_keys stale_entries = l1 ++ l2 /\
  Forall (fun k => is_dummy k = false) l1 /\
  (forall d, head l2 = Some d -> is_dummy d = true) /\
  exists b', reset_pressed_keys 0 0 stale_entries = Some b' /\
    all_pressed_keys b' = replicate (length l1) (Key_0 0 0) ++ l2 /\
    curr_pressed_keys b' = replicate MAX_NUM_KEYS (Key_0 0 0) /\
    just_released_keys b' = replicate MAX_NUM_KEYS (Key_0 0 0).
Proof.
  intros l1 l2.
  assert (Hwf : wf stale_entries) by (constructor; reflexivity).
  assert (Hl1 : Forall (fun k => is_dummy k = false) l1)
    by (repeat constructor).
  assert (Hl2 : forall d, head l2 = Some d -> is_dummy d = true)
    by (intros d [= <-]; reflexivity).
  split; [exact Hwf|]. split; [reflexivity|]. split; [exact Hl1|].
  split; [exact Hl2|].
  apply (reset_stops_at_first_dummy 0 0 stale_entries l1 l2);
    [exact Hwf | reflexivity | exact Hl1 | exact Hl2].
Defined.

(** Seven keys of row 0 are held. *)
Lemma scan_packs_ordinary_keys_witness :
  let read :=
    switches [(0, 0); (0, 1); (0, 2); (0, 3); (0, 4); (0, 5); (0, 6)] in
  hid_nonneg teensy_hid /\ wf holding_L /\
  exists b' r, update 0 0 teensy_hid read holding_L = Some (b', r) /\
    curr_pressed_keys b' =
      ordinary_pressed (KEYS 0 0 teensy_hid) read ++
      replicate
        (MAX_NUM_KEYS - length (ordinary_pressed (KEYS 0 0 teensy_hid) read))
        (Key_0 0 0) /\
    num_keys_pressed b' = length (ordinary_seen (KEYS 0 0 teensy_hid) read).
Proof.
  intros read.
  split; [exact teensy_hid_nonneg|]. split; [exact holding_L_wf|].
  apply (scan_packs_ordinary_keys 0 0 teensy_hid read holding_L);
    [exact teensy_hid_nonneg | exact holding_L_wf].
Defined.

(** A is placed next to L, in slot 1. *)
Lemma try_place_key_outcome_witness :
  wf holding_L /\ is_dummy key_A = false /\
  exists b' placed, try_place_key key_A holding_L = Some (b', placed) /\
    (placed = true <->
     (forall j s, keys_to_send holding_L !! j = Some s ->
                  key_eq s key_A = false) /\
     (exists j s, keys_to_send holding_L !! j = Some s /\
                  is_dummy s = true)) /\
    (placed = false -> b' = holding_L) /\
    (placed = true -> exists l s,
       keys_to_send holding_L !! l = Some s /\ is_dummy s = true /\
       (forall j s', j < l -> keys_to_send holding_L !! j = Some s' ->
                     is_dummy s' = false) /\
       b' = place_at l key_A holding_L).
Proof.
  split; [exact holding_L_wf|]. split; [reflexivity|].
  apply (try_place_key_outcome key_A holding_L);
    [exact holding_L_wf | reflexivity].
Defined.

(** The key L, with a secondary code only. *)
Lemma tables_have_one_layer_per_key_witness :
  let table := KEYS 0 0 teensy_hid in
  (table = KEYS 0 0 teensy_hid \/ table = KEYS_SPECIAL 0 0 teensy_hid) /\
  is_dummy (table 2 4) = false /\
  has_second (table 2 4) && has_third (table 2 4) = false /\
  forall fn fn2,
    layer_code fn fn2 (table 2 4) =
    if has_third (table 2 4) && fn2 then third (table 2 4)
    else if has_second (table 2 4) && fn then second (table 2 4)
    else code (table 2 4).
Proof.
  intros table.
  split; [left; reflexivity|]. split; [reflexivity|].
  apply (tables_have_one_layer_per_key 0 0 teensy_hid table 2 4);
    [left; reflexivity | reflexivity].
Defined.

(** [init] on two different memories, with two contents of the
    default-constructed keys. *)
Lemma init_then_first_cycle_witness :
  hid_nonneg teensy_hid /\ wf blank /\ wf six_held /\
  exists b b', init 0 0 blank = Some b /\ init 7 9 six_held = Some b' /\
    just_released_keys b = just_released_keys blank /\
    num_keys_released b = num_keys_released blank /\
    current_modifier b = current_modifier blank /\
    pressed_media b = pressed_media blank /\
    Forall (fun k => is_dummy k = true) (keys_to_send b) /\
    Forall (fun k => is_dummy k = true) (get_curr_pressed_keys b) /\
    Forall (fun c => c = 0%Z) (codes_to_send b) /\
    get_num_keys_pressed b = 0 /\
    forall read, exists b1 r b1' r',
      update 0 0 teensy_hid read b = Some (b1, r) /\
      update 7 9 teensy_hid read b' = Some (b1', r') /\
      r = r' /\ alike_boards b1 b1'.
Proof.
  split; [exact teensy_hid_nonneg|]. split; [exact blank_wf|].
  split; [exact six_held_wf|].
  apply (init_then_first_cycle 0 0 7 9 teensy_hid blank six_held);
    [exact teensy_hid_nonneg | exact blank_wf | exact six_held_wf].
Defined.

Lemma codes_are_bytes_witness :
  hid_nonneg teensy_hid /\ wf blank /\
  exists b, init 0 0 blank = Some b /\ codes_byte b /\
    wf holding_L /\ no_duplicate holding_L /\ codes_byte holding_L /\
    exists b' r,
      update 0 0 teensy_hid (switches [(2, 4); (2, 12)]) holding_L
        = Some (b', r) /\
      codes_byte b' /\ Forall (fun c => (0 <= c < 256)%Z) (report_keys r).
Proof.
  assert (Hb : codes_byte holding_L)
    by (unfold codes_byte; simpl; repeat constructor; lia).
  split; [exact teensy_hid_nonneg|]. split; [exact blank_wf|].
  destruct (codes_are_bytes 0 0 teensy_hid teensy_hid_nonneg)
    as [Hinit Hcycle].
  destruct (Hinit blank blank_wf) as (b & Hi & Hbyte).
  exists b. split; [exact Hi|]. split; [exact Hbyte|].
  split; [exact holding_L_wf|]. split; [exact holding_L_no_duplicate|].
  split; [exact Hb|].
  exact (Hcycle (switches [(2, 4); (2, 12)]) holding_L holding_L_wf
           holding_L_no_duplicate Hb).
Defined.

Lemma slots_hold_ordinary_keys_witness :
  hid_nonneg teensy_hid /\ wf blank /\
  exists b, init 0 0 blank = Some b /\ slots_ordinary b /\
    wf holding_L /\ no_duplicate holding_L /\ slots_ordinary holding_L /\
    exists b' r,
      update 0 0 teensy_hid (switches [(2, 4); (3, 13); (4, 1)]) holding_L
        = Some (b', r) /\
      slots_ordinary b'.
Proof.
  assert (Ho : slots_ordinary holding_L).
  { intros i s Hs Hd.
    do 6 (destruct i as [|i];
          [injection Hs as <-; first [reflexivity | discriminate Hd]|]).
    discriminate. }
  split; [exact teensy_hid_nonneg|]. split; [exact blank_wf|].
  destruct (slots_hold_ordinary_keys 0 0 teensy_hid teensy_hid_nonneg)
    as [Hinit Hcycle].
  destruct (Hinit blank blank_wf) as (b & Hi & Hord).
  exists b. split; [exact Hi|]. split; [exact Hord|].
  split; [exact holding_L_wf|]. split; [exact holding_L_no_duplicate|].
  split; [exact Ho|].
  exact (Hcycle (switches [(2, 4); (3, 13); (4, 1)]) holding_L holding_L_wf
           holding_L_no_duplicate Ho).
Defined.

(** Of the six keys held, = and 0 stay pressed; four are released. *)
Lemma release_list_of_a_cycle_witness :
  let read := switches [(0, 1); (0, 3)] in
  hid_nonneg teensy_hid /\ wf six_held /\ no_duplicate six_held /\
  exists b' r, update 0 0 teensy_hid read six_held = Some (b', r) /\
    get_just_released_keys b' =
      released_keys (ordinary_pressed (KEYS 0 0 teensy_hid) read)
        (keys_to_send six_held) ++
      replicate (MAX_NUM_KEYS - get_num_released_keys b') (Key_0 0 0) /\
    get_num_released_keys b' =
      length (released_keys (ordinary_pressed (KEYS 0 0 teensy_hid) read)
                (keys_to_send six_held)) /\
    get_num_released_keys b' <= MAX_NUM_KEYS.
Proof.
  intros read.
  assert (Hnd : no_duplicate six_held)
    by (apply distinct_keys_no_duplicate; reflexivity).
  split; [exact teensy_hid_nonneg|]. split; [exact six_held_wf|].
  split; [exact Hnd|].
  apply (release_list_of_a_cycle 0 0 teensy_hid read six_held);
    [exact teensy_hid_nonneg | exact six_held_wf | exact Hnd].
Defined.

Lemma slots_are_the_pressed_keys_witness :
  let read := switches [(2, 12); (1, 12); (4, 0)] in
  hid_nonneg teensy_hid /\ wf holding_L /\ no_duplicate holding_L /\
  exists b' r, update 0 0 teensy_hid read holding_L = Some (b', r) /\
    (forall i s, keys_to_send b' !! i = Some s -> is_dummy s = false ->
       exists c, c ∈ ordinary_pressed (KEYS 0 0 teensy_hid) read /\
                 key_eq s c = true) /\
    (forall c, c ∈ ordinary_pressed (KEYS 0 0 teensy_hid) read ->
       exists i s, keys_to_send b' !! i = Some s /\ key_eq s c = true).
Proof.
  intros read.
  split; [exact teensy_hid_nonneg|]. split; [exact holding_L_wf|].
  split; [exact holding_L_no_duplicate|].
  apply (slots_are_the_pressed_keys 0 0 teensy_hid read holding_L);
    [exact teensy_hid_nonneg | exact holding_L_wf
    | exact holding_L_no_duplicate].
Defined.

(** Only the switch at (1, 0) is closed, where [KEYS] has no key: L is
    released. *)
Lemma all_switches_open_witness :
  let read := switches [(1, 0)] in
  hid_nonneg teensy_hid /\ wf holding_L /\ no_duplicate holding_L /\
  codes_agree holding_L /\
  same_switches (KEYS 0 0 teensy_hid) read (fun _ _ => false) /\
  exists b' r, update 0 0 teensy_hid read holding_L = Some (b', r) /\
    r = mkReport (replicate MAX_NUM_KEYS 0%Z) 0%Z 0%Z /\
    Forall (fun k => is_dummy k = true) (keys_to_send b') /\
    get_num_keys_pressed b' = 0 /\
    get_just_released_keys b' =
      filter (fun k => is_dummy k = false) (keys_to_send holding_L) ++
      replicate (MAX_NUM_KEYS - get_num_released_keys b') (Key_0 0 0) /\
    get_num_released_keys b' =
      length (filter (fun k => is_dummy k = false) (keys_to_send holding_L)).
Proof.
  intros read.
  assert (Hs : same_switches (KEYS 0 0 teensy_hid) read (fun _ _ => false)).
  { unfold same_switches.
    each_position ltac:(let H := fresh in
                        intros H;
                        first [reflexivity
                              | vm_compute in H; discriminate H]). }
  split; [exact teensy_hid_nonneg|]. split; [exact holding_L_wf|].
  split; [exact holding_L_no_duplicate|].
  split; [exact holding_L_codes_agree|]. split; [exact Hs|].
  apply (all_switches_open 0 0 teensy_hid read holding_L);
    [exact teensy_hid_nonneg | exact holding_L_wf
    | exact holding_L_no_duplicate | exact holding_L_codes_agree | exact Hs].
Defined.

(** L is released and A, Q pressed, twice. *)
Lemma steady_state_witness :
  let read := switches [(2, 12); (1, 12); (4, 2)] in
  hid_nonneg teensy_hid /\ wf holding_L /\ no_duplicate holding_L /\
  exists b1 r1 b2 r2,
    update 0 0 teensy_hid read holding_L = Some (b1, r1) /\
    update 0 0 teensy_hid read b1 = Some (b2, r2) /\
    r2 = r1 /\
    keys_to_send b2 = keys_to_send b1 /\
    codes_to_send b2 = codes_to_send b1 /\
    get_num_released_keys b2 = 0.
Proof.
  intros read.
  split; [exact teensy_hid_nonneg|]. split; [exact holding_L_wf|].
  split; [exact holding_L_no_duplicate|].
  apply (steady_state 0 0 teensy_hid read holding_L);
    [exact teensy_hid_nonneg | exact holding_L_wf
    | exact holding_L_no_duplicate].
Defined.

(** Q, L and A are pressed with FN on an empty keyboard. *)
Lemma first_presses_in_scan_order_witness :
  let read := switches [(2, 4); (2, 12); (1, 12); (4, 1)] in
  let b := empty_slots false false [] in
  hid_nonneg teensy_hid /\ wf b /\
  Forall (fun k => is_dummy k = true) (keys_to_send b) /\
  NoDup (kid <$> ordinary_pressed (KEYS 0 0 teensy_hid) read) /\
  exists b' r, update 0 0 teensy_hid read b = Some (b', r) /\
    forall i,
      (forall k, ordinary_pressed (KEYS 0 0 teensy_hid) read !! i = Some k ->
         keys_to_send b' !! i = Some k /\
         codes_to_send b' !! i =
           Some (to_uint8 (layer_code (read 4 1) (read 4 2) k))) /\
      (ordinary_pressed (KEYS 0 0 teensy_hid) read !! i = None ->
         keys_to_send b' !! i = keys_to_send b !! i /\
         codes_to_send b' !! i = codes_to_send b !! i).
Proof.
  intros read b.
  assert (Hwf : wf b) by (constructor; reflexivity).
  assert (He : Forall (fun k => is_dummy k = true) (keys_to_send b))
    by (repeat constructor).
  assert (Hd : NoDup (kid <$> ordinary_pressed (KEYS 0 0 teensy_hid) read))
    by (apply (bool_decide_unpack _); vm_compute; exact I).
  split; [exact teensy_hid_nonneg|]. split; [exact Hwf|].
  split; [exact He|]. split; [exact Hd|].
  apply (first_presses_in_scan_order 0 0 teensy_hid read b);
    [exact teensy_hid_nonneg | exact Hwf | exact He | exact Hd].
Defined.

(** Three cycles from a memory that was never initialised. *)
Lemma run_never_fails_witness :
  hid_nonneg teensy_hid /\ wf blank /\
  exists b', run 0 0 teensy_hid holding_reads blank = Some b' /\ wf b'.
Proof.
  split; [exact teensy_hid_nonneg|]. split; [exact blank_wf|].
  apply (run_never_fails 0 0 teensy_hid holding_reads blank);
    [exact teensy_hid_nonneg | exact blank_wf].
Defined.

Lemma media_never_reported_witness :
  let read := switches [(0, 0); (2, 4); (4, 1)] in
  hid_nonneg teensy_hid /\ hid_no_media teensy_hid /\ wf holding_L /\
  exists b' r, update 0 0 teensy_hid read holding_L = Some (b', r) /\
    report_media r = 0%Z /\ current_media b' = 0%Z /\
    pressed_media b' = Key_0 0 0.
Proof.
  intros read.
  split; [exact teensy_hid_nonneg|]. split; [exact teensy_hid_no_media|].
  split; [exact holding_L_wf|].
  apply (media_never_reported 0 0 teensy_hid read holding_L);
    [exact teensy_hid_nonneg | exact teensy_hid_no_media
    | exact holding_L_wf].
Defined.

(** The key of the digit 1 (row 0, column 12) is F1 in the second table,
    the escape key next to it is the same in both. *)
Lemma special_table_swaps_row_0_witness :
  0 < NUM_ROWS /\ 12 < NUM_COLS /\ 13 < NUM_COLS /\
  KEYS_SPECIAL 0 0 teensy_hid 0 12 =
    Key_2 (second (KEYS 0 0 teensy_hid 0 12))
      (code (KEYS 0 0 teensy_hid 0 12)) /\
  KEYS_SPECIAL 0 0 teensy_hid 0 13 = KEYS 0 0 teensy_hid 0 13.
Proof.
  assert (H0 : 0 < NUM_ROWS) by (unfold NUM_ROWS; lia).
  assert (H12 : 12 < NUM_COLS) by (unfold NUM_COLS; lia).
  assert (H13 : 13 < NUM_COLS) by (unfold NUM_COLS; lia).
  split; [exact H0|]. split; [exact H12|]. split; [exact H13|].
  split.
  - exact (special_table_swaps_row_0 0 0 teensy_hid 0 12 H0 H12).
  - exact (special_table_swaps_row_0 0 0 teensy_hid 0 13 H0 H13).
Defined.
